(** * FindTheMag2: resource allocation and control engine

    A shallow embedding of the decision core of FindTheMag2 and the
    properties its specification states about it.

    The embedding follows the Python sources module by module:

    - [Py]: the fragment of the Python runtime the sources rely on
      (exceptions, [str] methods, JSON-like dynamic values, [datetime]);
    - [utils]: [utils/utils.py], URL canonicalisation;
    - [tune_temp]: [utils/tune_temp.py], the thermal PID controller;
    - [BoincClientConnection]: [utils/BoincClientConnection.py], the retrying
      RPC call and the log classifiers;
    - [GridcoinClientConnection]: [utils/GridcoinClientConnection.py], the
      wallet RPC call and the magnitude-ratio table with its cache;
    - [StatsHelper]: [utils/StatsHelper.py], averages and the scheduler.

    Conventions.  A Python [str] is a [string] of ASCII characters.  A Python
    [float] is a binary64 primitive float in [tune_temp] (whose arithmetic is
    the object of the controller) and an exact rational in [StatsHelper] and
    [GridcoinClientConnection], where only comparisons, zero tests and the
    division-by-zero behaviour matter.  Exact arithmetic does not round:
    where rounding can change an outcome of the source (the inclusion
    threshold of [get_most_mag_efficient_projects], a wall time that
    underflows in [calculate_credit_averages], a tie of [round]), the
    theorems keep to what holds in binary64 as in exact arithmetic.  A
    function that can raise returns a
    [result]; a function that mutates an object takes and returns it.
    Logging calls have no bearing on any value and are left out. *)

From Stdlib Require Import ZArith QArith Qround String Ascii DecimalString List Bool Floats Lia.
From Stdlib Require Import Sorting.Sorted Sorting.Permutation.
From stdpp Require Import base option gmap strings.
Import ListNotations.

Set Warnings "-inexact-float,-register-all".

Local Open Scope string_scope.
Local Open Scope Z_scope.

(** ** The Python runtime fragment *)

Module Py.

(** Exceptions, by class. *)
Inductive exn : Type :=
| AssertionError
| AttributeError
| ConnectionError
| IndexError
| KeyError
| OverflowError
| TypeError
| ValueError
| ZeroDivisionError.

(** The outcome of a call: a value, or a raised exception. *)
Inductive result (A : Type) : Type :=
| Ok (a : A)
| Raise (e : exn).
Arguments Ok {A} a.
Arguments Raise {A} e.

Definition bind {A B : Type} (r : result A) (k : A -> result B) : result B :=
  match r with
  | Ok a => k a
  | Raise e => Raise e
  end.

Definition is_ok {A : Type} (r : result A) : bool :=
  match r with
  | Ok _ => true
  | Raise _ => false
  end.

(** [try: body  except Exception: handler]. *)
Definition try_except {A : Type} (body : result A) (handler : exn -> result A) : result A :=
  match body with
  | Ok a => Ok a
  | Raise e => handler e
  end.

(** *** [str] *)

Definition is_lower (c : ascii) : bool :=
  (97 <=? nat_of_ascii c)%nat && (nat_of_ascii c <=? 122)%nat.

Definition upper_ascii (c : ascii) : ascii :=
  if is_lower c then ascii_of_nat (nat_of_ascii c - 32) else c.

(** [s.upper()]. *)
Fixpoint upper (s : string) : string :=
  match s with
  | EmptyString => EmptyString
  | String c r => String (upper_ascii c) (upper r)
  end.

(** [s.startswith(p)]. *)
Definition startswith (p s : string) : bool := String.prefix p s.

(** [needle in hay]. *)
Fixpoint contains (needle hay : string) : bool :=
  String.prefix needle hay ||
  match hay with
  | EmptyString => false
  | String _ r => contains needle r
  end.

(** [s.endswith(suffix)]. *)
Fixpoint endswith (suffix s : string) : bool :=
  String.eqb s suffix ||
  match s with
  | EmptyString => false
  | String _ r => endswith suffix r
  end.

(** [s[:-1]]. *)
Fixpoint drop_last (s : string) : string :=
  match s with
  | EmptyString => EmptyString
  | String c EmptyString => EmptyString
  | String c r => String c (drop_last r)
  end.

(** [s.replace(old, new)] for a non-empty [old]: occurrences are found
    left to right and do not overlap; [skip] counts the characters of the
    occurrence being replaced that are still to be dropped. *)
Fixpoint replace_from (skip : nat) (old new s : string) : string :=
  match s with
  | EmptyString => EmptyString
  | String c r =>
      match skip with
      | S k => replace_from k old new r
      | O =>
          if String.prefix old s
          then new ++ replace_from (String.length old - 1) old new r
          else String c (replace_from 0 old new r)
      end
  end.

(** [s.replace("", new)] puts [new] before every character and at the end. *)
Fixpoint intersperse (new s : string) : string :=
  match s with
  | EmptyString => new
  | String c r => new ++ String c (intersperse new r)
  end.

Definition replace (old new s : string) : string :=
  match old with
  | EmptyString => intersperse new s
  | String _ _ => replace_from 0 old new s
  end.

(** [x in l] for a list of strings. *)
Fixpoint in_strs (x : string) (l : list string) : bool :=
  match l with
  | [] => false
  | y :: r => String.eqb x y || in_strs x r
  end.

(** [any(p in s for p in phrases)], in the order of the list. *)
Definition any_in (phrases : list string) (s : string) : bool :=
  existsb (fun p => contains p s) phrases.

(** The double-quote character, for phrases that contain one. *)
Definition dquote : string := String (ascii_of_nat 34) EmptyString.

(** [s.split(sep)] for a separator of one character. *)
Fixpoint split_on (sep : ascii) (s : string) : list string :=
  match s with
  | EmptyString => [EmptyString]
  | String c r =>
      if Ascii.eqb c sep then EmptyString :: split_on sep r
      else
        match split_on sep r with
        | [] => [String c EmptyString]
        | h :: t => String c h :: t
        end
  end.

Definition is_space (c : ascii) : bool :=
  let n := nat_of_ascii c in
  (n =? 32)%nat || ((9 <=? n)%nat && (n <=? 13)%nat) || ((28 <=? n)%nat && (n <=? 31)%nat).

Definition is_digit (c : ascii) : bool :=
  (48 <=? nat_of_ascii c)%nat && (nat_of_ascii c <=? 57)%nat.

Fixpoint lstrip (s : string) : string :=
  match s with
  | EmptyString => EmptyString
  | String c r => if is_space c then lstrip r else s
  end.

Fixpoint string_rev (s : string) : string :=
  match s with
  | EmptyString => EmptyString
  | String c r => string_rev r ++ String c EmptyString
  end.

(** [s.strip()]. *)
Definition strip (s : string) : string :=
  string_rev (lstrip (string_rev (lstrip s))).

(** The digits of an integer literal: single underscores may stand
    between digits. *)
Fixpoint digits_value (acc : Z) (after_digit : bool) (s : string) : option Z :=
  match s with
  | EmptyString => if after_digit then Some acc else None
  | String c r =>
      if is_digit c
      then digits_value (acc * 10 + Z.of_nat (nat_of_ascii c - 48)) true r
      else if Ascii.eqb c "_"%char && after_digit then
        match r with
        | String c' _ => if is_digit c' then digits_value acc false r else None
        | EmptyString => None
        end
      else None
  end.

(** [int(s)] for a decimal string. *)
Definition py_int (s : string) : result Z :=
  let s := strip s in
  let '(negative, digits) :=
    match s with
    | String c r =>
        if Ascii.eqb c "-"%char then (true, r)
        else if Ascii.eqb c "+"%char then (false, r)
        else (false, s)
    | EmptyString => (false, s)
    end in
  match digits_value 0 false digits with
  | Some v => Ok (if negative then - v else v)
  | None => Raise ValueError
  end.

(** [l[i]] on a list. *)
Definition list_index {A : Type} (l : list A) (i : nat) : result A :=
  match nth_error l i with
  | Some x => Ok x
  | None => Raise IndexError
  end.

Definition is_upper (c : ascii) : bool :=
  (65 <=? nat_of_ascii c)%nat && (nat_of_ascii c <=? 90)%nat.

Definition lower_ascii (c : ascii) : ascii :=
  if is_upper c then ascii_of_nat (nat_of_ascii c + 32) else c.

(** [s.lower()]. *)
Fixpoint lower (s : string) : string :=
  match s with
  | EmptyString => EmptyString
  | String c r => String (lower_ascii c) (lower r)
  end.

(** [len(s)]. *)
Definition str_len (s : string) : Z := Z.of_nat (String.length s).

(** [s[0:stop]]: a negative [stop] counts from the end of the string, and
    a bound beyond either end is clipped to it. *)
Definition slice_to (s : string) (stop : Z) : string :=
  let stop := if stop <? 0 then Z.max (str_len s + stop) 0 else Z.min stop (str_len s) in
  String.substring 0 (Z.to_nat stop) s.

Fixpoint repeat_nat (s : string) (n : nat) : string :=
  match n with
  | O => EmptyString
  | S k => s ++ repeat_nat s k
  end.

(** [s * n]: the empty string when [n <= 0]. *)
Definition repeat_str (s : string) (n : Z) : string := repeat_nat s (Z.to_nat n).

(** [floor(n / 2)] and [ceil(n / 2)] for an [int] [n]: the quotient is a
    float, exact as long as [|n| <= 2**53]. *)
Definition floor_half (n : Z) : Z := n / 2.
Definition ceil_half (n : Z) : Z := - ((- n) / 2).

(** *** Dynamic values

    What [json] and the RPC reply parsers hand back: [None], booleans,
    numbers, strings, lists and dictionaries in insertion order. *)
Inductive pyval : Type :=
| PNone
| PBool (b : bool)
| PNum (q : Q)
| PStr (s : string)
| PList (l : list pyval)
| PDict (d : list (string * pyval)).

(** [bool(v)]. *)
Definition truthy (v : pyval) : bool :=
  match v with
  | PNone => false
  | PBool b => b
  | PNum q => negb (Qeq_bool q 0)
  | PStr s => negb (String.eqb s "")
  | PList l => match l with [] => false | _ :: _ => true end
  | PDict d => match d with [] => false | _ :: _ => true end
  end.

(** [not str(v)]: [str] renders every value but the empty string with at
    least one character. *)
Definition str_is_empty (v : pyval) : bool :=
  match v with
  | PStr s => String.eqb s ""
  | _ => false
  end.

(** Lookup in a dictionary kept in insertion order. *)
Fixpoint dict_get {V : Type} (d : list (string * V)) (k : string) : option V :=
  match d with
  | [] => None
  | (k', v) :: r => if String.eqb k k' then Some v else dict_get r k
  end.

(** [d[k] = v]: an existing key keeps its place, a new one goes last. *)
Fixpoint dict_set {V : Type} (d : list (string * V)) (k : string) (v : V) : list (string * V) :=
  match d with
  | [] => [(k, v)]
  | (k', v') :: r => if String.eqb k k' then (k', v) :: r else (k', v') :: dict_set r k v
  end.

(** [v[k]] for a string key. *)
Definition getitem (v : pyval) (k : string) : result pyval :=
  match v with
  | PDict d =>
      match dict_get d k with
      | Some x => Ok x
      | None => Raise KeyError
      end
  | _ => Raise TypeError
  end.

(** [v[i]] for an integer index [0 <= i]. *)
Definition getindex (v : pyval) (i : nat) : result pyval :=
  match v with
  | PList l =>
      match nth_error l i with
      | Some x => Ok x
      | None => Raise IndexError
      end
  | PStr s =>
      match String.get i s with
      | Some c => Ok (PStr (String c EmptyString))
      | None => Raise IndexError
      end
  | PDict _ => Raise KeyError
  | _ => Raise TypeError
  end.

(** [v.items()]. *)
Definition items (v : pyval) : result (list (string * pyval)) :=
  match v with
  | PDict d => Ok d
  | _ => Raise AttributeError
  end.

(** A value used as a number: [bool] is a subclass of [int]. *)
Definition as_num (v : pyval) : result Q :=
  match v with
  | PNum q => Ok q
  | PBool b => Ok (if b then 1 else 0)%Q
  | _ => Raise TypeError
  end.

(** [int(x)] on a number: truncation towards zero. *)
Definition num_to_int (x : Q) : Z := Z.quot (Qnum x) (Zpos (Qden x)).

(** [int(v)]. *)
Definition int_of (v : pyval) : result Z :=
  match v with
  | PNum q => Ok (num_to_int q)
  | PBool b => Ok (if b then 1 else 0)
  | PStr s => py_int s
  | _ => Raise TypeError
  end.

(** [v == n] for a number [n]; [True] and [False] compare as 1 and 0. *)
Definition eq_num (v : pyval) (n : Q) : bool :=
  match v with
  | PNum q => Qeq_bool q n
  | PBool b => Qeq_bool (if b then 1 else 0) n
  | _ => false
  end.

(** [v == s] for a string [s]. *)
Definition eq_str (v : pyval) (s : string) : bool :=
  match v with
  | PStr x => String.eqb x s
  | _ => false
  end.

(** [for x in v]: the items a loop over [v] goes through. *)
Definition iterate (v : pyval) : result (list pyval) :=
  match v with
  | PList l => Ok l
  | PDict d => Ok (List.map (fun entry => PStr (fst entry)) d)
  | PStr s => Ok (List.map (fun c => PStr (String c EmptyString)) (list_ascii_of_string s))
  | _ => Raise TypeError
  end.

(** [k in v] for a string [k]. *)
Definition has_key (k : string) (v : pyval) : result bool :=
  match v with
  | PDict d => Ok (match dict_get d k with Some _ => true | None => false end)
  | PList l => Ok (existsb (fun x => eq_str x k) l)
  | PStr s => Ok (contains k s)
  | _ => Raise TypeError
  end.

(** [v.get(k, default)]. *)
Definition get_default (v : pyval) (k : string) (default : pyval) : result pyval :=
  match v with
  | PDict d => Ok (match dict_get d k with Some x => x | None => default end)
  | _ => Raise AttributeError
  end.

(** [x / y] on numbers. *)
Definition truediv (x y : Q) : result Q :=
  if Qeq_bool y 0 then Raise ZeroDivisionError else Ok (x / y)%Q.

(** [x > y] on numbers. *)
Definition Qgt_bool (x y : Q) : bool := negb (Qle_bool x y).

(** The integer nearest to [x], a tie going to the even one. *)
Definition round_half_even (x : Q) : Z :=
  let f := Qfloor x in
  match Qcompare (x - inject_Z f) (1 # 2) with
  | Lt => f
  | Gt => f + 1
  | Eq => if Z.even f then f else f + 1
  end.

(** [round(x, ndigits)] for [ndigits >= 0]: the multiple of
    [10 ** -ndigits] nearest to [x], a tie going to the even digit.  The
    argument is the exact value: the source rounds the binary64 value,
    which can lie on the other side of a tie. *)
Definition py_round (x : Q) (ndigits : Z) : Q :=
  (inject_Z (round_half_even (x * inject_Z (10 ^ ndigits))) / inject_Z (10 ^ ndigits))%Q.

(** *** [datetime]

    Naive datetimes and their differences, with the calendar arithmetic of
    CPython's [datetime] module. *)
Record datetime : Type := mkdatetime {
  year : Z;
  month : Z;
  day : Z;
  hour : Z;
  minute : Z;
  second : Z;
  microsecond : Z
}.

(** A [timedelta], normalised: [0 <= seconds < 86400] and
    [0 <= microseconds < 1000000]; only [days] carries a sign. *)
Record timedelta : Type := mktimedelta {
  days : Z;
  seconds : Z;
  microseconds : Z
}.

Definition is_leap (y : Z) : bool :=
  (y mod 4 =? 0) && (negb (y mod 100 =? 0) || (y mod 400 =? 0)).

Definition days_before_year (y : Z) : Z :=
  let y := y - 1 in
  y * 365 + y / 4 - y / 100 + y / 400.

Definition days_in_month (y m : Z) : Z :=
  if (m =? 2) && is_leap y then 29
  else nth (Z.to_nat m) [0; 31; 28; 31; 30; 31; 30; 31; 31; 30; 31; 30; 31] 0.

Definition days_before_month (y m : Z) : Z :=
  nth (Z.to_nat m) [0; 0; 31; 59; 90; 120; 151; 181; 212; 243; 273; 304; 334] 0
  + (if (2 <? m) && is_leap y then 1 else 0).

(** [d.toordinal()]: day 1 is 0001-01-01. *)
Definition toordinal (d : datetime) : Z :=
  days_before_year (year d) + days_before_month (year d) (month d) + day d.

(** Microseconds since the start of day 0. *)
Definition to_microseconds (d : datetime) : Z :=
  ((toordinal d * 24 + hour d) * 60 + minute d) * 60 * 1000000
  + second d * 1000000 + microsecond d.

(** [a - b]. *)
Definition datetime_sub (a b : datetime) : timedelta :=
  let us := to_microseconds a - to_microseconds b in
  {| days := us / 86400000000;
     seconds := (us mod 86400000000) / 1000000;
     microseconds := us mod 1000000 |}.

(** An argument that the constructor can take as a C [int]. *)
Definition fits_c_int (n : Z) : bool := (-2147483648 <=? n) && (n <=? 2147483647).

(** [datetime.datetime(year, month, day)]: the three arguments are
    converted to C [int]s, with [OverflowError] for one that does not fit,
    before the date is checked. *)
Definition datetime_of_date (y m d : Z) : result datetime :=
  if negb (fits_c_int y && fits_c_int m && fits_c_int d) then Raise OverflowError
  else if (1 <=? y) && (y <=? 9999) && (1 <=? m) && (m <=? 12)
          && (1 <=? d) && (d <=? days_in_month y m)
  then Ok (mkdatetime y m d 0 0 0 0)
  else Raise ValueError.

(** A decimal digit as a character. *)
Definition digit_char (n : Z) : ascii := ascii_of_nat (48 + Z.to_nat n).

(** [n] in decimal over [width] digits, padded with zeros on the left. *)
Fixpoint zero_padded (width : nat) (n : Z) : string :=
  match width with
  | O => EmptyString
  | S w => zero_padded w (n / 10) ++ String (digit_char (n mod 10)) EmptyString
  end.

(** [d.strftime("%m-%d-%Y")], for a year of four digits. *)
Definition strftime_mdY (d : datetime) : string :=
  zero_padded 2 (month d) ++ "-" ++ zero_padded 2 (day d) ++ "-" ++ zero_padded 4 (year d).

End Py.

Declare Scope py_scope.
Delimit Scope py_scope with py.
Notation "x <- c ;; k" := (Py.bind c (fun x => k))
  (at level 100, c at next level, right associativity) : py_scope.
Notation "'assert!' b ;; k" := (if b then k else Py.Raise Py.AssertionError)
  (at level 100, b at next level, right associativity) : py_scope.
Local Open Scope py_scope.

(** ** utils/utils.py *)

Module utils.
Import Py.

(** [_resolve_url_database], the memoised worker: it receives the URL
    already upper-cased. *)
Definition _resolve_url_database (uppered : string) : string :=
  let canonical := uppered in
  let canonical := replace "HTTPS://WWW." "" canonical in
  let canonical := replace "HTTP://WWW." "" canonical in
  let canonical := replace "HTTPS://" "" canonical in
  let canonical := replace "HTTP://" "" canonical in
  let canonical :=
    if startswith "WWW." canonical then replace "WWW." "" canonical else canonical in
  let canonical :=
    if endswith "/" canonical then drop_last canonical else canonical in
  let canonical :=
    if contains "WORLDCOMMUNITYGRID.ORG/BOINC" canonical
    then "WORLDCOMMUNITYGRID.ORG" else canonical in
  canonical.

Definition resolve_url_database (url : string) : string :=
  let uppered := upper url in
  _resolve_url_database uppered.

Definition resolve_url_list_to_database (url_list : list string) : list string :=
  List.map resolve_url_database url_list.

(** [in_list]: is the canonical form of [my_str] a substring of an item. *)
Fixpoint in_list (my_str : string) (list_ : list string) : bool :=
  let search_str := resolve_url_database my_str in
  match list_ with
  | [] => false
  | item :: rest => if contains search_str (upper item) then true else in_list my_str rest
  end.

(** The loop of [grc_project_name_to_url] over [all_projects.items()]: a
    matching entry that is neither a string nor a dictionary is passed
    over.  [PNone] is the [None] returned when nothing matches. *)
Fixpoint grc_project_name_to_url_loop (uppered : string)
    (all_projects : list (string * pyval)) : result pyval :=
  match all_projects with
  | [] => Ok PNone
  | (found_project_name, found_project_dict) :: rest =>
      if String.eqb (upper found_project_name) uppered then
        match found_project_dict with
        | PStr s => Ok (PStr s)
        | PDict _ => getitem found_project_dict "base_url"
        | _ => grc_project_name_to_url_loop uppered rest
        end
      else grc_project_name_to_url_loop uppered rest
  end.

Definition grc_project_name_to_url (searchname : string) (all_projects : pyval)
    : result pyval :=
  let uppered := upper searchname in
  entries <- items all_projects ;;
  grc_project_name_to_url_loop uppered entries.

(** [project_name_to_url]: the resolver maps project names to URLs. *)
Fixpoint project_name_to_url_loop (uppered : string)
    (project_resolver_dict : list (string * string)) : option string :=
  match project_resolver_dict with
  | [] => None
  | (found_project_name, project_url) :: rest =>
      if String.eqb (upper found_project_name) uppered
      then Some (resolve_url_database project_url)
      else project_name_to_url_loop uppered rest
  end.

Definition project_name_to_url (searchname : string)
    (project_resolver_dict : list (string * string)) : option string :=
  let uppered := upper searchname in
  project_name_to_url_loop uppered project_resolver_dict.

(** [project_url_to_name_boinc]: [project_names] maps project URLs to
    names; the keys are compared as they are. *)
Fixpoint project_url_to_name_boinc_loop (url canonical_url : string)
    (project_names : list (string * string)) : string :=
  match project_names with
  | [] => url
  | (project_url, name) :: rest =>
      if contains canonical_url project_url || String.eqb canonical_url project_url
      then name
      else project_url_to_name_boinc_loop url canonical_url rest
  end.

Definition project_url_to_name_boinc (url : string)
    (project_names : list (string * string)) : string :=
  let canonical_url := resolve_url_database url in
  project_url_to_name_boinc_loop url canonical_url project_names.

(** The body of [_project_url_to_name]: the loop has no [break], the last
    matching entry decides. *)
Fixpoint _project_url_to_name_loop (canonical_url : string)
    (project_names : list (string * string)) (found : string) : string :=
  match project_names with
  | [] => found
  | (project_url, name) :: rest =>
      let found :=
        if contains canonical_url (upper project_url)
           || String.eqb canonical_url (upper project_url)
        then replace "athome" "" (replace "@home" "" (lower name))
        else found in
      _project_url_to_name_loop canonical_url rest found
  end.

Definition _project_url_to_name_body (url : string)
    (project_names : list (string * string)) : string :=
  let canonical_url := resolve_url_database url in
  let found := url in
  _project_url_to_name_loop canonical_url project_names found.

(** [_project_url_to_name] is wrapped in [functools.cache], and its second
    argument in an [EquivalentWrapper], whose [__eq__] answers [True] for
    every other wrapper and whose [__hash__] is constant.  The memo table is
    therefore keyed by [url] alone; it is unbounded and never evicts.  The
    table is threaded through the call. *)
Definition _project_url_to_name (memo : gmap string string) (url : string)
    (project_names : list (string * string)) : string * gmap string string :=
  match memo !! url with
  | Some found => (found, memo)
  | None =>
      let found := _project_url_to_name_body url project_names in
      (found, <[url := found]> memo)
  end.

Definition project_url_to_name (memo : gmap string string) (url : string)
    (project_names : list (string * string)) : string * gmap string string :=
  _project_url_to_name memo url project_names.

(** A run of calls of [project_url_to_name], in order: the answers and the
    memo table afterwards. *)
Fixpoint project_url_to_name_calls (memo : gmap string string)
    (calls : list (string * list (string * string))) : list string * gmap string string :=
  match calls with
  | [] => ([], memo)
  | (url, project_names) :: rest =>
      let '(found, memo) := project_url_to_name memo url project_names in
      let '(answers, memo) := project_url_to_name_calls memo rest in
      (found :: answers, memo)
  end.

(** [left_align]. *)
Definition left_align (yourstring : string) (total_len min_pad : Z) : string :=
  let yourstring :=
    if str_len yourstring >=? total_len - min_pad
    then slice_to yourstring (total_len - min_pad)
    else yourstring in
  let space_left := total_len - (str_len yourstring + min_pad) in
  let right_pad := repeat_str " " (space_left + min_pad) in
  yourstring ++ right_pad.

(** [center_align]. *)
Definition center_align (yourstring : string) (total_len min_pad : Z) : string :=
  let total_min_pad := min_pad * 2 in
  let room_for_string := total_len - total_min_pad in
  let yourstring :=
    if str_len yourstring >=? room_for_string
    then slice_to yourstring room_for_string
    else yourstring in
  let space_left := total_len - str_len yourstring in
  let left_pad := repeat_str " " (floor_half space_left) in
  let right_pad := repeat_str " " (ceil_half space_left) in
  left_pad ++ yourstring ++ right_pad.

(** [combine_dicts]: [dict1] is updated in place and returned. *)
Definition combine_dicts {V : Type} (dict1 dict2 : list (string * V)) : list (string * V) :=
  fold_left (fun dict1 entry => dict_set dict1 (fst entry) (snd entry)) dict2 dict1.

(** [date_to_date]: the arguments of the constructor are evaluated from
    left to right, the year first. *)
Definition date_to_date (date : string) : result datetime :=
  let split := split_on "-"%char date in
  y <- (s <- list_index split 2 ;; py_int s) ;;
  m <- (s <- list_index split 0 ;; py_int s) ;;
  d <- (s <- list_index split 1 ;; py_int s) ;;
  datetime_of_date y m d.

End utils.

(** ** utils/tune_temp.py *)

Module tune_temp.
Import Py.
Local Open Scope float_scope.

(** Python's [/] on floats raises on a zero divisor, of either sign. *)
Definition py_div (x y : float) : result float :=
  if y =? 0 then Raise ZeroDivisionError else Ok (x / y).

(** [min(a, b)] and [max(a, b)] return their first argument unless the
    second is strictly smaller (larger). *)
Definition py_min (a b : float) : float := if b <? a then b else a.
Definition py_max (a b : float) : float := if a <? b then b else a.

(** The attributes of a [PIDController] object. *)
Record PIDController : Type := mkPIDController {
  target_opt : float;
  clamped_low : float;
  clamped_high : float;
  clamp_soft : float;
  clamp_hard : float;
  reset_counter : Z;
  last_timestamp : option float;
  error_0 : option float;
  error_1 : option float;
  delta_time : option float;
  ctrl : float;
  k_proportional : float;
  t_integral : float;
  t_derivative : float;
  k_ultimate : option float;
  stable_period : option float
}.

(** Attribute assignments. *)
Definition set_ctrl (v : float) (self : PIDController) : PIDController :=
  mkPIDController (target_opt self) (clamped_low self) (clamped_high self)
    (clamp_soft self) (clamp_hard self) (reset_counter self) (last_timestamp self)
    (error_0 self) (error_1 self) (delta_time self) v
    (k_proportional self) (t_integral self) (t_derivative self)
    (k_ultimate self) (stable_period self).

Definition set_last_timestamp (v : option float) (self : PIDController) : PIDController :=
  mkPIDController (target_opt self) (clamped_low self) (clamped_high self)
    (clamp_soft self) (clamp_hard self) (reset_counter self) v
    (error_0 self) (error_1 self) (delta_time self) (ctrl self)
    (k_proportional self) (t_integral self) (t_derivative self)
    (k_ultimate self) (stable_period self).

Definition set_reset_counter (v : Z) (self : PIDController) : PIDController :=
  mkPIDController (target_opt self) (clamped_low self) (clamped_high self)
    (clamp_soft self) (clamp_hard self) v (last_timestamp self)
    (error_0 self) (error_1 self) (delta_time self) (ctrl self)
    (k_proportional self) (t_integral self) (t_derivative self)
    (k_ultimate self) (stable_period self).

(** [error_0], [error_1] and [delta_time] together. *)
Definition set_history (e0 e1 dt : option float) (self : PIDController) : PIDController :=
  mkPIDController (target_opt self) (clamped_low self) (clamped_high self)
    (clamp_soft self) (clamp_hard self) (reset_counter self) (last_timestamp self)
    e0 e1 dt (ctrl self)
    (k_proportional self) (t_integral self) (t_derivative self)
    (k_ultimate self) (stable_period self).

Definition set_k_proportional (v : float) (self : PIDController) : PIDController :=
  mkPIDController (target_opt self) (clamped_low self) (clamped_high self)
    (clamp_soft self) (clamp_hard self) (reset_counter self) (last_timestamp self)
    (error_0 self) (error_1 self) (delta_time self) (ctrl self)
    v (t_integral self) (t_derivative self)
    (k_ultimate self) (stable_period self).

Definition set_t_integral (v : float) (self : PIDController) : PIDController :=
  mkPIDController (target_opt self) (clamped_low self) (clamped_high self)
    (clamp_soft self) (clamp_hard self) (reset_counter self) (last_timestamp self)
    (error_0 self) (error_1 self) (delta_time self) (ctrl self)
    (k_proportional self) v (t_derivative self)
    (k_ultimate self) (stable_period self).

Definition set_t_derivative (v : float) (self : PIDController) : PIDController :=
  mkPIDController (target_opt self) (clamped_low self) (clamped_high self)
    (clamp_soft self) (clamp_hard self) (reset_counter self) (last_timestamp self)
    (error_0 self) (error_1 self) (delta_time self) (ctrl self)
    (k_proportional self) (t_integral self) v
    (k_ultimate self) (stable_period self).

Definition set_tuning (ku sp : option float) (self : PIDController) : PIDController :=
  mkPIDController (target_opt self) (clamped_low self) (clamped_high self)
    (clamp_soft self) (clamp_hard self) (reset_counter self) (last_timestamp self)
    (error_0 self) (error_1 self) (delta_time self) (ctrl self)
    (k_proportional self) (t_integral self) (t_derivative self)
    ku sp.

(** [state.get(key, default)] on a persisted state [dict]. *)
Definition state_get (state : gmap string float) (key : string) (default : float) : float :=
  match state !! key with
  | Some v => v
  | None => default
  end.

Definition state_get_opt (state : gmap string float) (key : string)
    (default : option float) : option float :=
  match state !! key with
  | Some v => Some v
  | None => default
  end.

Section Controller.

(** [math.exp] and [math.log] of the C library: [math.log] raises
    [ValueError] outside its domain and [math.exp] raises [OverflowError]. *)
Variable math_exp : float -> result float.
Variable math_log : float -> result float.

(** [PIDController.__init__]. *)
Definition __init__ (init_ctrl target_opt : float) : result PIDController :=
  q <- py_div 1 0.001 ;;
  soft <- math_log (q - 1) ;;
  Ok {| target_opt := target_opt;
        clamped_low := 0.0;
        clamped_high := 1.0;
        clamp_soft := soft;
        clamp_hard := soft * 1.25;
        reset_counter := 0%Z;
        last_timestamp := None;
        error_0 := None;
        error_1 := None;
        delta_time := None;
        ctrl := init_ctrl;
        k_proportional := 0.0;
        t_integral := 0.0;
        t_derivative := 0.0;
        k_ultimate := None;
        stable_period := None |}.

Definition reset (self : PIDController) (counter : Z) : PIDController :=
  let self := set_reset_counter (reset_counter self + 1)%Z self in
  if (reset_counter self <? counter)%Z then self
  else set_history None None None (set_last_timestamp None self).

(** The [clamped_ctrl] property. *)
Definition clamped_ctrl (self : PIDController) : result float :=
  let ctrl := ctrl self in
  if ctrl <? - clamp_soft self then Ok (clamped_low self)
  else if clamp_soft self <? ctrl then Ok (clamped_high self)
  else
    e <- math_exp (- ctrl) ;;
    raw <- py_div 1.0 (1.0 + e) ;;
    Ok (clamped_low self + (clamped_high self - clamped_low self) * raw).

(** The [clamped_ctrl] setter. *)
Definition clamped_ctrl_setter (self : PIDController) (value : float) : result PIDController :=
  if (value - clamped_low self) * (clamped_high self - clamped_low self) <=? 0
  then Ok (set_ctrl (- clamp_soft self) self)
  else if (clamped_high self - value) * (clamped_high self - clamped_low self) <=? 0
  then Ok (set_ctrl (clamp_soft self) self)
  else
    raw <- py_div (value - clamped_low self) (clamped_high self - clamped_low self) ;;
    q <- py_div 1.0 raw ;;
    l <- math_log (q - 1.0) ;;
    Ok (set_ctrl (- l) self).

Definition export_state (self : PIDController) : result (gmap string float) :=
  c <- clamped_ctrl self ;;
  Ok (<["ctrl" := ctrl self]> (<["clamped_ctrl" := c]> ∅)).

Definition set_params_from_state (self : PIDController) : result PIDController :=
  assert! (bool_decide (stable_period self <> None)) ;;
  assert! (bool_decide (k_ultimate self <> None)) ;;
  let self :=
    match k_ultimate self with
    | Some ku => set_k_proportional (0.6 * ku) self
    | None => self
    end in
  match stable_period self with
  | Some sp => Ok (set_t_derivative (0.125 * sp) (set_t_integral (0.5 * sp) self))
  | None =>
      match k_ultimate self with
      | Some ku => Ok (set_k_proportional (0.5 * ku) self)
      | None => Raise TypeError
      end
  end.

Definition import_state (self : PIDController) (state : gmap string float)
    : result PIDController :=
  let self := set_ctrl (state_get state "ctrl" (ctrl self)) self in
  self <- match state !! "clamped_ctrl" with
          | Some v => clamped_ctrl_setter self v
          | None => Ok self
          end ;;
  let self := set_tuning (state_get_opt state "k_ultimate" (k_ultimate self))
                         (state_get_opt state "stable_period" (stable_period self)) self in
  self <- set_params_from_state self ;;
  let self := set_k_proportional (state_get state "k_proportional" (k_proportional self)) self in
  let self := set_t_integral (state_get state "t_integral" (t_integral self)) self in
  let self := set_t_derivative (state_get state "t_derivative" (t_derivative self)) self in
  Ok self.

(** [update_pid] returns the control increment and the controller with its
    error history shifted.  [dtime] is the source's parameter [delta_time],
    renamed apart from the attribute of that name. *)
Definition update_pid (self : PIDController) (error dtime : float) (clamped : bool)
    : result (float * PIDController) :=
  let k_p := k_proportional self in
  k_i <- (if negb (t_integral self =? 0) then py_div k_p (t_integral self) else Ok 0.0) ;;
  let k_d := k_p * t_derivative self in
  let dt_mid := dtime in
  let dt_ratio := 1.0 in
  let '(k_d, k_p) :=
    match error_0 self with
    | None => (0.0, 0.0)
    | Some _ => (k_d, k_p)
    end in
  h <- match delta_time self, error_1 self with
       | Some sdt, Some _ =>
           m <- py_div (dtime + sdt) 2.0 ;;
           r <- py_div dtime sdt ;;
           Ok (k_d, m, r)
       | _, _ => Ok (0.0, dt_mid, dt_ratio)
       end ;;
  let '(k_d, dt_mid, dt_ratio) := h in
  let k_i := if clamped then 0.0 else k_i in
  let delta := 0 in
  q <- py_div k_d dt_mid ;;
  let delta := delta + (k_p + k_i * dtime + q) * error in
  delta <- match error_0 self with
           | Some e0 =>
               q <- py_div (k_d * (1 + dt_ratio)) dt_mid ;;
               Ok (delta + (- k_p - q) * e0)
           | None => Ok delta
           end ;;
  delta <- match error_1 self with
           | Some e1 =>
               q <- py_div (k_d * dt_ratio) dt_mid ;;
               Ok (delta + q * e1)
           | None => Ok delta
           end ;;
  let self :=
    set_history (Some error) (error_0 self)
                (if 0 <? dtime then Some dtime else None) self in
  Ok (delta, self).

Definition delta_update (self : PIDController) (opt_value dtime : float)
    : result PIDController :=
  let error := target_opt self - opt_value in
  let ctrl0 := ctrl self in
  r <- update_pid self error dtime (clamp_soft self <? abs (ctrl self)) ;;
  let '(delta, self) := r in
  let self := set_ctrl (ctrl0 + delta) self in
  Ok (set_ctrl (py_max (- clamp_hard self) (py_min (clamp_hard self) (ctrl self))) self).

Definition timestamp_update (self : PIDController) (opt_value timestamp : float)
    : result PIDController :=
  match last_timestamp self with
  | None => Ok (set_last_timestamp (Some timestamp) self)
  | Some last =>
      let dtime := timestamp - last in
      let self := set_last_timestamp (Some timestamp) self in
      delta_update self opt_value dtime
  end.

End Controller.

(** *** A software [exp] and [log]

    The controller is parametric in the C library's [exp] and [log].  To
    run it, the two functions below evaluate the usual series in binary64;
    they agree with the C library to within a few units in the last place on
    the controller's range (|x| <= 10 for [exp]) and are exact at [exp 0]
    and [log 1]. *)

Fixpoint exp_horner (n : nat) (k x acc : float) : float :=
  match n with
  | O => acc
  | S m => exp_horner m (k - 1) x (1 + x / k * acc)
  end.

Definition soft_exp (x : float) : result float :=
  if 709.782712893384 <? x then Raise OverflowError
  else if x <? 0 then Ok (1 / exp_horner 60 60 (- x) 1)
  else Ok (exp_horner 60 60 x 1).

(** [atanh_horner n k t2 acc] sums [1 + t2/3 + t2^2/5 + ...] from the
    innermost term outwards; [k] is the odd denominator of the current
    term. *)
Fixpoint atanh_horner (n : nat) (k t2 acc : float) : float :=
  match n with
  | O => acc
  | S m => atanh_horner m (k - 2) t2 (1 / (k - 2) + t2 * acc)
  end.

Definition float_of_Z (z : Z) : float :=
  if (z <? 0)%Z then - of_uint63 (Uint63.of_Z (- z)) else of_uint63 (Uint63.of_Z z).

Definition soft_log (x : float) : result float :=
  if x <=? 0 then Raise ValueError
  else
    let '(m, e) := frshiftexp x in
    let m2 := 2 * m in
    let k := (Uint63.to_Z e - FloatOps.shift - 1)%Z in
    let t := (m2 - 1) / (m2 + 1) in
    let series := atanh_horner 25 51 (t * t) (1 / 51) in
    Ok (float_of_Z k * 0x1.62e42fefa39efp-1 + 2 * t * series).

End tune_temp.

(** ** Retrying calls: what the outside world sees

    Both RPC layers interleave [sleep] with requests.  A run is observed as
    the list of these events, in order. *)

Module Rpc.

Inductive event : Type :=
| Sleep (delay : Z)
| Request (attempt : nat).

(** [k] rounds of sleeping [delay] and then sending a request, the
    attempts being numbered from [first]. *)
Fixpoint rounds (delay : Z) (first k : nat) : list event :=
  match k with
  | O => []
  | S k' => Sleep delay :: Request first :: rounds delay (S first) k'
  end.

(** The seconds slept and the requests sent in a run. *)
Fixpoint slept (trace : list event) : Z :=
  match trace with
  | [] => 0
  | Sleep delay :: rest => delay + slept rest
  | Request _ :: rest => slept rest
  end.

Fixpoint requests (trace : list event) : nat :=
  match trace with
  | [] => O
  | Sleep _ :: rest => requests rest
  | Request _ :: rest => S (requests rest)
  end.

End Rpc.

(** ** utils/BoincClientConnection.py *)

Module BoincClientConnection.
Import Py Rpc.

(** The request element [run_rpc_command] builds: a tag and up to two
    sub-elements with optional text. *)
Record Element : Type := mkElement {
  tag : string;
  subelements : list (string * option string)
}.

Definition build_request (command : string) (arg1 arg1_val arg2 arg2_val : option string)
    : Element :=
  let req := mkElement command [] in
  let req :=
    match arg1 with
    | Some a => mkElement (tag req) (subelements req ++ [(a, arg1_val)])%list
    | None => req
    end in
  match arg2 with
  | Some b => mkElement (tag req) (subelements req ++ [(b, arg2_val)])%list
  | None => req
  end.

(** The BOINC client as [run_rpc_command] uses it:
    [parse_generic(await rpc_client._request(req))] for the request sent at
    a given attempt, which may raise. *)
Definition RPCClient : Type := Element -> nat -> result pyval.

Definition max_retries : Z := 3.
Definition retry_wait : Z := 5.

(** The [while] loop of [run_rpc_command].  [trace] lists the events so
    far, latest last.  The recursion is on [remaining], the number of
    iterations the counter still allows ([max_retries - current_retries],
    when positive): with none left the loop test fails and the function
    falls off its end, returning [None].  The result is the value returned
    and the events observed. *)
Fixpoint run_rpc_command_loop (remaining : nat) (rpc_client : RPCClient)
    (command : string) (arg1 arg1_val arg2 arg2_val : option string)
    (current_retries : Z) (trace : list event) : pyval * list event :=
  match remaining with
  | O => (PNone, trace)
  | S remaining' =>
      if current_retries <? max_retries then
        let current_retries := current_retries + 1 in
        let trace := (trace ++ [Sleep retry_wait])%list in
        let req := build_request command arg1 arg1_val arg2 arg2_val in
        let attempt := Z.to_nat (current_retries - 1) in
        let trace := (trace ++ [Request attempt])%list in
        match rpc_client req attempt with
        | Ok parsed =>
            if str_is_empty parsed
            then run_rpc_command_loop remaining' rpc_client command
                   arg1 arg1_val arg2 arg2_val current_retries trace
            else (parsed, trace)
        | Raise _ =>
            run_rpc_command_loop remaining' rpc_client command
              arg1 arg1_val arg2 arg2_val current_retries trace
        end
      else (PNone, trace)
  end.

Definition run_rpc_command (rpc_client : RPCClient) (command : string)
    (arg1 arg1_val arg2 arg2_val : option string) : pyval * list event :=
  let current_retries := 0 in
  run_rpc_command_loop (Z.to_nat (max_retries - current_retries)) rpc_client
    command arg1 arg1_val arg2 arg2_val current_retries [].

(** The outcomes of a request after which the loop goes round again: an
    exception, or a reply whose [str] is empty. *)
Definition retried (outcome : result pyval) : bool :=
  match outcome with
  | Raise _ => true
  | Ok parsed => str_is_empty parsed
  end.

(** The loop of [get_task_list]: the tasks in state 2, in order. *)
Fixpoint get_task_list_loop (tasks : list pyval) (return_value : list pyval)
    : result (list pyval) :=
  match tasks with
  | [] => Ok return_value
  | task :: rest =>
      state <- getitem task "state" ;;
      if eq_num state 2
      then get_task_list_loop rest (return_value ++ [task])%list
      else get_task_list_loop rest return_value
  end.

(** [get_task_list]: the tasks returned, or the exception raised, and the
    events of the call. *)
Definition get_task_list (rpc_client : RPCClient) : result (list pyval) * list event :=
  let return_value := [] in
  let '(reply, trace) := run_rpc_command rpc_client "get_results" None None None None in
  if negb (truthy reply) then (Ok return_value, trace)
  else
    match reply with
    | PStr _ => (Ok return_value, trace)
    | _ => (tasks <- iterate reply ;; get_task_list_loop tasks return_value, trace)
    end.

(** [is_boinc_crunching]: every exception ends in [return False]. *)
Definition is_boinc_crunching (rpc_client : RPCClient) : bool * list event :=
  let '(reply, trace) := run_rpc_command rpc_client "get_cc_status" None None None None in
  let answer :=
    try_except
      (reason <- getitem reply "task_suspend_reason" ;;
       task_suspend_reason <- int_of reason ;;
       if negb (task_suspend_reason =? 0) then Ok false
       else if task_suspend_reason =? 0 then Ok true
       else Ok false)
      (fun _ => Ok false) in
  match answer with
  | Ok crunching => (crunching, trace)
  | Raise _ => (false, trace)
  end.

Section Transfers.

(** [float(s)] on a string, the number parser of the C library. *)
Variable float_of_str : string -> result Q.

(** [str(n)] of a number.  It depends on whether the number is an [int]
    or a [float], which [pyval] does not record. *)
Variable str_of_num : Q -> string.

(** [float(v)]. *)
Definition float_of (v : pyval) : result Q :=
  match v with
  | PNum q => Ok q
  | PBool b => Ok (if b then 1 else 0)%Q
  | PStr s => float_of_str s
  | _ => Raise TypeError
  end.

(** [str(v) == "0"]: the rendering of [None], of a [bool], of a list and
    of a dictionary is never ["0"]. *)
Definition str_is_0 (v : pyval) : bool :=
  match v with
  | PStr s => String.eqb s "0"
  | PNum q => String.eqb (str_of_num q) "0"
  | _ => false
  end.

(** [stuck_xfer]: an exception ends in the final [return False]. *)
Definition stuck_xfer (xfer : pyval) : bool :=
  let answer :=
    has_status <- has_key "status" xfer ;;
    if negb has_status then Ok false
    else
      has_persistent <- has_key "persistent_file_xfer" xfer ;;
      if has_persistent then
        persistent <- getitem xfer "persistent_file_xfer" ;;
        num_retries <- get_default persistent "num_retries" (PNum 0) ;;
        retries <- float_of num_retries ;;
        if Qgt_bool retries 0 then Ok true else Ok false
      else Ok false in
  match answer with
  | Ok stuck => stuck
  | Raise _ => false
  end.

(** The loop of [xfers_happening]. *)
Fixpoint xfers_happening_loop (xfers : list pyval) : result bool :=
  match xfers with
  | [] => Ok false
  | xfer :: rest =>
      if stuck_xfer xfer then xfers_happening_loop rest
      else
        status <- getitem xfer "status" ;;
        if str_is_0 status then Ok true else xfers_happening_loop rest
  end.

Definition xfers_happening (xfer_list : pyval) : bool :=
  match xfer_list with
  | PStr _ => false
  | _ =>
      match (xfers <- iterate xfer_list ;; xfers_happening_loop xfers) with
      | Ok happening => happening
      | Raise _ => false
      end
  end.

(** [re.sub(r"\s*", "", s)]: [s] without its whitespace. *)
Fixpoint remove_whitespace (s : string) : string :=
  match s with
  | EmptyString => EmptyString
  | String c r => if is_space c then remove_whitespace r else String c (remove_whitespace r)
  end.

Definition max_loops : Z := 30.
Definition loop_wait_in_seconds : Z := 30.

(** The [while] loop of [wait_till_no_xfers].  The client may answer
    differently from one poll to the next: [rpc_client poll] is the client
    at that poll.  The recursion is on the number of iterations the counter
    still allows.  The function returns [None]; what is observed is the
    list of events. *)
Fixpoint wait_till_no_xfers_loop (remaining : nat) (rpc_client : nat -> RPCClient)
    (current_loops : Z) (trace : list event) : list event :=
  match remaining with
  | O => trace
  | S remaining' =>
      if current_loops <? max_loops then
        let current_loops := current_loops + 1 in
        let poll := Z.to_nat (current_loops - 1) in
        let '(allow_response, events) :=
          run_rpc_command (rpc_client poll) "get_file_transfers" None None None None in
        let trace := (trace ++ events)%list in
        if negb (truthy allow_response)
        then wait_till_no_xfers_loop remaining' rpc_client current_loops
               (trace ++ [Sleep loop_wait_in_seconds])%list
        else if match allow_response with
                | PStr s => String.eqb (remove_whitespace s) ""
                | _ => false
                end
        then trace
        else if xfers_happening allow_response
        then wait_till_no_xfers_loop remaining' rpc_client current_loops
               (trace ++ [Sleep loop_wait_in_seconds])%list
        else trace
      else trace
  end.

Definition wait_till_no_xfers (rpc_client : nat -> RPCClient) : list event :=
  let current_loops := 0 in
  wait_till_no_xfers_loop (Z.to_nat (max_loops - current_loops)) rpc_client current_loops [].

End Transfers.

(** One line of the client's log. *)
Record Message : Type := mkMessage {
  time : datetime;
  body : string;
  project : string
}.

Definition no_new_tasks_phrase : string :=
  "NOT REQUESTING TASKS: " ++ dquote ++ "NO NEW TASKS" ++ dquote ++ " REQUESTED VIA MANAGER".

Definition cpu_full_phrase (uppered_message_body : string) : bool :=
  contains "CPU: JOB CACHE FULL" uppered_message_body
  || contains "NOT REQUESTING TASKS: DON'T NEED (JOB CACHE FULL)" uppered_message_body.

Section Classifier.

(** [str(message)], the rendering of the whole record as the reply parser's
    message type prints it. *)
Variable str_message : Message -> string.

(** [datetime.datetime.now()]: one classification runs within one reading
    of the clock. *)
Variable now : datetime.

Definition ignore_message_from_check_log_entries (message : Message) : bool :=
  let ignore_phrases :=
    [ "WORK FETCH RESUMED BY USER";
      "UPDATE REQUESTED BY USER";
      "SENDING SCHEDULER REQUEST";
      "SCHEDULER REQUEST COMPLETED";
      "PROJECT REQUESTED DELAY";
      "WORK FETCH SUSPENDED BY USER";
      "STARTED DOWNLOAD OF";
      "FINISHED DOWNLOAD OF";
      "STARTING TASK";
      "REQUESTING NEW TASKSLAST REQUEST TOO RECENTMASTER FILE DOWNLOAD SUCCEEDED";
      "NO TASKS SENT";
      "REQUESTING NEW TASKS FOR";
      "NO TASKS ARE AVAILABLE FOR";
      "COMPUTATION FOR TASK";
      "STARTED UPLOAD OF";
      "FINISHED UPLOAD OF";
      "THIS COMPUTER HAS REACHED A LIMIT ON TASKS IN PROGRESS";
      "UPGRADE TO THE LATEST DRIVER TO PROCESS TASKS USING YOUR COMPUTER'S GPU";
      "PROJECT HAS NO TASKS AVAILABLE" ] in
  let uppered_message := upper (str_message message) in
  if any_in ignore_phrases uppered_message then true
  else if contains "UP TO" uppered_message
          && contains "NEEDS" uppered_message
          && contains "IS AVAILABLE FOR USE" uppered_message
          && contains "BUT ONLY" uppered_message then true
  else if contains "REPORTING" uppered_message
          && contains "COMPLETED TASKS" uppered_message then true
  else false.

(** The body of the [for] loop of [cache_full]: the flags after one more
    message.  A [continue] leaves them as they are. *)
Definition cache_full_step (uppered_project : string) (flags : bool * bool)
    (message : Message) : bool * bool :=
  let '(cpu_full, gpu_full) := flags in
  if negb (contains uppered_project (upper (str_message message))) then flags
  else
    let difference := datetime_sub now (time message) in
    if seconds difference >? 60 * 5 then flags
    else
      let uppered_message_body := upper (body message) in
      if contains no_new_tasks_phrase uppered_message_body then flags
      else if String.eqb uppered_project (upper (project message)) then
        let cpu_full := if cpu_full_phrase uppered_message_body then true else cpu_full in
        if contains (upper "NOT REQUESTING TASKS: DON'T NEED") uppered_message_body then
          let gpu_full :=
            if negb (contains "GPU" (upper (body message))) then true else gpu_full in
          let cpu_full := if cpu_full_phrase uppered_message_body then true else cpu_full in
          let gpu_full :=
            if contains "GPU: JOB CACHE FULL" uppered_message_body then true
            else if contains "GPUS NOT USABLE" uppered_message_body then true
            else gpu_full in
          (cpu_full, gpu_full)
        else if ignore_message_from_check_log_entries message then (cpu_full, gpu_full)
        else (cpu_full, gpu_full)
      else flags.

Definition cache_full (project_name : string) (messages : list Message) : bool :=
  let cpu_full := false in
  let gpu_full := false in
  let uppered_project := upper project_name in
  let '(cpu_full, gpu_full) :=
    fold_left (cache_full_step uppered_project) messages (cpu_full, gpu_full) in
  if cpu_full && gpu_full then true else false.

Definition backoff_ignore_message (message : Message) (ignore_phrases : list string) : bool :=
  let uppered := upper (body message) in
  if any_in ignore_phrases uppered then true
  else if contains "GOT" uppered && contains "NEW TASKS" uppered then true
  else if contains "REPORTING" uppered && contains "COMPLETED TASKS" uppered then true
  else if contains "COMPUTATION FOR TASK" uppered && contains "FINISHED" uppered then true
  else false.

Definition positive_phrases : list string :=
  [ "PROJECT HAS NO TASKS AVAILABLE";
    "SCHEDULER REQUEST FAILED";
    "NO TASKS SENT";
    "LAST REQUEST TOO RECENT";
    "AN NVIDIA GPU IS REQUIRED TO RUN TASKS FOR THIS PROJECT" ].

Definition negative_phrases : list string :=
  [ "NOT REQUESTING TASKS: DON'T NEED";
    "STARTED DOWNLOAD";
    "FINISHED DOWNLOAD OF" ].

Definition ignore_phrases : list string :=
  [ "WORK FETCH RESUMED BY USER";
    "UPDATE REQUESTED BY USER";
    "WORK FETCH SUSPENDED BY USER";
    "STARTING TASK";
    "REQUESTING NEW TASKS";
    "SENDING SCHEDULER REQUEST";
    "SCHEDULER REQUEST COMPLETED";
    "STARTED UPLOAD";
    "FINISHED UPLOAD";
    "MASTER FILE DOWNLOAD SUCCEEDED";
    "FETCHING SCHEDULER LIST";
    "UPGRADE TO THE LATEST DRIVER TO PROCESS TASKS USING YOUR COMPUTER'S GPU";
    "NOT STARTED AND DEADLINE HAS PASSED";
    "PROJECT REQUESTED DELAY OF" ].

(** The [for] loop of [project_backoff], which returns from inside. *)
Fixpoint project_backoff_loop (uppered_project : string) (messages : list Message) : bool :=
  match messages with
  | [] => false
  | message :: rest =>
      let uppered_body := upper (body message) in
      let uppered_message := upper (str_message message) in
      if negb (contains uppered_project uppered_message)
      then project_backoff_loop uppered_project rest
      else
        let difference := datetime_sub now (time message) in
        if seconds difference >? 60 * 5 then project_backoff_loop uppered_project rest
        else if backoff_ignore_message message ignore_phrases
        then project_backoff_loop uppered_project rest
        else if any_in positive_phrases uppered_body then true
        else if any_in negative_phrases uppered_body then false
        else if contains "NEEDS" uppered_body
                && contains "BUT ONLY" uppered_body
                && contains "IS AVAILABLE FOR USE" uppered_body then true
        else project_backoff_loop uppered_project rest
  end.

Definition project_backoff (project_name : string) (messages : list Message) : bool :=
  let uppered_project := upper project_name in
  project_backoff_loop uppered_project messages.

End Classifier.

(** *** Messages as dictionaries

    The tests hand the classifiers plain dictionaries with the keys [time],
    [body] and [project]; [str] of such a dictionary is Python's [repr] of
    it.  (For a [str] made of printable ASCII.) *)

Definition Z_to_string (z : Z) : string :=
  DecimalString.NilZero.string_of_int (Z.to_int z).

(** [repr(s)]: quoted with ['], or with the double quote when [s] holds a
    ['] and no double quote; the backslash and the quote in use are
    escaped. *)
Fixpoint escape (quote : ascii) (s : string) : string :=
  match s with
  | EmptyString => EmptyString
  | String c r =>
      if Ascii.eqb c "\"%char then "\\" ++ escape quote r
      else if Ascii.eqb c quote then String "\"%char (String c (escape quote r))
      else String c (escape quote r)
  end.

Definition repr_str (s : string) : string :=
  if contains "'" s && negb (contains dquote s)
  then dquote ++ escape (ascii_of_nat 34) s ++ dquote
  else "'" ++ escape "'"%char s ++ "'".

(** [repr(d)] for a datetime: trailing zero seconds and microseconds are
    not printed. *)
Definition repr_datetime (d : datetime) : string :=
  "datetime.datetime(" ++ Z_to_string (year d) ++ ", " ++ Z_to_string (month d)
  ++ ", " ++ Z_to_string (day d) ++ ", " ++ Z_to_string (hour d)
  ++ ", " ++ Z_to_string (minute d)
  ++ (if microsecond d =? 0
      then (if second d =? 0 then "" else ", " ++ Z_to_string (second d))
      else ", " ++ Z_to_string (second d) ++ ", " ++ Z_to_string (microsecond d))
  ++ ")".

Definition str_dict (message : Message) : string :=
  "{'time': " ++ repr_datetime (time message)
  ++ ", 'body': " ++ repr_str (body message)
  ++ ", 'project': " ++ repr_str (project message) ++ "}".

(** *** The vocabulary of the specification *)

(** A message is older than five minutes at [now]. *)
Definition older_than_5_minutes (now : datetime) (message : Message) : bool :=
  5 * 60 * 1000000 <? to_microseconds now - to_microseconds (time message).

(** The messages of a list that are not older than five minutes. *)
Definition recent (now : datetime) (messages : list Message) : list Message :=
  List.filter (fun message => negb (older_than_5_minutes now message)) messages.

(** A message is tagged with the project under evaluation. *)
Definition tagged (project_name : string) (message : Message) : bool :=
  String.eqb (upper project_name) (upper (project message)).

(** The test the classifiers make on the age of a message: the [seconds]
    field of the difference is at most 300. *)
Definition passes_age_test (now : datetime) (message : Message) : bool :=
  negb (seconds (datetime_sub now (time message)) >? 60 * 5).

(** A message carries a CPU-full signal. *)
Definition cpu_signal (message : Message) : bool :=
  cpu_full_phrase (upper (body message)).

(** A message carries a GPU-full signal: the host needs no work and the
    message names no GPU, or says the GPU cache is full or the GPUs
    unusable. *)
Definition gpu_signal (message : Message) : bool :=
  contains "NOT REQUESTING TASKS: DON'T NEED" (upper (body message))
  && (negb (contains "GPU" (upper (body message)))
      || contains "GPU: JOB CACHE FULL" (upper (body message))
      || contains "GPUS NOT USABLE" (upper (body message))).

End BoincClientConnection.

(** ** utils/GridcoinClientConnection.py *)

Module GridcoinClientConnection.
Import Py Rpc utils.

(** The attributes of a [GridcoinClientConnection] object. *)
Record Connection : Type := mkConnection {
  configfile : option string;
  ipaddress : string;
  rpc_port : string;
  rpcuser : option string;
  rpcpassword : option string;
  retries : Z;
  retry_delay : Z
}.

(** The wallet as [run_command] sees it: what
    [requests.post(...).json()] gives for a command and its arguments at a
    given attempt, which may raise. *)
Definition Wallet : Type := string -> list pyval -> nat -> result pyval.

(** The [while] loop of [run_command]; the recursion is on the number of
    iterations the counter still allows, as in [run_rpc_command_loop].
    [PNone] is the final [return None]. *)
Fixpoint run_command_loop (remaining : nat) (self : Connection) (wallet : Wallet)
    (command : string) (arguments : list pyval)
    (current_retries : Z) (trace : list event) : pyval * list event :=
  match remaining with
  | O => (PNone, trace)
  | S remaining' =>
      if current_retries <? retries self then
        let trace := (trace ++ [Sleep (retry_delay self)])%list in
        let current_retries := current_retries + 1 in
        let attempt := Z.to_nat (current_retries - 1) in
        let trace := (trace ++ [Request attempt])%list in
        match wallet command arguments attempt with
        | Raise _ =>
            run_command_loop remaining' self wallet command arguments current_retries trace
        | Ok return_response => (return_response, trace)
        end
      else (PNone, trace)
  end.

Definition run_command (self : Connection) (wallet : Wallet)
    (command : string) (arguments : option (list pyval)) : pyval * list event :=
  let arguments :=
    match arguments with
    | None => []
    | Some a => a
    end in
  let current_retries := 0 in
  run_command_loop (Z.to_nat (retries self - current_retries)) self wallet
    command arguments current_retries [].



(** *** [get_gridcoin_config_parameters]

    The directory is given by what the function reads of it: the parsed
    content of [gridcoinsettings.json] when the file is there ([json.load]
    may raise), and the lines of [gridcoinresearch.conf], each with its
    line end, when that file is there.  A value of the result is a string
    or, for [sidestake], a list of strings.  The table [dupes] only feeds
    a warning and is left out. *)

Definition newline : string := String (ascii_of_nat 10) EmptyString.

(** The [try] block that splits a line into key and value. *)
Definition parse_conf_line (line : string) : result (string * string) :=
  key <- list_index (split_on "=" line) 0 ;;
  field <- list_index (split_on "=" line) 1 ;;
  let value := replace newline "" field in
  value <- (if contains "#" value then list_index (split_on "#" value) 0 else Ok value) ;;
  let value := strip value in
  Ok (key, value).

(** The loop over the lines of [gridcoinresearch.conf]. *)
Fixpoint conf_loop (lines : list string) (return_dict : list (string * pyval))
    : result (list (string * pyval)) :=
  match lines with
  | [] => Ok return_dict
  | line :: rest =>
      if startswith "#" line then conf_loop rest return_dict
      else if String.eqb (strip line) "" then conf_loop rest return_dict
      else
        match parse_conf_line line with
        | Raise _ => conf_loop rest return_dict
        | Ok (key, value) =>
            if String.eqb key "addnode" then conf_loop rest return_dict
            else if String.eqb key "sidestake" then
              let return_dict :=
                match dict_get return_dict "sidestake" with
                | None => dict_set return_dict "sidestake" (PList [])
                | Some _ => return_dict
                end in
              match dict_get return_dict "sidestake" with
              | Some (PList sidestakes) =>
                  conf_loop rest
                    (dict_set return_dict "sidestake" (PList (sidestakes ++ [PStr value])))
              | Some _ => Raise AttributeError
              | None => Raise KeyError
              end
            else
              match dict_get return_dict key with
              | Some _ => conf_loop rest return_dict
              | None => conf_loop rest (dict_set return_dict key (PStr value))
              end
        end
  end.

(** [if old in config_dict: return_dict[new] = config_dict[old]]. *)
Definition copy_setting (config_dict : pyval) (old new : string)
    (return_dict : list (string * pyval)) : result (list (string * pyval)) :=
  present <- has_key old config_dict ;;
  if present then
    value <- getitem config_dict old ;;
    Ok (dict_set return_dict new value)
  else Ok return_dict.

Definition get_gridcoin_config_parameters (settings_json : option (result pyval))
    (conf : option (list string)) : result (list (string * pyval)) :=
  let return_dict := [] in
  return_dict <-
    match settings_json with
    | Some loaded =>
        config_dict <- loaded ;;
        return_dict <- copy_setting config_dict "rpcuser" "rpc_user" return_dict ;;
        return_dict <- copy_setting config_dict "rpcpass" "rpc_pass" return_dict ;;
        copy_setting config_dict "rpcport" "rpc_port" return_dict
    | None => Ok return_dict
    end ;;
  match conf with
  | Some lines => conf_loop lines return_dict
  | None => Ok return_dict
  end.

(** *** [check_sidestake]

    [float(...)] and [>=] on floats, with [inf] and [nan], are kept
    abstract: [number] is the type of floats and [minval] is one of
    them. *)

Section Sidestakes.

Variable number : Type.
Variable py_float : string -> result number.
Variable ge : number -> number -> bool.

(** The loop over [config_params["sidestake"]]. *)
Fixpoint check_sidestake_loop (sidestakes : list pyval) (address : string) (minval : number)
    : result bool :=
  match sidestakes with
  | [] => Ok false
  | PStr sidestake :: rest =>
      found_address <- list_index (split_on "," sidestake) 0 ;;
      field <- list_index (split_on "," sidestake) 1 ;;
      found_value <- py_float field ;;
      if String.eqb found_address address && ge found_value minval then Ok true
      else check_sidestake_loop rest address minval
  | _ :: rest => Raise AttributeError
  end.

Definition check_sidestake (config_params : pyval) (address : string) (minval : number)
    : result bool :=
  enabled <- has_key "enablesidestaking" config_params ;;
  if negb enabled then Ok false
  else
    listed <- has_key "sidestake" config_params ;;
    if negb listed then Ok false
    else
      flag <- getitem config_params "enablesidestaking" ;;
      if negb (eq_str flag "1") then Ok false
      else
        sidestake <- getitem config_params "sidestake" ;;
        sidestakes <- iterate sidestake ;;
        check_sidestake_loop sidestakes address minval.

End Sidestakes.

(** *** [ProjectMagRatio]

    The class attribute [PROJECT_MAG_RATIOS_CACHE] is the state: each class
    method takes the cache and returns it with its result.  A table maps
    canonical project URLs to ratios. *)

(** The inner loop of [get_project_mag_ratios_from_response] over the
    projects of superblock [i]: [projects] maps a project name to the RAC
    values collected so far. *)
Fixpoint collect_racs (i : nat) (entries : list (string * pyval))
    (projects : list (string * list pyval)) : result (list (string * list pyval)) :=
  match entries with
  | [] => Ok projects
  | (project_name, project_stats) :: rest =>
      match dict_get projects project_name with
      | None =>
          if Nat.eqb i 0 then
            rac <- getitem project_stats "rac" ;;
            collect_racs i rest (dict_set projects project_name [rac])
          else collect_racs i rest projects
      | Some racs =>
          rac <- getitem project_stats "rac" ;;
          collect_racs i rest (dict_set projects project_name (racs ++ [rac])%list)
      end
  end.

(** The loop [for i in range(0, lookback_period)], with [n] iterations
    to go. *)
Fixpoint superblock_loop (n i : nat) (loaded_json : pyval) (mag_per_project : Q)
    (projects : list (string * list pyval)) : result (Q * list (string * list pyval)) :=
  match n with
  | O => Ok (mag_per_project, projects)
  | S n' =>
      superblock <- getindex loaded_json i ;;
      mag_per_project <-
        (if Nat.eqb i 0 then
           total_magnitude <- getitem superblock "total_magnitude" ;;
           total_projects <- getitem superblock "total_projects" ;;
           tm <- as_num total_magnitude ;;
           tp <- as_num total_projects ;;
           truediv tm tp
         else Ok mag_per_project) ;;
      contract_contents <- getitem superblock "contract_contents" ;;
      block_projects <- getitem contract_contents "projects" ;;
      entries <- items block_projects ;;
      projects <- collect_racs i entries projects ;;
      superblock_loop n' (S i) loaded_json mag_per_project projects
  end.

(** [sum(project_racs)]: the items are added to the running total from
    left to right, starting from 0. *)
Fixpoint py_sum_from (total : Q) (l : list pyval) : result Q :=
  match l with
  | [] => Ok total
  | v :: r =>
      q <- as_num v ;;
      py_sum_from (total + q)%Q r
  end.

Definition py_sum (l : list pyval) : result Q := py_sum_from 0%Q l.

(** The loop over [projects.items()] that fills [return_dict]. *)
Fixpoint ratio_loop (projects : list (string * list pyval)) (project_resolver_dict : pyval)
    (mag_per_project : Q) (return_dict : gmap string Q) : result (gmap string Q) :=
  match projects with
  | [] => Ok return_dict
  | (project_name, project_racs) :: rest =>
      total <- py_sum project_racs ;;
      average_rac <- truediv total (inject_Z (Z.of_nat (List.length project_racs))) ;;
      project_url <- grc_project_name_to_url project_name project_resolver_dict ;;
      match project_url with
      | PNone => ratio_loop rest project_resolver_dict mag_per_project return_dict
      | PStr url =>
          let canonical_url := resolve_url_database url in
          ratio <- truediv mag_per_project average_rac ;;
          ratio_loop rest project_resolver_dict mag_per_project
            (<[canonical_url := ratio]> return_dict)
      | _ => Raise AttributeError
      end
  end.

(** [get_project_mag_ratios_from_response] up to its last assignment:
    the table it computes, or the exception it raises. *)
Definition ratios_from_response (response project_resolver_dict : pyval)
    (lookback_period : Z) : result (gmap string Q) :=
  let loaded_json := response in
  let projects := [] in
  let return_dict := ∅ in
  let mag_per_project := 0%Q in
  r <- superblock_loop (Z.to_nat lookback_period) 0 loaded_json mag_per_project projects ;;
  let '(mag_per_project, projects) := r in
  ratio_loop projects project_resolver_dict mag_per_project return_dict.

(** [get_project_mag_ratios_from_response]: the cache is assigned once, as
    the last statement before [return]. *)
Definition get_project_mag_ratios_from_response (cache : gmap string Q)
    (response project_resolver_dict : pyval) (lookback_period : Z)
    : result (gmap string Q) * gmap string Q :=
  match ratios_from_response response project_resolver_dict lookback_period with
  | Ok return_dict => (Ok return_dict, return_dict)
  | Raise e => (Raise e, cache)
  end.

Section MagRatios.

Variable wallet : Wallet.

(** The [try] block of [get_project_mag_ratios] up to and including the
    call of [get_project_mag_ratios_from_response]: the live query.
    [grc_client] is [None] when testing. *)
Definition live_query (cache : gmap string Q) (grc_client : option Connection)
    (lookback_period : Z) (response grc_projects : pyval)
    : result (gmap string Q) * gmap string Q :=
  let fetched :=
    response <-
      (if negb (truthy response) then
         match grc_client with
         | Some client =>
             let command_result :=
               fst (run_command client wallet "superblocks"
                      (Some [PNum (inject_Z lookback_period); PBool true])) in
             Ok command_result
         | None => Raise AttributeError
         end
       else Ok response) ;;
    if negb (truthy response) then Raise ConnectionError
    else
      grc_projects <-
        (if negb (truthy grc_projects) then
           match grc_client with
           | Some client =>
               getitem (fst (run_command client wallet "listprojects" None)) "result"
           | None => Raise AttributeError
           end
         else Ok grc_projects) ;;
      if negb (truthy grc_projects) then Raise ConnectionError
      else
        result_ <- getitem response "result" ;;
        Ok (result_, grc_projects) in
  match fetched with
  | Ok (result_, grc_projects) =>
      get_project_mag_ratios_from_response cache result_ grc_projects lookback_period
  | Raise e => (Raise e, cache)
  end.

(** The [except Exception] branch: the cache when it holds something,
    [None] otherwise. *)
Definition cached_or_none (cache : gmap string Q) : option (gmap string Q) :=
  if 0 <? Z.of_nat (size cache) then Some cache else None.

(** [get_project_mag_ratios]: the value returned ([None] for Python's
    [None]) and the cache afterwards. *)
Definition get_project_mag_ratios (cache : gmap string Q) (grc_client : option Connection)
    (lookback_period : Z) (dump_rac_mag_ratios : option (gmap string Q -> result unit))
    (response grc_projects : pyval)
    : result (option (gmap string Q)) * gmap string Q :=
  match live_query cache grc_client lookback_period response grc_projects with
  | (Ok return_dict, cache) =>
      let dumped :=
        match dump_rac_mag_ratios with
        | Some dump => dump return_dict
        | None => Ok tt
        end in
      match dumped with
      | Ok _ => (Ok (Some return_dict), cache)
      | Raise _ => (Ok (cached_or_none cache), cache)
      end
  | (Raise _, cache) => (Ok (cached_or_none cache), cache)
  end.

End MagRatios.

End GridcoinClientConnection.

(** ** utils/StatsHelper.py *)

Module StatsHelper.
Import Py utils.

(** One day of [WU_HISTORY]. *)
Record WuDay : Type := mkWuDay {
  TOTALWUS : Z;
  total_wall_time : Q;
  total_cpu_time : Q
}.

(** One day of [CREDIT_HISTORY]. *)
Record CreditDay : Type := mkCreditDay {
  CREDITAWARDED : Q
}.

(** The entry of one project in the combined statistics.  The two
    histories are keyed by date ([MM-DD-YYYY]) in insertion order;
    [COMPILED_STATS] maps field names to numbers. *)
Record ProjectStats : Type := mkProjectStats {
  CREDIT_HISTORY : list (string * CreditDay);
  WU_HISTORY : list (string * WuDay);
  COMPILED_STATS : gmap string Q
}.

(** [d[key]] on [COMPILED_STATS]. *)
Definition compiled_get (d : gmap string Q) (key : string) : result Q :=
  match d !! key with
  | Some v => Ok v
  | None => Raise KeyError
  end.

(** [combinedstats[project_url]]. *)
Definition stats_get (combinedstats : list (string * ProjectStats)) (project_url : string)
    : result ProjectStats :=
  match dict_get combinedstats project_url with
  | Some s => Ok s
  | None => Raise KeyError
  end.

Definition set_compiled (compiled : gmap string Q) (s : ProjectStats) : ProjectStats :=
  mkProjectStats (CREDIT_HISTORY s) (WU_HISTORY s) compiled.

(** [project_stats["COMPILED_STATS"]["AVGMAGPERHOUR"]]. *)
Definition avg_mag_per_hour (project_stats : ProjectStats) : result Q :=
  compiled_get (COMPILED_STATS project_stats) "AVGMAGPERHOUR".

(** The number of tasks in a project's history. *)
Definition total_tasks (project_stats : ProjectStats) : Z :=
  fold_right (fun day total => TOTALWUS (snd day) + total) 0 (WU_HISTORY project_stats).

(** [int(x)] on a number: truncation towards zero. *)
Definition int_of_num (x : Q) : Z := Z.quot (Qnum x) (Zpos (Qden x)).

Section Averages.

(** [datetime.datetime.now()]. *)
Variable now : datetime.

Fixpoint sum_credit (history : list (string * CreditDay)) (total_credit : Q) : Q :=
  match history with
  | [] => total_credit
  | (_, credit_history) :: rest => sum_credit rest (total_credit + CREDITAWARDED credit_history)%Q
  end.

(** The running totals of the loop over [WU_HISTORY]. *)
Record Totals : Type := mkTotals {
  total_wus : Z;
  total_wall : Q;
  x_day_wall : Q;
  total_cpu : Q
}.

Fixpoint sum_wus (rolling_weight_window : Z) (history : list (string * WuDay))
    (t : Totals) : result Totals :=
  match history with
  | [] => Ok t
  | (date, wu_history) :: rest =>
      let day_wall_time := total_wall_time wu_history in
      let day_cpu_time := total_cpu_time wu_history in
      let total_wus := total_wus t + TOTALWUS wu_history in
      let total_wall_time := (total_wall t + day_wall_time)%Q in
      let split_date := split_on "-"%char date in
      y <- (s <- list_index split_date 2 ;; py_int s) ;;
      m <- (s <- list_index split_date 0 ;; py_int s) ;;
      d <- (s <- list_index split_date 1 ;; py_int s) ;;
      datetimed_date <- datetime_of_date y m d ;;
      let time_ago := datetime_sub now datetimed_date in
      let days_ago := days time_ago in
      let x_day_wall_time :=
        if days_ago <=? rolling_weight_window
        then (x_day_wall t + day_wall_time)%Q
        else x_day_wall t in
      let total_cpu_time := (total_cpu t + day_cpu_time)%Q in
      sum_wus rolling_weight_window rest
        (mkTotals total_wus total_wall_time x_day_wall_time total_cpu_time)
  end.

(** The body of the loop of [calculate_credit_averages] for one project:
    its compiled fields.  The divisions are exact: a positive wall time
    gives a positive number of hours, where in binary64 one far below a
    second can underflow to zero. *)
Definition project_averages (parent_dict : ProjectStats) (rolling_weight_window : Z)
    : result (gmap string Q) :=
  let total_credit := sum_credit (CREDIT_HISTORY parent_dict) 0%Q in
  t <- sum_wus rolling_weight_window (WU_HISTORY parent_dict) (mkTotals 0 0%Q 0%Q 0%Q) ;;
  let total_wus := total_wus t in
  r <- (if total_wus =? 0 then
          Ok (0%Q, 0%Q, 0%Q, 0%Q, total_wall t, total_cpu t, x_day_wall t)
        else
          let total_cpu_time := (total_cpu t / 60 / 60)%Q in
          let total_wall_time := (total_wall t / 60 / 60)%Q in
          let x_day_wall_time := (x_day_wall t / 60 / 60)%Q in
          avg_wall_time <- truediv total_wall_time (inject_Z total_wus) ;;
          avg_cpu_time <- truediv total_cpu_time (inject_Z total_wus) ;;
          avg_credit_per_task <- truediv total_credit (inject_Z total_wus) ;;
          credits_per_hour <- truediv total_credit total_wall_time ;;
          Ok (avg_wall_time, avg_cpu_time, avg_credit_per_task, credits_per_hour,
              total_wall_time, total_cpu_time, x_day_wall_time)) ;;
  let '(avg_wall_time, avg_cpu_time, avg_credit_per_task, credits_per_hour,
        total_wall_time, total_cpu_time, x_day_wall_time) := r in
  Ok (<["XDAYWALLTIME" := x_day_wall_time]>
     (<["AVGCREDITPERHOUR" := credits_per_hour]>
     (<["TOTALCPUTIME" := total_cpu_time]>
     (<["TOTALWALLTIME" := total_wall_time]>
     (<["TOTALTASKS" := inject_Z total_wus]>
     (<["AVGCREDITPERTASK" := avg_credit_per_task]>
     (<["AVGCPUTIME" := avg_cpu_time]>
     (<["AVGWALLTIME" := avg_wall_time]>
     (<["TOTALCREDIT" := total_credit]> ∅))))))))).

Fixpoint calculate_credit_averages_loop (my_stats : list (string * ProjectStats))
    (rolling_weight_window : Z) (return_stats : list (string * gmap string Q))
    : result (list (string * gmap string Q)) :=
  match my_stats with
  | [] => Ok return_stats
  | (project_url, parent_dict) :: rest =>
      stats <- project_averages parent_dict rolling_weight_window ;;
      calculate_credit_averages_loop rest rolling_weight_window
        (dict_set return_stats project_url stats)
  end.

Definition calculate_credit_averages (my_stats : list (string * ProjectStats))
    (rolling_weight_window : Z) : result (list (string * gmap string Q)) :=
  calculate_credit_averages_loop my_stats rolling_weight_window [].

End Averages.

(** The body of the loop of [add_mag_to_combined_stats] for one project:
    its updated entry, and whether it joins [unapproved_list]. *)
Definition add_mag_step (mag_ratios : gmap string Q)
    (approved_projects preferred_projects : list string)
    (project_url : string) (project_stats : ProjectStats) : ProjectStats * bool :=
  let found_mag_ratio := default 0%Q (mag_ratios !! project_url) in
  if Qeq_bool found_mag_ratio 0 then
    let unapproved :=
      if negb (in_strs project_url approved_projects)
      then (if negb (in_strs project_url preferred_projects) then true else false)
      else false in
    let compiled := <["AVGMAGPERHOUR" := 0%Q]> (COMPILED_STATS project_stats) in
    let compiled := <["MAGPERCREDIT" := 0%Q]> compiled in
    (set_compiled compiled project_stats, unapproved)
  else
    let avg_credit_per_hour :=
      match COMPILED_STATS project_stats !! "AVGCREDITPERHOUR" with
      | Some v => v
      | None => 0%Q
      end in
    let compiled :=
      <["AVGMAGPERHOUR" := (avg_credit_per_hour * found_mag_ratio)%Q]>
        (COMPILED_STATS project_stats) in
    let compiled := <["MAGPERCREDIT" := found_mag_ratio]> compiled in
    (set_compiled compiled project_stats, false).

Fixpoint add_mag_loop (mag_ratios : gmap string Q)
    (approved_projects preferred_projects : list string)
    (combined_stats : list (string * ProjectStats))
    : list (string * ProjectStats) * list string :=
  match combined_stats with
  | [] => ([], [])
  | (project_url, project_stats) :: rest =>
      let '(project_stats, unapproved) :=
        add_mag_step mag_ratios approved_projects preferred_projects
          project_url project_stats in
      let '(rest, unapproved_list) :=
        add_mag_loop mag_ratios approved_projects preferred_projects rest in
      ((project_url, project_stats) :: rest,
       if unapproved then project_url :: unapproved_list else unapproved_list)
  end.

(** Whether a project joins the unapproved list: it has no ratio, or a
    zero one, and is neither approved nor preferred. *)
Definition joins_unapproved (mag_ratios : gmap string Q)
    (approved_projects preferred_projects : list string) (project_url : string) : bool :=
  Qeq_bool (default 0%Q (mag_ratios !! project_url)) 0
  && negb (in_strs project_url approved_projects)
  && negb (in_strs project_url preferred_projects).

(** [add_mag_to_combined_stats]; [mag_ratios] is [None] when the lookup
    was unavailable. *)
Definition add_mag_to_combined_stats (combined_stats : list (string * ProjectStats))
    (mag_ratios : option (gmap string Q))
    (approved_projects preferred_projects : list string)
    : list (string * ProjectStats) * list string :=
  let mag_ratios :=
    match mag_ratios with
    | None => ∅
    | Some m => if bool_decide (m = ∅) then ∅ else m
    end in
  add_mag_loop mag_ratios approved_projects preferred_projects combined_stats.

(** [is_project_eligible]: a missing [TOTALTASKS] raises inside the [try]
    and the [except] branch answers [True]. *)
Definition is_project_eligible (project_url : string) (project_stats : ProjectStats)
    (ignored_projects : list string) : bool :=
  if in_strs project_url ignored_projects then false
  else
    match compiled_get (COMPILED_STATS project_stats) "TOTALTASKS" with
    | Ok total_tasks => if 10 <=? int_of_num total_tasks then true else false
    | Raise _ => true
    end.

Fixpoint get_first_non_ignored_project (project_list ignored_projects : list string)
    : option string :=
  match project_list with
  | [] => None
  | project :: rest =>
      if negb (in_strs project ignored_projects) then Some project
      else get_first_non_ignored_project rest ignored_projects
  end.

(** The first loop of [get_most_mag_efficient_projects]: [items] is what
    is left of [combinedstats.items()]. *)
Fixpoint find_highest (combinedstats items : list (string * ProjectStats))
    (ignored_projects : list string) (highest_project : string) : result string :=
  match items with
  | [] => Ok highest_project
  | (project_url, project_stats) :: rest =>
      if in_strs project_url ignored_projects
      then find_highest combinedstats rest ignored_projects highest_project
      else
        current_mag_per_hour <- compiled_get (COMPILED_STATS project_stats) "AVGMAGPERHOUR" ;;
        highest_stats <- stats_get combinedstats highest_project ;;
        highest_mag_per_hour <- compiled_get (COMPILED_STATS highest_stats) "AVGMAGPERHOUR" ;;
        if Qgt_bool current_mag_per_hour highest_mag_per_hour
           && is_project_eligible project_url project_stats ignored_projects
        then find_highest combinedstats rest ignored_projects project_url
        else find_highest combinedstats rest ignored_projects highest_project
  end.

(** The second loop: the projects appended after the highest one. *)
Fixpoint within_percentdiff (items : list (string * ProjectStats))
    (ignored_projects : list string) (highest_project : string)
    (minimum_for_inclusion : Q) : result (list string) :=
  match items with
  | [] => Ok []
  | (project_url, project_stats) :: rest =>
      current_avg_mag <- compiled_get (COMPILED_STATS project_stats) "AVGMAGPERHOUR" ;;
      if String.eqb project_url highest_project
      then within_percentdiff rest ignored_projects highest_project minimum_for_inclusion
      else if in_strs project_url ignored_projects
      then within_percentdiff rest ignored_projects highest_project minimum_for_inclusion
      else if Qle_bool minimum_for_inclusion current_avg_mag
              && is_project_eligible project_url project_stats ignored_projects
              && negb (Qeq_bool current_avg_mag 0)
      then
        more <- within_percentdiff rest ignored_projects highest_project minimum_for_inclusion ;;
        Ok (project_url :: more)
      else within_percentdiff rest ignored_projects highest_project minimum_for_inclusion
  end.

Definition get_most_mag_efficient_projects (combinedstats : list (string * ProjectStats))
    (ignored_projects : list string) (percentdiff : Z) : result (list string) :=
  let highest_project :=
    get_first_non_ignored_project (List.map fst combinedstats) ignored_projects in
  match highest_project with
  | None => Ok []
  | Some highest_project =>
      if String.eqb highest_project "" then Ok []
      else
        highest_project <-
          find_highest combinedstats combinedstats ignored_projects highest_project ;;
        highest_stats <- stats_get combinedstats highest_project ;;
        (* the test that guards the report of the highest project *)
        _ <- compiled_get (COMPILED_STATS highest_stats) "TOTALTASKS" ;;
        let return_list := [highest_project] in
        highest_avg_mag <- compiled_get (COMPILED_STATS highest_stats) "AVGMAGPERHOUR" ;;
        (* exact; the binary64 value is the same at the tolerances 0 and 100,
           and can differ by a rounding error at the others *)
        let minimum_for_inclusion :=
          (highest_avg_mag - highest_avg_mag * (inject_Z percentdiff / 100))%Q in
        more <- within_percentdiff combinedstats ignored_projects highest_project
                  minimum_for_inclusion ;;
        let return_list := (return_list ++ more)%list in
        if (List.length return_list =? 1)%nat then
          total_tasks <- compiled_get (COMPILED_STATS highest_stats) "TOTALTASKS" ;;
          if Qle_bool 10 total_tasks then Ok return_list else Ok []
        else Ok return_list
  end.

(** [project_url_from_stats_file] and
    [project_url_from_credit_history_file]: the project key guessed from
    the name of a job log or of a statistics file. *)
Definition project_url_from_stats_file (statsfilename : string) : string :=
  let statsfilename := replace "job_log_" "" statsfilename in
  let statsfilename := replace ".txt" "" statsfilename in
  let statsfilename := replace "_" "/" statsfilename in
  resolve_url_database statsfilename.

Definition project_url_from_credit_history_file (filename : string) : string :=
  let filename := replace "statistics_" "" filename in
  let filename := replace ".xml" "" filename in
  let filename := replace "_" "/" filename in
  resolve_url_database filename.

(** The first project of a collection, in iteration order, whose
    upper-cased URL holds [uppered]. *)
Fixpoint first_attached (uppered : string) (projects : list string) : option string :=
  match projects with
  | [] => None
  | known_attached_project :: rest =>
      if contains uppered (upper known_attached_project)
      then Some known_attached_project
      else first_attached uppered rest
  end.

(** The body of [_resolve_url_boinc_rpc]. *)
Definition _resolve_url_boinc_rpc_body (original_uppered : string)
    (known_attached_projects known_attached_projects_dev : list string) (dev_mode : bool)
    : option string :=
  let uppered := replace "HTTPS://WWW." "" original_uppered in
  let uppered := replace "HTTP://WWW." "" uppered in
  let uppered := replace "HTTPS://" "" uppered in
  let uppered := replace "HTTP://" "" uppered in
  let uppered := if startswith "WWW." uppered then replace "WWW." "" uppered else uppered in
  if dev_mode
  then first_attached uppered known_attached_projects_dev
  else first_attached uppered known_attached_projects.

(** [_resolve_url_boinc_rpc] is wrapped in [functools.cache]; the two
    collections reach it inside [EquivalentWrapper]s, which all compare
    equal and hash alike.  Its memo table is therefore keyed by the
    upper-cased URL and [dev_mode] alone, and a stored [None] is a hit like
    any other value. *)
Definition _resolve_url_boinc_rpc (memo : gmap (string * bool) (option string))
    (original_uppered : string)
    (known_attached_projects known_attached_projects_dev : list string) (dev_mode : bool)
    : option string * gmap (string * bool) (option string) :=
  match memo !! (original_uppered, dev_mode) with
  | Some found => (found, memo)
  | None =>
      let found :=
        _resolve_url_boinc_rpc_body original_uppered
          known_attached_projects known_attached_projects_dev dev_mode in
      (found, <[(original_uppered, dev_mode) := found]> memo)
  end.

(** [resolve_url_boinc_rpc]: the answer and the memo table afterwards. *)
Definition resolve_url_boinc_rpc (memo : gmap (string * bool) (option string))
    (url : string)
    (known_attached_projects known_attached_projects_dev known_boinc_projects : list string)
    (dev_mode : bool) : string * gmap (string * bool) (option string) :=
  let original_uppered := upper url in
  if contains "FOLDINGATHOME" original_uppered then (url, memo)
  else
    let '(known_attached_project, memo) :=
      _resolve_url_boinc_rpc memo original_uppered
        known_attached_projects known_attached_projects_dev dev_mode in
    match known_attached_project with
    | Some found => (found, memo)
    | None =>
        let uppered := replace "HTTPS://WWW." "" original_uppered in
        let uppered := replace "HTTP://WWW." "" uppered in
        let uppered := replace "HTTPS://" "" uppered in
        let uppered := replace "HTTP://" "" uppered in
        let uppered :=
          if startswith "WWW." uppered then replace "WWW." "" uppered else uppered in
        match first_attached uppered known_boinc_projects with
        | Some known_boinc_project => (known_boinc_project, memo)
        | None => (url, memo)
        end
    end.

(** The arguments of one call of [resolve_url_boinc_rpc]. *)
Record ResolveCall : Type := mkResolveCall {
  call_url : string;
  call_attached : list string;
  call_attached_dev : list string;
  call_known : list string;
  call_dev_mode : bool
}.

(** The memo table after a run of calls. *)
Definition resolve_url_boinc_rpc_calls (memo : gmap (string * bool) (option string))
    (calls : list ResolveCall) : gmap (string * bool) (option string) :=
  fold_left
    (fun memo call =>
       snd (resolve_url_boinc_rpc memo (call_url call) (call_attached call)
              (call_attached_dev call) (call_known call) (call_dev_mode call)))
    calls memo.

(** [sum(l)] on numbers: from 0, left to right. *)
Definition sum_numbers (l : list Q) : Q := fold_left Qplus l 0%Q.

(** The loop of [get_avg_mag_hr]. *)
Fixpoint get_avg_mag_hr_loop (combined_stats : list (string * ProjectStats))
    (found_mag found_time : list Q) : result (list Q * list Q) :=
  match combined_stats with
  | [] => Ok (found_mag, found_time)
  | (project_url, stats) :: rest =>
      total_hours <- compiled_get (COMPILED_STATS stats) "TOTALWALLTIME" ;;
      wall <- compiled_get (COMPILED_STATS stats) "TOTALWALLTIME" ;;
      mag <- compiled_get (COMPILED_STATS stats) "AVGMAGPERHOUR" ;;
      let total_mag := (wall * mag)%Q in
      get_avg_mag_hr_loop rest (found_mag ++ [total_mag])%list (found_time ++ [total_hours])%list
  end.

Definition get_avg_mag_hr (combined_stats : list (string * ProjectStats)) : result Q :=
  r <- get_avg_mag_hr_loop combined_stats [] [] ;;
  let '(found_mag, found_time) := r in
  let found_sum := sum_numbers found_time in
  let found_mag := sum_numbers found_mag in
  if Qeq_bool found_sum 0 || Qeq_bool found_mag 0 then Ok 0%Q
  else
    average <- truediv found_mag found_sum ;;
    Ok average.

(** The first loop of [get_highest_priority_project]: the two totals. *)
Fixpoint total_wall_times (combined_stats : list (string * ProjectStats))
    (total_xday_time total_time : Q) : result (Q * Q) :=
  match combined_stats with
  | [] => Ok (total_xday_time, total_time)
  | (found_key, projectstats) :: rest =>
      xday <- compiled_get (COMPILED_STATS projectstats) "XDAYWALLTIME" ;;
      let total_xday_time := (total_xday_time + xday)%Q in
      wall <- compiled_get (COMPILED_STATS projectstats) "TOTALWALLTIME" ;;
      let total_time := (total_time + wall)%Q in
      total_wall_times rest total_xday_time total_time
  end.

(** The second loop: one priority per attached project with a weight. *)
Fixpoint priority_loop (combined_stats : list (string * ProjectStats))
    (attached_projects : list string) (total_xday_time total_time : Q)
    (project_weights : list (string * Z)) (priority_dict : list (string * Q))
    : result (list (string * Q)) :=
  match project_weights with
  | [] => Ok priority_dict
  | (project, weight) :: rest =>
      if negb (in_list project attached_projects)
      then priority_loop combined_stats attached_projects total_xday_time total_time
             rest priority_dict
      else
        let combined_stats_extract := dict_get combined_stats project in
        existing_time <-
          match combined_stats_extract with
          | None => Ok 0%Q
          | Some extract =>
              if weight =? 1
              then compiled_get (COMPILED_STATS extract) "TOTALWALLTIME"
              else compiled_get (COMPILED_STATS extract) "XDAYWALLTIME"
          end ;;
        let target_time :=
          if weight =? 1
          then (existing_time - total_time * (inject_Z weight / 1000))%Q
          else (existing_time - total_xday_time * (inject_Z weight / 1000))%Q in
        priority_loop combined_stats attached_projects total_xday_time total_time rest
          (dict_set priority_dict project (py_round (target_time / 60 / 60) 2))
  end.

(** [sorted(priority_dict, key=priority_dict.get)]: the sort is stable, so
    its result is the one of inserting the entries from the last to the
    first, each before the first entry that is not below it. *)
Fixpoint insert_by_priority (entry : string * Q) (sorted : list (string * Q))
    : list (string * Q) :=
  match sorted with
  | [] => [entry]
  | other :: rest =>
      if Qle_bool (snd entry) (snd other) then entry :: sorted
      else other :: insert_by_priority entry rest
  end.

Definition sorted_by_priority (priority_dict : list (string * Q)) : list (string * Q) :=
  fold_right insert_by_priority [] priority_dict.

(** [get_highest_priority_project]: [attached_projects] is [None] by
    default. *)
Definition get_highest_priority_project (combined_stats : list (string * ProjectStats))
    (project_weights : list (string * Z)) (attached_projects : option (list string))
    : result (list string * list (string * Q)) :=
  let attached_projects :=
    match attached_projects with
    | None => []
    | Some [] => []
    | Some attached => attached
    end in
  let priority_dict := [] in
  totals <- total_wall_times combined_stats 0%Q 0%Q ;;
  let '(total_xday_time, total_time) := totals in
  priority_dict <-
    priority_loop combined_stats attached_projects total_xday_time total_time
      project_weights priority_dict ;;
  if (0 <? List.length priority_dict)%nat
  then Ok (List.map fst (sorted_by_priority priority_dict), priority_dict)
  else Ok ([], []).

End StatsHelper.

(** * Properties *)

Import Py.

(** ** The runtime fragment *)

Section Strings.

Lemma upper_ascii_idempotent (c : ascii) : upper_ascii (upper_ascii c) = upper_ascii c.
Proof.
  destruct c as [b0 b1 b2 b3 b4 b5 b6 b7].
  destruct b0, b1, b2, b3, b4, b5, b6, b7; reflexivity.
Qed.

Lemma upper_idempotent (s : string) : upper (upper s) = upper s.
Proof.
  induction s as [|c s IH]; simpl; [reflexivity|].
  now rewrite upper_ascii_idempotent, IH.
Qed.

Lemma upper_append (a b : string) : upper (a ++ b) = upper a ++ upper b.
Proof.
  induction a as [|c a IH]; simpl; [reflexivity|].
  now rewrite IH.
Qed.

(** Replacing inside an upper-cased string by an upper-cased string leaves
    it upper-cased. *)
Lemma upper_replace_from (old new : string) :
  upper new = new ->
  forall (s : string) (skip : nat),
    upper s = s -> upper (replace_from skip old new s) = replace_from skip old new s.
Proof.
  intros Hnew s.
  induction s as [|c s IH]; intros skip Hs; [reflexivity|].
  simpl in Hs. injection Hs as Hc Hs'.
  destruct skip as [|k].
  - cbn [replace_from].
    destruct (String.prefix old (String c s)).
    + rewrite upper_append, Hnew, IH by assumption. reflexivity.
    + simpl. rewrite Hc, IH by assumption. reflexivity.
  - cbn [replace_from]. apply IH. assumption.
Qed.

Lemma upper_replace (old : string) (s : string) :
  old <> EmptyString -> upper s = s -> upper (replace old "" s) = replace old "" s.
Proof.
  intros Hold Hs. destruct old as [|c old]; [congruence|].
  unfold replace. apply upper_replace_from; [reflexivity | assumption].
Qed.

Lemma upper_drop_last (s : string) : upper s = s -> upper (drop_last s) = drop_last s.
Proof.
  induction s as [|c s IH]; intros Hs; [reflexivity|].
  simpl in Hs. injection Hs as Hc Hs'.
  destruct s as [|c' s']; [reflexivity|].
  change (drop_last (String c (String c' s'))) with (String c (drop_last (String c' s'))).
  simpl upper at 1. rewrite Hc. f_equal. apply IH. assumption.
Qed.

(** A string in which [old] does not occur is left alone by [replace]. *)
Lemma replace_from_absent (old new s : string) :
  contains old s = false -> replace_from 0 old new s = s.
Proof.
  induction s as [|c s IH]; intros H; [reflexivity|].
  cbn [contains] in H. apply orb_false_iff in H as [Hp Hc].
  cbn [replace_from]. rewrite Hp. f_equal. apply IH. assumption.
Qed.

Lemma prefix_append_l (a b s : string) :
  String.prefix (a ++ b) s = true -> String.prefix a s = true.
Proof.
  revert s. induction a as [|c a IH]; intros s H; [destruct s; reflexivity|].
  destruct s as [|c' s]; simpl in *; [discriminate|].
  destruct (ascii_dec c c'); [|discriminate]. apply IH. assumption.
Qed.

Lemma contains_append_l (a b s : string) :
  contains (a ++ b) s = true -> contains a s = true.
Proof.
  induction s as [|c s IH]; cbn [contains]; intros H.
  - apply orb_true_iff in H as [H|H]; [|discriminate].
    apply prefix_append_l in H. rewrite H. reflexivity.
  - apply orb_true_iff in H as [H|H].
    + apply prefix_append_l in H. rewrite H. reflexivity.
    + rewrite (IH H). apply orb_true_r.
Qed.

Lemma contains_append_absent (a b s : string) :
  contains a s = false -> contains (a ++ b) s = false.
Proof.
  intros H. destruct (contains (a ++ b) s) eqn:E; [|reflexivity].
  apply contains_append_l in E. congruence.
Qed.

End Strings.

Section Exceptions.

Lemma bind_Raise {A B : Type} (r : result A) (k : A -> result B) (e : exn) :
  bind r k = Raise e -> r = Raise e \/ exists a, r = Ok a /\ k a = Raise e.
Proof. destruct r as [a|e']; cbn; intros H; [right; exists a; auto | left; congruence]. Qed.

Lemma bind_Ok {A B : Type} (r : result A) (k : A -> result B) (b : B) :
  bind r k = Ok b -> exists a, r = Ok a /\ k a = Ok b.
Proof. destruct r as [a|e']; cbn; intros H; [exists a; auto | discriminate]. Qed.

Lemma py_int_raises (s : string) (e : exn) : py_int s = Raise e -> e = ValueError.
Proof.
  unfold py_int.
  destruct (match strip s with
            | EmptyString => _
            | String c r => _
            end) as [negative digits].
  destruct (digits_value 0 false digits); congruence.
Qed.

Lemma list_index_raises {A : Type} (l : list A) (i : nat) (e : exn) :
  list_index l i = Raise e -> e = IndexError.
Proof. unfold list_index. destruct (nth_error l i); congruence. Qed.

Lemma datetime_of_date_raises (y m d : Z) (e : exn) :
  datetime_of_date y m d = Raise e -> e = ValueError \/ e = OverflowError.
Proof.
  unfold datetime_of_date.
  destruct (negb (fits_c_int y && fits_c_int m && fits_c_int d)); [intros [= <-]; now right|].
  destruct ((1 <=? y) && (y <=? 9999) && (1 <=? m) && (m <=? 12)
            && (1 <=? d) && (d <=? days_in_month y m)); [discriminate|].
  intros [= <-]. now left.
Qed.

End Exceptions.

(** ** URL canonicalisation *)

Section Canonicalisation.
Import utils.

(** The worker keeps an upper-cased string upper-cased. *)
Lemma _resolve_url_database_upper (s : string) :
  upper s = s -> upper (_resolve_url_database s) = _resolve_url_database s.
Proof.
  intros Hs. unfold _resolve_url_database. cbv zeta.
  set (c4 := replace "HTTP://" "" _).
  assert (H4 : upper c4 = c4) by (subst c4; repeat apply upper_replace; try discriminate; exact Hs).
  set (c5 := if startswith "WWW." c4 then _ else _).
  assert (H5 : upper c5 = c5).
  { subst c5. destruct (startswith "WWW." c4); [apply upper_replace; [discriminate|]|]; exact H4. }
  set (c6 := if endswith "/" c5 then _ else _).
  assert (H6 : upper c6 = c6).
  { subst c6. destruct (endswith "/" c5); [apply upper_drop_last|]; exact H5. }
  destruct (contains "WORLDCOMMUNITYGRID.ORG/BOINC" c6); [reflexivity | exact H6].
Qed.

Lemma resolve_url_database_upper (x : string) :
  upper (resolve_url_database x) = resolve_url_database x.
Proof. apply _resolve_url_database_upper, upper_idempotent. Qed.

(** The legacy alias never survives canonicalisation. *)
Lemma resolve_url_database_no_alias (x : string) :
  contains "WORLDCOMMUNITYGRID.ORG/BOINC" (resolve_url_database x) = false.
Proof.
  unfold resolve_url_database, _resolve_url_database. cbv zeta.
  set (c6 := if endswith "/" _ then _ else _).
  destruct (contains "WORLDCOMMUNITYGRID.ORG/BOINC" c6) eqn:E; [reflexivity | exact E].
Qed.

(** A key free of scheme markers, of a leading [WWW.] and of a trailing
    slash is a fixed point of the worker. *)
Lemma _resolve_url_database_settled (key : string) :
  contains "HTTP://" key = false ->
  contains "HTTPS://" key = false ->
  startswith "WWW." key = false ->
  endswith "/" key = false ->
  contains "WORLDCOMMUNITYGRID.ORG/BOINC" key = false ->
  _resolve_url_database key = key.
Proof.
  intros Hhttp Hhttps Hwww Hslash Halias.
  unfold _resolve_url_database. cbv zeta.
  assert (R1 : replace "HTTPS://WWW." "" key = key).
  { apply replace_from_absent. apply (contains_append_absent "HTTPS://" "WWW."). exact Hhttps. }
  rewrite R1.
  assert (R2 : replace "HTTP://WWW." "" key = key).
  { apply replace_from_absent. apply (contains_append_absent "HTTP://" "WWW."). exact Hhttp. }
  rewrite R2.
  assert (R3 : replace "HTTPS://" "" key = key) by (apply replace_from_absent; exact Hhttps).
  rewrite R3.
  assert (R4 : replace "HTTP://" "" key = key) by (apply replace_from_absent; exact Hhttp).
  rewrite R4, Hwww, Hslash, Halias. reflexivity.
Qed.

(** C2 (as the code has it).  Canonicalisation is idempotent on every
    input whose canonical key holds no scheme marker, no leading [WWW.] and
    no trailing slash any more; it is case-insensitive: inputs that differ
    in letter case only have the same key; and the two spellings
    [https://WWW.Example.com/a/] and [example.com/a] have the same key. *)
Theorem resolve_url_database_idempotent_on_settled_keys :
  (forall x : string,
      let key := resolve_url_database x in
      contains "HTTP://" key = false ->
      contains "HTTPS://" key = false ->
      startswith "WWW." key = false ->
      endswith "/" key = false ->
      resolve_url_database key = key)
  /\ (forall x y : string,
         upper x = upper y -> resolve_url_database x = resolve_url_database y)
  /\ resolve_url_database "https://WWW.Example.com/a/" = resolve_url_database "example.com/a".
Proof.
  split; [|split].
  - intros x key Hhttp Hhttps Hwww Hslash.
    unfold resolve_url_database at 1.
    replace (upper key) with key by (symmetry; apply resolve_url_database_upper).
    apply _resolve_url_database_settled; try assumption.
    apply resolve_url_database_no_alias.
  - intros x y H. unfold resolve_url_database. rewrite H. reflexivity.
  - reflexivity.
Qed.

(** The theorem at the spelling of the specification. *)
Lemma resolve_url_database_idempotent_witness :
  resolve_url_database (resolve_url_database "https://WWW.Example.com/a/")
  = resolve_url_database "https://WWW.Example.com/a/".
Proof.
  apply (proj1 resolve_url_database_idempotent_on_settled_keys "https://WWW.Example.com/a/");
    reflexivity.
Defined.

(** C2 as stated fails: only one trailing slash is removed per pass, so a
    URL that ends in two slashes needs two passes. *)
Lemma resolve_url_database_not_idempotent :
  resolve_url_database "example.com/a//" = "EXAMPLE.COM/A/"
  /\ resolve_url_database (resolve_url_database "example.com/a//") = "EXAMPLE.COM/A".
Proof. split; reflexivity. Qed.

End Canonicalisation.

(** ** The thermal PID controller *)

Section Controller.
Import tune_temp.

Variable math_exp : float -> result float.
Variable math_log : float -> result float.

(** The setter of [clamped_ctrl] assigns [ctrl] and nothing else. *)
Lemma clamped_ctrl_setter_frame (self self' : PIDController) (value : float) :
  clamped_ctrl_setter math_log self value = Ok self' ->
  self' = set_ctrl (ctrl self') self.
Proof.
  unfold clamped_ctrl_setter. intros H.
  repeat match type of H with
         | (if ?b then _ else _) = _ => destruct b
         | bind ?r _ = _ => destruct r; cbn [bind] in H
         end;
    try discriminate; injection H as <-; reflexivity.
Qed.

(** What [export_state] writes down. *)
Lemma export_state_keys (origin : PIDController) (state : gmap string float) :
  export_state math_exp origin = Ok state ->
  exists clamped,
    clamped_ctrl math_exp origin = Ok clamped
    /\ state !! "ctrl" = Some (ctrl origin)
    /\ state !! "clamped_ctrl" = Some clamped
    /\ state !! "k_ultimate" = None
    /\ state !! "stable_period" = None
    /\ state !! "k_proportional" = None
    /\ state !! "t_integral" = None
    /\ state !! "t_derivative" = None.
Proof.
  unfold export_state. destruct (clamped_ctrl math_exp origin) as [c|e]; cbn [bind]; [|discriminate].
  intros [= <-]. exists c. repeat split; reflexivity.
Qed.

(** C9.  On the first call of [timestamp_update], when [last_timestamp]
    is [None], only [last_timestamp] is assigned: [ctrl], [error_0],
    [error_1] and [delta_time] keep their values, and so does the clamped
    output [clamped_ctrl]. *)
Theorem timestamp_update_first_call (self : PIDController) (opt_value timestamp : float) :
  last_timestamp self = None ->
  exists self',
    timestamp_update self opt_value timestamp = Ok self'
    /\ self' = set_last_timestamp (Some timestamp) self
    /\ last_timestamp self' = Some timestamp
    /\ ctrl self' = ctrl self
    /\ error_0 self' = error_0 self
    /\ error_1 self' = error_1 self
    /\ delta_time self' = delta_time self
    /\ clamped_ctrl math_exp self' = clamped_ctrl math_exp self.
Proof.
  intros Hfirst. exists (set_last_timestamp (Some timestamp) self).
  unfold timestamp_update. rewrite Hfirst.
  repeat split; reflexivity.
Qed.

(** C1 (as the code has it).  Let [state] be what [export_state] wrote for
    some controller.  Importing it into a controller that has no
    [k_ultimate] or no [stable_period] (a fresh one has neither, and
    [export_state] saves neither) raises: [set_params_from_state] asserts
    both.  Importing it into a controller that has both succeeds as soon
    as the setter of [clamped_ctrl] does: [ctrl] is the value the setter
    derives from the exported clamped output and the gains are
    [0.6 * k_ultimate], [0.5 * stable_period] and [0.125 * stable_period]. *)
Theorem import_state_of_exported_state
    (origin self : PIDController) (state : gmap string float) (clamped : float) :
  export_state math_exp origin = Ok state ->
  clamped_ctrl math_exp origin = Ok clamped ->
  (k_ultimate self = None \/ stable_period self = None ->
   exists e, import_state math_log self state = Raise e)
  /\ (forall ku sp : float,
        k_ultimate self = Some ku -> stable_period self = Some sp ->
        import_state math_log self state =
        (self1 <- clamped_ctrl_setter math_log (set_ctrl (ctrl origin) self) clamped ;;
         Ok (set_t_derivative (0.125 * sp)
               (set_t_integral (0.5 * sp)
                  (set_k_proportional (0.6 * ku) self1))))).
Proof.
  intros Hexport Hclamped.
  destruct (export_state_keys _ _ Hexport)
    as (c & Hc & Hctrl & Hcl & Hku & Hsp & Hkp & Hti & Htd).
  assert (c = clamped) as -> by congruence.
  unfold import_state, state_get, state_get_opt.
  rewrite Hctrl, Hcl, Hku, Hsp, Hkp, Hti, Htd.
  destruct (clamped_ctrl_setter math_log (set_ctrl (ctrl origin) self) clamped)
    as [self1|e] eqn:Hset; cbn [bind].
  - apply clamped_ctrl_setter_frame in Hset. rewrite Hset.
    destruct self as [? ? ? ? ? ? ? ? ? ? ? ? ? ? ku0 sp0]. cbn.
    split.
    + intros [-> | ->]; unfold set_params_from_state; cbn.
      * destruct sp0; eexists; reflexivity.
      * eexists; reflexivity.
    + intros ku sp -> ->. reflexivity.
  - split.
    + intros _. eexists; reflexivity.
    + intros ku sp _ _. reflexivity.
Qed.

End Controller.

Section ControllerRuns.
Import tune_temp.

(** The theorem at a fresh controller importing the state of a fresh
    controller: the import raises. *)
Lemma import_state_of_exported_state_witness :
  exists origin state clamped self e,
    __init__ soft_log 0 70 = Ok origin
    /\ export_state soft_exp origin = Ok state
    /\ clamped_ctrl soft_exp origin = Ok clamped
    /\ __init__ soft_log 0 70 = Ok self
    /\ import_state soft_log self state = Raise e.
Proof.
  destruct (__init__ soft_log 0 70) as [origin|] eqn:Hinit; [|discriminate].
  destruct (clamped_ctrl soft_exp origin) as [clamped|] eqn:Hclamped;
    [|injection Hinit as <-; discriminate].
  destruct (export_state soft_exp origin) as [state|] eqn:Hexport;
    [|unfold export_state in Hexport; rewrite Hclamped in Hexport; discriminate].
  destruct (proj1 (import_state_of_exported_state soft_exp soft_log
                     origin origin state clamped Hexport Hclamped)) as [e He].
  { left. injection Hinit as <-. reflexivity. }
  exists origin, state, clamped, origin, e. repeat split; assumption.
Defined.

(** The first sample given to a fresh controller. *)
Lemma timestamp_update_first_call_witness :
  exists self self',
    __init__ soft_log 0 70 = Ok self
    /\ timestamp_update self 65 1000 = Ok self'
    /\ last_timestamp self' = Some 1000%float
    /\ ctrl self' = ctrl self
    /\ clamped_ctrl soft_exp self' = clamped_ctrl soft_exp self.
Proof.
  destruct (__init__ soft_log 0 70) as [self|] eqn:Hinit; [|discriminate].
  destruct (timestamp_update_first_call soft_exp self 65 1000)
    as (self' & Hrun & _ & Hlast & Hctrl & _ & _ & _ & Hclamped).
  { injection Hinit as <-. reflexivity. }
  exists self, self'. repeat split; assumption.
Defined.

(** C1 as stated fails: a fresh controller cannot import the state another
    fresh controller exported; the assertion on [stable_period] fails. *)
Lemma import_state_fresh_controller_raises :
  (origin <- __init__ soft_log 0 70 ;;
   state <- export_state soft_exp origin ;;
   fresh <- __init__ soft_log 0 70 ;;
   import_state soft_log fresh state) = Raise AssertionError.
Proof. vm_compute. reflexivity. Qed.

End ControllerRuns.

(** ** The retrying RPC calls *)

Section Retrying.
Import Rpc.

Lemma rounds_snoc (delay : Z) (first k : nat) (trace : list event) :
  (((trace ++ [Sleep delay]) ++ [Request first]) ++ rounds delay (S first) k
   = trace ++ rounds delay first (S k))%list.
Proof. cbn [rounds]. rewrite <- !app_assoc. reflexivity. Qed.


(** The same for the loop of [run_rpc_command]. *)
Lemma run_rpc_command_loop_spec (rpc_client : BoincClientConnection.RPCClient)
    (command : string) (arg1 arg1_val arg2 arg2_val : option string) :
  let req := BoincClientConnection.build_request command arg1 arg1_val arg2 arg2_val in
  forall (remaining : nat) (current_retries : Z) (trace : list event),
    0 <= current_retries ->
    remaining = Z.to_nat (BoincClientConnection.max_retries - current_retries) ->
    let first := Z.to_nat current_retries in
    let run := BoincClientConnection.run_rpc_command_loop remaining rpc_client
                 command arg1 arg1_val arg2 arg2_val current_retries trace in
    exists k : nat,
      (k <= remaining)%nat
      /\ snd run = (trace ++ rounds BoincClientConnection.retry_wait first k)%list
      /\ (forall j, (S j < k)%nat ->
            BoincClientConnection.retried (rpc_client req (first + j)%nat) = true)
      /\ ((k = remaining
           /\ (forall j, (j < k)%nat ->
                 BoincClientConnection.retried (rpc_client req (first + j)%nat) = true)
           /\ fst run = PNone)
          \/ (exists j, k = S j
                /\ rpc_client req (first + j)%nat = Ok (fst run)
                /\ str_is_empty (fst run) = false)).
Proof.
  intros req.
  induction remaining as [|remaining IH]; intros cur trace Hcur Hrem first run.
  - exists 0%nat. subst run. cbn. rewrite app_nil_r.
    repeat split; try lia. left. repeat split; intros; lia.
  - assert (Hlt : (cur <? BoincClientConnection.max_retries) = true)
      by (apply Z.ltb_lt; lia).
    subst run. cbn [BoincClientConnection.run_rpc_command_loop]. rewrite Hlt.
    replace (Z.to_nat (cur + 1 - 1)) with first by (subst first; f_equal; lia).
    fold req.
    assert (Hround :
      BoincClientConnection.retried (rpc_client req first) = true ->
      let run := BoincClientConnection.run_rpc_command_loop remaining rpc_client
                   command arg1 arg1_val arg2 arg2_val (cur + 1)
                   ((trace ++ [Sleep BoincClientConnection.retry_wait])
                      ++ [Request first])%list in
      exists k : nat,
        (k <= S remaining)%nat
        /\ snd run = (trace ++ rounds BoincClientConnection.retry_wait first k)%list
        /\ (forall j, (S j < k)%nat ->
              BoincClientConnection.retried (rpc_client req (first + j)%nat) = true)
        /\ ((k = S remaining
             /\ (forall j, (j < k)%nat ->
                   BoincClientConnection.retried (rpc_client req (first + j)%nat) = true)
             /\ fst run = PNone)
            \/ (exists j, k = S j
                  /\ rpc_client req (first + j)%nat = Ok (fst run)
                  /\ str_is_empty (fst run) = false))).
    { intros Hcall run.
      specialize (IH (cur + 1)
                     ((trace ++ [Sleep BoincClientConnection.retry_wait])
                        ++ [Request first])%list).
      destruct IH as (k & Hk & Htrace & Hfailed & Hend); [lia | lia |].
      replace (Z.to_nat (cur + 1)) with (S first) in * by (subst first; lia).
      exists (S k). split; [lia|]. split; [subst run; rewrite Htrace; apply rounds_snoc|].
      assert (Hshift : forall j, (first + S j = S first + j)%nat) by (intros; lia).
      split.
      - intros [|j] Hj; [rewrite Nat.add_0_r; exact Hcall|].
        rewrite Hshift. apply Hfailed. lia.
      - destruct Hend as [(-> & Hall & Hnone) | (j & -> & Hok)].
        + left. repeat split; try assumption.
          intros [|j] Hj; [rewrite Nat.add_0_r; exact Hcall|].
          rewrite Hshift. apply Hall. lia.
        + right. exists (S j). rewrite Hshift. split; [reflexivity | assumption]. }
    destruct (rpc_client req first) as [parsed|e] eqn:Hcall.
    + destruct (str_is_empty parsed) eqn:Hempty.
      * apply Hround. exact Hempty.
      * exists 1%nat. cbn [fst snd rounds].
        split; [lia|]. split; [rewrite <- app_assoc; reflexivity|].
        split; [intros; lia|].
        right. exists 0%nat. rewrite Nat.add_0_r. repeat split; assumption.
    + apply Hround. reflexivity.
Qed.



End Retrying.

(** ** The log classifiers *)

Section Classifiers.
Import BoincClientConnection.

Variable str_message : Message -> string.
Variable now : datetime.

(** A message tagged with another project leaves the flags alone. *)
Lemma cache_full_step_other_project (project_name : string) (flags : bool * bool)
    (message : Message) :
  tagged project_name message = false ->
  cache_full_step str_message now (upper project_name) flags message = flags.
Proof.
  unfold tagged, cache_full_step. intros ->. destruct flags as [cpu gpu].
  repeat match goal with |- (if ?b then _ else _) = _ => destruct b end; reflexivity.
Qed.

(** So does a message that fails the age test. *)
Lemma cache_full_step_fails_age_test (project_name : string) (flags : bool * bool)
    (message : Message) :
  passes_age_test now message = false ->
  cache_full_step str_message now (upper project_name) flags message = flags.
Proof.
  unfold passes_age_test, cache_full_step. intros H. apply negb_false_iff in H.
  rewrite H. destruct flags as [cpu gpu].
  destruct (negb (contains (upper project_name) (upper (str_message message)))); reflexivity.
Qed.

(** A flag that one step raises was raised by the message of that step,
    which is tagged, passes the age test and carries the signal. *)
Lemma cache_full_step_raises (project_name : string) (cpu gpu : bool) (message : Message) :
  let flags := cache_full_step str_message now (upper project_name) (cpu, gpu) message in
  (fst flags = true ->
   cpu = true
   \/ (tagged project_name message && passes_age_test now message && cpu_signal message = true))
  /\ (snd flags = true ->
      gpu = true
      \/ (tagged project_name message && passes_age_test now message && gpu_signal message = true)).
Proof.
  unfold cache_full_step, tagged, passes_age_test, cpu_signal, gpu_signal.
  change (upper "NOT REQUESTING TASKS: DON'T NEED") with "NOT REQUESTING TASKS: DON'T NEED".
  destruct (negb (contains (upper project_name) (upper (str_message message))));
    [cbn; tauto|].
  destruct (seconds (datetime_sub now (time message)) >? 60 * 5); [cbn; tauto|].
  destruct (contains no_new_tasks_phrase (upper (body message))); [cbn; tauto|].
  destruct (String.eqb (upper project_name) (upper (project message))); [|cbn; tauto].
  destruct (cpu_full_phrase (upper (body message)));
    destruct (contains "NOT REQUESTING TASKS: DON'T NEED" (upper (body message)));
    destruct (contains "GPU" (upper (body message)));
    destruct (contains "GPU: JOB CACHE FULL" (upper (body message)));
    destruct (contains "GPUS NOT USABLE" (upper (body message)));
    destruct (ignore_message_from_check_log_entries str_message message);
    cbn; tauto.
Qed.

Lemma cache_full_fold_raises (project_name : string) (messages : list Message) :
  forall cpu gpu : bool,
    let flags := fold_left (cache_full_step str_message now (upper project_name))
                   messages (cpu, gpu) in
    (fst flags = true ->
     cpu = true
     \/ exists message, In message messages
          /\ tagged project_name message = true
          /\ passes_age_test now message = true
          /\ cpu_signal message = true)
    /\ (snd flags = true ->
        gpu = true
        \/ exists message, In message messages
             /\ tagged project_name message = true
             /\ passes_age_test now message = true
             /\ gpu_signal message = true).
Proof.
  induction messages as [|message messages IH]; intros cpu gpu; cbn [fold_left].
  - cbn. tauto.
  - pose proof (cache_full_step_raises project_name cpu gpu message) as Hstep.
    destruct (cache_full_step str_message now (upper project_name) (cpu, gpu) message)
      as [cpu' gpu'] eqn:Estep.
    cbn [fst snd] in Hstep. destruct Hstep as [Hcpu Hgpu].
    specialize (IH cpu' gpu'). cbn zeta in IH. destruct IH as [IHcpu IHgpu].
    split; intros Hflag.
    + destruct (IHcpu Hflag) as [-> | (m & Hin & Hm)].
      * destruct (Hcpu eq_refl) as [-> | Hm]; [left; reflexivity|].
        right. exists message. apply andb_true_iff in Hm as [Hm Hs].
        apply andb_true_iff in Hm as [Ht Ha]. repeat split; try assumption. left; reflexivity.
      * right. exists m. split; [right; exact Hin | exact Hm].
    + destruct (IHgpu Hflag) as [-> | (m & Hin & Hm)].
      * destruct (Hgpu eq_refl) as [-> | Hm]; [left; reflexivity|].
        right. exists message. apply andb_true_iff in Hm as [Hm Hs].
        apply andb_true_iff in Hm as [Ht Ha]. repeat split; try assumption. left; reflexivity.
      * right. exists m. split; [right; exact Hin | exact Hm].
Qed.

(** Messages that a step passes over can be removed from the list. *)
Lemma cache_full_fold_filter (project_name : string) (keep : Message -> bool) :
  (forall flags message,
      keep message = false ->
      cache_full_step str_message now (upper project_name) flags message = flags) ->
  forall (messages : list Message) (flags : bool * bool),
    fold_left (cache_full_step str_message now (upper project_name)) messages flags
    = fold_left (cache_full_step str_message now (upper project_name))
        (List.filter keep messages) flags.
Proof.
  intros Hskip. induction messages as [|message messages IH]; intros flags; [reflexivity|].
  cbn [fold_left List.filter]. destruct (keep message) eqn:Hkeep.
  - cbn [fold_left]. apply IH.
  - rewrite (Hskip _ _ Hkeep). apply IH.
Qed.

(** Cross-project isolation of [cache_full], and what a [True] answer
    rests on.  The messages tagged with other projects can be removed
    without changing the answer, so two lists that agree on the messages
    tagged with the project get the same answer.  The answer is [True]
    only when a message tagged with the project that passes the age test
    carries a CPU-full signal and one carries a GPU-full signal. *)
Theorem cache_full_cross_project_isolation (project_name : string) :
  (forall messages : list Message,
      cache_full str_message now project_name messages
      = cache_full str_message now project_name (List.filter (tagged project_name) messages))
  /\ (forall messages messages' : list Message,
         List.filter (tagged project_name) messages = List.filter (tagged project_name) messages' ->
         cache_full str_message now project_name messages
         = cache_full str_message now project_name messages')
  /\ (forall messages : list Message,
         cache_full str_message now project_name messages = true ->
         (exists message, In message messages
            /\ tagged project_name message = true
            /\ passes_age_test now message = true
            /\ cpu_signal message = true)
         /\ (exists message, In message messages
               /\ tagged project_name message = true
               /\ passes_age_test now message = true
               /\ gpu_signal message = true)).
Proof.
  assert (Hfilter : forall messages : list Message,
             cache_full str_message now project_name messages
             = cache_full str_message now project_name (List.filter (tagged project_name) messages)).
  { intros messages. unfold cache_full.
    rewrite (cache_full_fold_filter project_name (tagged project_name)); [reflexivity|].
    intros flags message. apply cache_full_step_other_project. }
  split; [exact Hfilter|]. split.
  - intros messages messages' Hsame.
    rewrite (Hfilter messages), (Hfilter messages'), Hsame. reflexivity.
  - intros messages. unfold cache_full.
    pose proof (cache_full_fold_raises project_name messages false false) as Hfold.
    cbn zeta in Hfold.
    destruct (fold_left _ messages (false, false)) as [cpu gpu].
    cbn [fst snd] in Hfold. destruct Hfold as [Hcpu Hgpu].
    destruct cpu, gpu; cbn; try discriminate. intros _.
    destruct (Hcpu eq_refl) as [? | Hc]; [discriminate|].
    destruct (Hgpu eq_refl) as [? | Hg]; [discriminate|].
    split; assumption.
Qed.

(** Both classifiers pass over the messages that fail the age test. *)
Theorem classifiers_skip_failed_age_test (project_name : string) (messages : list Message) :
  cache_full str_message now project_name messages
  = cache_full str_message now project_name (List.filter (passes_age_test now) messages)
  /\ project_backoff str_message now project_name messages
     = project_backoff str_message now project_name (List.filter (passes_age_test now) messages).
Proof.
  split.
  - unfold cache_full.
    rewrite (cache_full_fold_filter project_name (passes_age_test now)); [reflexivity|].
    intros flags message. apply cache_full_step_fails_age_test.
  - unfold project_backoff.
    induction messages as [|message messages IH]; [reflexivity|].
    cbn [List.filter]. destruct (passes_age_test now message) eqn:Hage.
    + cbn [project_backoff_loop]. rewrite IH. reflexivity.
    + cbn [project_backoff_loop]. unfold passes_age_test in Hage.
      apply negb_false_iff in Hage. rewrite Hage.
      destruct (negb (contains (upper project_name) (upper (str_message message))));
        exact IH.
Qed.

End Classifiers.

Section ClassifierRuns.
Import BoincClientConnection.

(** C3 on the code: a message one day and ten seconds old is not passed
    over.  Its age has [days = 1] and [seconds = 10], and the classifiers
    test [seconds] alone.  With that message the answers are [True]; with
    the messages older than five minutes removed they are [False]. *)
Theorem day_old_message_is_not_skipped :
  let now := mkdatetime 2024 3 2 12 0 10 0 in
  let full := mkMessage (mkdatetime 2024 3 1 12 0 0 0)
                "Not requesting tasks: don't need (job cache full)" "testproject" in
  let none := mkMessage (mkdatetime 2024 3 1 12 0 0 0)
                "Project has no tasks available" "testproject" in
  datetime_sub now (time full) = mktimedelta 1 10 0
  /\ older_than_5_minutes now full = true
  /\ cache_full str_dict now "testproject" [full] = true
  /\ cache_full str_dict now "testproject" (recent now [full]) = false
  /\ project_backoff str_dict now "testproject" [none] = true
  /\ project_backoff str_dict now "testproject" (recent now [none]) = false.
Proof. vm_compute. repeat split. Qed.

(** C8 on the code: [cache_full] answers [True] although no message within
    the five-minute window carries any signal; the only message is two
    days and one minute old. *)
Theorem cache_full_true_outside_window :
  let now := mkdatetime 2024 3 3 12 1 0 0 in
  let old := mkMessage (mkdatetime 2024 3 1 12 0 0 0)
               "Not requesting tasks: don't need (job cache full)" "testproject" in
  older_than_5_minutes now old = true
  /\ recent now [old] = []
  /\ cache_full str_dict now "testproject" [old] = true.
Proof. vm_compute. repeat split. Qed.

End ClassifierRuns.


(** ** The magnitude-ratio table and its cache *)

Section MagRatioCache.
Import GridcoinClientConnection.

Variable wallet : Wallet.

(** The live query either raises and leaves the cache alone, or returns a
    table that is the new cache. *)
Lemma live_query_outcome (cache : gmap string Q) (grc_client : option Connection)
    (lookback_period : Z) (response grc_projects : pyval) :
  (exists e, live_query wallet cache grc_client lookback_period response grc_projects
             = (Raise e, cache))
  \/ (exists table, live_query wallet cache grc_client lookback_period response grc_projects
                    = (Ok table, table)).
Proof.
  unfold live_query. cbv zeta.
  match goal with
  | |- context [match ?fetched with Ok _ => _ | Raise _ => _ end] =>
      destruct fetched as [[result_ projects]|e]
  end.
  - unfold get_project_mag_ratios_from_response.
    destruct (ratios_from_response result_ projects lookback_period) as [table|e].
    + right. exists table. reflexivity.
    + left. exists e. reflexivity.
  - left. exists e. reflexivity.
Qed.

(** A falsy reply to the superblocks query makes the live query raise. *)
Lemma live_query_falsy_reply (cache : gmap string Q) (client : Connection)
    (lookback_period : Z) (response grc_projects : pyval) :
  truthy response = false ->
  truthy (fst (run_command client wallet "superblocks"
                 (Some [PNum (inject_Z lookback_period); PBool true]))) = false ->
  live_query wallet cache (Some client) lookback_period response grc_projects
  = (Raise ConnectionError, cache).
Proof.
  intros Hresponse Hreply. unfold live_query. cbv zeta.
  rewrite Hresponse. cbn [negb bind]. rewrite Hreply. reflexivity.
Qed.

(** So does a falsy project list. *)
Lemma live_query_falsy_projects (cache : gmap string Q) (client : Connection)
    (lookback_period : Z) (response grc_projects projects : pyval) :
  truthy grc_projects = false ->
  getitem (fst (run_command client wallet "listprojects" None)) "result" = Ok projects ->
  truthy projects = false ->
  exists e, live_query wallet cache (Some client) lookback_period response grc_projects
            = (Raise e, cache).
Proof.
  intros Hgiven Hreply Hprojects. unfold live_query. cbv zeta.
  rewrite Hgiven, Hreply. cbn [negb bind]. rewrite Hprojects. cbn [negb].
  destruct (truthy response) eqn:Hresponse; cbn [negb bind].
  - rewrite Hresponse. eexists. reflexivity.
  - destruct (truthy (fst (run_command client wallet "superblocks" _)));
      eexists; reflexivity.
Qed.

Lemma cached_or_none_not_empty (cache : gmap string Q) :
  cached_or_none cache <> Some ∅
  /\ (cached_or_none cache = None <-> cache = ∅)
  /\ (cache <> ∅ -> cached_or_none cache = Some cache).
Proof.
  unfold cached_or_none.
  destruct (0 <? Z.of_nat (size cache)) eqn:Hsize.
  - apply Z.ltb_lt in Hsize.
    assert (Hne : cache <> ∅) by (intros ->; rewrite map_size_empty in Hsize; lia).
    repeat split; congruence.
  - apply Z.ltb_ge in Hsize.
    assert (He : cache = ∅) by (apply map_size_empty_iff; lia).
    repeat split; congruence.
Qed.

(** C4.  [get_project_mag_ratios] never raises.  Whenever the live query
    raises, and it does when the reply to the superblocks query or the
    project list is falsy, the call returns the cached table if the cache holds something and [None]
    if it holds nothing (never an empty table), and the cache is left as it
    was.  The cache differs after the call only if the live query returned a
    table, and that table is then the cache. *)
Theorem mag_ratio_cache_survives_failures (cache : gmap string Q)
    (grc_client : option Connection) (lookback_period : Z)
    (dump_rac_mag_ratios : option (gmap string Q -> result unit))
    (response grc_projects : pyval) :
  let live := live_query wallet cache grc_client lookback_period response grc_projects in
  let call := get_project_mag_ratios wallet cache grc_client lookback_period
                dump_rac_mag_ratios response grc_projects in
  (exists returned, fst call = Ok returned)
  /\ (forall e, fst live = Raise e -> call = (Ok (cached_or_none cache), cache))
  /\ (forall client,
        grc_client = Some client ->
        truthy response = false ->
        truthy (fst (run_command client wallet "superblocks"
                       (Some [PNum (inject_Z lookback_period); PBool true]))) = false ->
        call = (Ok (cached_or_none cache), cache))
  /\ (forall client projects,
        grc_client = Some client ->
        truthy grc_projects = false ->
        getitem (fst (run_command client wallet "listprojects" None)) "result" = Ok projects ->
        truthy projects = false ->
        call = (Ok (cached_or_none cache), cache))
  /\ (cache <> ∅ -> cached_or_none cache = Some cache)
  /\ (cache = ∅ -> cached_or_none cache = None)
  /\ cached_or_none cache <> Some ∅
  /\ (snd call <> cache -> exists table, live = (Ok table, table) /\ snd call = table).
Proof.
  intros live call.
  destruct (cached_or_none_not_empty cache) as (Hnot_empty & Hnone & Hsome).
  assert (Hraise : forall e, fst live = Raise e -> call = (Ok (cached_or_none cache), cache)).
  { intros e He. subst call live. unfold get_project_mag_ratios.
    destruct (live_query_outcome cache grc_client lookback_period response grc_projects)
      as [(e' & Hlive) | (table & Hlive)]; rewrite Hlive in *; [reflexivity | discriminate]. }
  split; [|split; [exact Hraise|split; [|split; [|split; [exact Hsome|split;
    [|split; [exact Hnot_empty|]]]]]]].
  - subst call. unfold get_project_mag_ratios.
    destruct (live_query wallet cache grc_client lookback_period response grc_projects)
      as [[table|e] cache'].
    + destruct dump_rac_mag_ratios as [dump|]; [destruct (dump table)|]; eexists; reflexivity.
    + eexists; reflexivity.
  - intros client -> Hresponse Hreply. apply (Hraise ConnectionError).
    subst live. rewrite live_query_falsy_reply by assumption. reflexivity.
  - intros client projects -> Hgiven Hreply Hprojects.
    destruct (live_query_falsy_projects cache client lookback_period response
                grc_projects projects Hgiven Hreply Hprojects) as [e He].
    apply (Hraise e). subst live. rewrite He. reflexivity.
  - intros ->. apply Hnone. reflexivity.
  - intros Hchanged. subst call live. unfold get_project_mag_ratios in *.
    destruct (live_query_outcome cache grc_client lookback_period response grc_projects)
      as [(e' & Hlive) | (table & Hlive)]; rewrite Hlive in *.
    + cbn in Hchanged. contradiction.
    + exists table. split; [reflexivity|].
      destruct dump_rac_mag_ratios as [dump|]; [destruct (dump table)|]; reflexivity.
Qed.

End MagRatioCache.

Section MagRatioCacheRuns.
Import GridcoinClientConnection.

(** The theorem on an unreachable wallet: every request raises, the three
    attempts are used up, and the cached table comes back unchanged. *)
Lemma mag_ratio_cache_survives_failures_witness :
  let wallet : Wallet := fun _ _ _ => Raise ConnectionError in
  let client := mkConnection None "127.0.0.1" "9876" None None 3 1 in
  let cache : gmap string Q := <["EXAMPLE.COM/P" := (5 # 2)%Q]> ∅ in
  get_project_mag_ratios wallet cache (Some client) 30 None PNone PNone
  = (Ok (Some cache), cache).
Proof.
  intros wallet client cache.
  refine (proj1 (proj2 (proj2 (mag_ratio_cache_survives_failures wallet cache
                                 (Some client) 30 None PNone PNone)))
            client _ _ _); reflexivity.
Defined.

End MagRatioCacheRuns.


(** ** Averages and magnitudes *)

Section Averages.
Import StatsHelper.

Variable now : datetime.

Lemma sum_wus_total (rolling_weight_window : Z) (history : list (string * WuDay)) :
  forall t t' : Totals,
    sum_wus now rolling_weight_window history t = Ok t' ->
    total_wus t' = total_wus t + fold_right (fun day total => TOTALWUS (snd day) + total) 0 history.
Proof.
  induction history as [|[date wu] history IH]; intros t t' H.
  - injection H as <-. cbn. lia.
  - cbn [sum_wus] in H. cbv zeta in H.
    repeat match type of H with
           | bind ?r _ = _ => destruct r; cbn [bind] in H; [|discriminate]
           end.
    apply IH in H. cbn [total_wus fold_right snd] in *. lia.
Qed.

(** The loop over [WU_HISTORY] raises no division error. *)
Lemma sum_wus_no_division_error (rolling_weight_window : Z)
    (history : list (string * WuDay)) :
  forall t : Totals, sum_wus now rolling_weight_window history t <> Raise ZeroDivisionError.
Proof.
  assert (Hfield : forall (l : list string) (i : nat),
             (s <- list_index l i ;; py_int s) <> Raise ZeroDivisionError).
  { intros l i H. apply bind_Raise in H as [H | (s & _ & H)].
    - apply list_index_raises in H. discriminate.
    - apply py_int_raises in H. discriminate. }
  induction history as [|[date wu] history IH]; intros t H; [discriminate|].
  cbn [sum_wus] in H. cbv zeta in H.
  apply bind_Raise in H as [H | (y & _ & H)]; [exact (Hfield _ _ H)|].
  apply bind_Raise in H as [H | (m & _ & H)]; [exact (Hfield _ _ H)|].
  apply bind_Raise in H as [H | (d & _ & H)]; [exact (Hfield _ _ H)|].
  apply bind_Raise in H as [H | (datetimed_date & _ & H)].
  - apply datetime_of_date_raises in H. destruct H; discriminate.
  - exact (IH _ H).
Qed.

(** The zero-task guard of [calculate_credit_averages]: for a project
    without tasks the four derived averages are zero, and no division error
    is raised. *)
Theorem project_averages_zero_tasks (parent_dict : ProjectStats) (rolling_weight_window : Z) :
  total_tasks parent_dict = 0 ->
  match project_averages now parent_dict rolling_weight_window with
  | Ok compiled =>
      compiled !! "AVGWALLTIME" = Some 0%Q
      /\ compiled !! "AVGCPUTIME" = Some 0%Q
      /\ compiled !! "AVGCREDITPERTASK" = Some 0%Q
      /\ compiled !! "AVGCREDITPERHOUR" = Some 0%Q
      /\ compiled !! "TOTALTASKS" = Some 0%Q
  | Raise e => e <> ZeroDivisionError
  end.
Proof.
  intros Hzero. unfold project_averages. cbv zeta.
  destruct (sum_wus now rolling_weight_window (WU_HISTORY parent_dict) (mkTotals 0 0 0 0))
    as [t|e] eqn:Hsum; cbn [bind].
  - apply sum_wus_total in Hsum.
    change (total_wus (mkTotals 0 0 0 0)) with 0 in Hsum.
    unfold total_tasks in Hzero. rewrite Hzero in Hsum. rewrite Hsum. cbn.
    repeat split; reflexivity.
  - intros ->. exact (sum_wus_no_division_error _ _ _ Hsum).
Qed.

End Averages.

Section AveragesRuns.
Import StatsHelper.

Lemma project_averages_zero_tasks_witness :
  match project_averages (mkdatetime 2023 4 11 12 0 0 0)
          (mkProjectStats [("04-07-2023", mkCreditDay 0)] [("04-09-2023", mkWuDay 0 5 5)] ∅) 60 with
  | Ok compiled =>
      compiled !! "AVGWALLTIME" = Some 0%Q
      /\ compiled !! "AVGCPUTIME" = Some 0%Q
      /\ compiled !! "AVGCREDITPERTASK" = Some 0%Q
      /\ compiled !! "AVGCREDITPERHOUR" = Some 0%Q
      /\ compiled !! "TOTALTASKS" = Some 0%Q
  | Raise e => e <> ZeroDivisionError
  end.
Proof.
  apply (project_averages_zero_tasks (mkdatetime 2023 4 11 12 0 0 0)).
  reflexivity.
Defined.

(** C7 on the code: one task whose wall time is zero.  The zero-task
    guard does not apply and [total_credit / total_wall_time] divides by
    zero. *)
Theorem calculate_credit_averages_divides_by_zero :
  calculate_credit_averages (mkdatetime 2023 4 11 12 0 0 0)
    [("EXAMPLE.COM/P",
      mkProjectStats [("04-07-2023", mkCreditDay 0)]
        [("04-09-2023", mkWuDay 1 0 0)] ∅)] 60
  = Raise ZeroDivisionError.
Proof. vm_compute. reflexivity. Qed.

End AveragesRuns.


Section Magnitudes.
Import StatsHelper.

Variable mag_ratios : gmap string Q.
Variables approved_projects preferred_projects : list string.

Lemma add_mag_step_unapproved (project_url : string) (project_stats : ProjectStats) :
  snd (add_mag_step mag_ratios approved_projects preferred_projects project_url project_stats)
  = joins_unapproved mag_ratios approved_projects preferred_projects project_url.
Proof.
  unfold add_mag_step, joins_unapproved.
  destruct (Qeq_bool (default 0%Q (mag_ratios !! project_url)) 0); cbn [snd andb]; [|reflexivity].
  destruct (in_strs project_url approved_projects); cbn; [reflexivity|].
  destruct (in_strs project_url preferred_projects); reflexivity.
Qed.

Lemma add_mag_step_zero (project_url : string) (project_stats : ProjectStats) :
  Qeq_bool (default 0%Q (mag_ratios !! project_url)) 0 = true ->
  fst (add_mag_step mag_ratios approved_projects preferred_projects project_url project_stats)
  = set_compiled (<["MAGPERCREDIT" := 0%Q]>
                    (<["AVGMAGPERHOUR" := 0%Q]> (COMPILED_STATS project_stats)))
      project_stats.
Proof. unfold add_mag_step. intros ->. reflexivity. Qed.

Lemma add_mag_loop_unapproved (combined_stats : list (string * ProjectStats))
    (project_url : string) :
  In project_url
     (snd (add_mag_loop mag_ratios approved_projects preferred_projects combined_stats))
  <-> In project_url (List.map fst combined_stats)
      /\ joins_unapproved mag_ratios approved_projects preferred_projects project_url = true.
Proof.
  induction combined_stats as [|[url stats] rest IH]; cbn [add_mag_loop List.map fst In snd].
  - tauto.
  - pose proof (add_mag_step_unapproved url stats) as Hflag.
    destruct (add_mag_step mag_ratios approved_projects preferred_projects url stats)
      as [stats' unapproved].
    destruct (add_mag_loop mag_ratios approved_projects preferred_projects rest)
      as [rest' unapproved_list].
    cbn [snd] in *. subst unapproved.
    destruct (joins_unapproved mag_ratios approved_projects preferred_projects url) eqn:Hurl;
      cbn [In]; rewrite IH.
    + split; [intros [<- | [? ?]]; auto | intros [[<- | ?] ?]; auto].
    + split; [intros [? ?]; auto | intros [[<- | ?] ?]; [congruence | auto]].
Qed.

Lemma add_mag_loop_entry (combined_stats : list (string * ProjectStats))
    (project_url : string) (project_stats : ProjectStats) :
  In (project_url, project_stats) combined_stats ->
  In (project_url,
      fst (add_mag_step mag_ratios approved_projects preferred_projects
             project_url project_stats))
     (fst (add_mag_loop mag_ratios approved_projects preferred_projects combined_stats)).
Proof.
  induction combined_stats as [|[url stats] rest IH]; cbn [add_mag_loop In]; [tauto|].
  intros Hin.
  destruct (add_mag_step mag_ratios approved_projects preferred_projects url stats)
    as [stats' unapproved] eqn:Hstep.
  destruct (add_mag_loop mag_ratios approved_projects preferred_projects rest)
    as [rest' unapproved_list].
  cbn [fst In] in *. destruct Hin as [[= -> ->] | Hin].
  - left. rewrite Hstep. reflexivity.
  - right. apply IH. exact Hin.
Qed.

End Magnitudes.

Section ZeroRatio.
Import StatsHelper.

Lemma add_mag_step_delete_zero (mag_ratios : gmap string Q)
    (approved_projects preferred_projects : list string)
    (zero_url : string) (ratio : Q) (project_url : string) (project_stats : ProjectStats) :
  mag_ratios !! zero_url = Some ratio -> (ratio == 0)%Q ->
  add_mag_step mag_ratios approved_projects preferred_projects project_url project_stats
  = add_mag_step (delete zero_url mag_ratios) approved_projects preferred_projects
      project_url project_stats.
Proof.
  intros Hlookup Hzero. unfold add_mag_step.
  destruct (String.eqb_spec zero_url project_url) as [<- | Hne].
  - rewrite Hlookup, lookup_delete_eq.
    change (default 0%Q (Some ratio)) with ratio.
    change (default 0%Q (@None Q)) with 0%Q.
    apply Qeq_bool_iff in Hzero. rewrite Hzero. reflexivity.
  - rewrite lookup_delete_ne by exact Hne. reflexivity.
Qed.

(** C10.  A project whose entry in [mag_ratios] is present and zero is
    treated as a project without an entry: the call gives the same result
    as on [mag_ratios] with the entry removed; the project's
    [AVGMAGPERHOUR] and [MAGPERCREDIT] are set to 0; and it is on the
    unapproved list exactly when it is neither in [approved_projects] nor in
    [preferred_projects]. *)
Theorem zero_ratio_treated_as_missing
    (combined_stats : list (string * ProjectStats)) (mag_ratios : gmap string Q)
    (approved_projects preferred_projects : list string)
    (project_url : string) (ratio : Q) (project_stats : ProjectStats) :
  mag_ratios !! project_url = Some ratio ->
  (ratio == 0)%Q ->
  In (project_url, project_stats) combined_stats ->
  let with_zero :=
    add_mag_to_combined_stats combined_stats (Some mag_ratios)
      approved_projects preferred_projects in
  let without :=
    add_mag_to_combined_stats combined_stats (Some (delete project_url mag_ratios))
      approved_projects preferred_projects in
  with_zero = without
  /\ (exists updated,
        In (project_url, updated) (fst with_zero)
        /\ COMPILED_STATS updated !! "AVGMAGPERHOUR" = Some 0%Q
        /\ COMPILED_STATS updated !! "MAGPERCREDIT" = Some 0%Q)
  /\ (In project_url (snd with_zero)
      <-> in_strs project_url approved_projects = false
          /\ in_strs project_url preferred_projects = false).
Proof.
  intros Hlookup Hzero Hin with_zero without.
  assert (Heffective : forall m : gmap string Q, (if bool_decide (m = ∅) then ∅ else m) = m)
    by (intros m; case_bool_decide; congruence).
  assert (Hratio : Qeq_bool (default 0%Q (mag_ratios !! project_url)) 0 = true)
    by (rewrite Hlookup; apply Qeq_bool_iff; exact Hzero).
  subst with_zero without. unfold add_mag_to_combined_stats. rewrite !Heffective.
  split; [|split].
  - clear Hin. induction combined_stats as [|[url stats] rest IH]; [reflexivity|].
    cbn [add_mag_loop].
    rewrite <- (add_mag_step_delete_zero mag_ratios _ _ project_url ratio url stats Hlookup Hzero).
    rewrite IH. reflexivity.
  - eexists. split; [apply add_mag_loop_entry; exact Hin|].
    rewrite add_mag_step_zero by exact Hratio. cbn [COMPILED_STATS set_compiled].
    split; [rewrite lookup_insert_ne by discriminate|]; apply lookup_insert_eq.
  - rewrite add_mag_loop_unapproved. unfold joins_unapproved. rewrite Hratio.
    cbn [andb]. rewrite andb_true_iff, !negb_true_iff.
    split; [tauto|]. intros [? ?]. split; [|tauto].
    apply (in_map fst) in Hin. exact Hin.
Qed.

End ZeroRatio.

Section ZeroRatioRuns.
Import StatsHelper.

(** The theorem on the ratios of the repository's test: the entry of
    [ESCATTER11.FULLERTON.EDU/NFS] is [0.0]. *)
Lemma zero_ratio_treated_as_missing_witness :
  let nfs := mkProjectStats [] [] (<["AVGCREDITPERHOUR" := 7%Q]> ∅) in
  let combined_stats := [("WORLDCOMMUNITYGRID.ORG", nfs); ("ESCATTER11.FULLERTON.EDU/NFS", nfs)] in
  let mag_ratios : gmap string Q :=
    <["WORLDCOMMUNITYGRID.ORG" := (1 # 100)%Q]> (<["ESCATTER11.FULLERTON.EDU/NFS" := 0%Q]> ∅) in
  add_mag_to_combined_stats combined_stats (Some mag_ratios) ["WORLDCOMMUNITYGRID.ORG"] []
  = add_mag_to_combined_stats combined_stats
      (Some (delete "ESCATTER11.FULLERTON.EDU/NFS" mag_ratios)) ["WORLDCOMMUNITYGRID.ORG"] [].
Proof.
  intros nfs combined_stats mag_ratios.
  refine (proj1 (zero_ratio_treated_as_missing combined_stats mag_ratios
                   ["WORLDCOMMUNITYGRID.ORG"] [] "ESCATTER11.FULLERTON.EDU/NFS" 0%Q nfs
                   _ _ _)).
  - reflexivity.
  - reflexivity.
  - right. left. reflexivity.
Defined.

End ZeroRatioRuns.

(** ** The most efficient projects *)

Section Dictionaries.

Lemma dict_get_In {V : Type} (d : list (string * V)) (k : string) (v : V) :
  dict_get d k = Some v -> In (k, v) d.
Proof.
  induction d as [|[k' v'] d IH]; cbn [dict_get]; [discriminate|].
  destruct (String.eqb_spec k k') as [-> | Hne].
  - intros [= ->]. left. reflexivity.
  - intros H. right. apply IH. exact H.
Qed.

Lemma dict_get_NoDup {V : Type} (d : list (string * V)) (k : string) (v : V) :
  List.NoDup (List.map fst d) -> In (k, v) d -> dict_get d k = Some v.
Proof.
  induction d as [|[k' v'] d IH]; cbn [dict_get List.map fst In]; [tauto|].
  intros Hnodup Hin. apply NoDup_cons_iff in Hnodup as [Hfresh Hnodup].
  destruct Hin as [[= -> ->] | Hin].
  - rewrite String.eqb_refl. reflexivity.
  - destruct (String.eqb_spec k k') as [-> | Hne].
    + exfalso. apply Hfresh. apply (in_map fst) in Hin. exact Hin.
    + apply IH; assumption.
Qed.

Lemma in_strs_In (x : string) (l : list string) : in_strs x l = true <-> In x l.
Proof.
  induction l as [|y l IH]; cbn [in_strs In]; [split; [discriminate | tauto]|].
  rewrite orb_true_iff, IH. destruct (String.eqb_spec x y) as [-> | Hne].
  - split; auto.
  - split; intros [H | H]; auto; congruence.
Qed.

End Dictionaries.

Section Numbers.
Import StatsHelper.

Lemma Qgt_bool_true (x y : Q) : Qgt_bool x y = true -> (y < x)%Q.
Proof.
  unfold Qgt_bool. intros H. apply negb_true_iff in H.
  apply Qnot_le_lt. intros Hle. apply Qle_bool_iff in Hle. congruence.
Qed.

Lemma Qgt_bool_false (x y : Q) : Qgt_bool x y = false -> (x <= y)%Q.
Proof.
  unfold Qgt_bool. intros H. apply negb_false_iff in H. apply Qle_bool_iff. exact H.
Qed.

(** [int(x) >= 10] implies [x >= 10]. *)
Lemma int_of_num_ge_10 (x : Q) : 10 <= int_of_num x -> (10 <= x)%Q.
Proof.
  unfold int_of_num, Qle. destruct x as [n d]. cbn [Qnum Qden]. intros H.
  assert (Hn : 0 <= n).
  { destruct (Z.le_gt_cases 0 n) as [? | Hneg]; [assumption|].
    pose proof (Z.quot_opp_l n (Zpos d) ltac:(lia)) as Hopp.
    pose proof (Z.quot_pos (- n) (Zpos d) ltac:(lia) ltac:(lia)). lia. }
  rewrite Z.quot_div_nonneg in H by lia.
  pose proof (Z.mul_div_le n (Zpos d) ltac:(lia)). nia.
Qed.

End Numbers.

Section Scheduler.
Import StatsHelper.

Variable combinedstats : list (string * ProjectStats).
Variable ignored_projects : list string.
Hypothesis unique_keys : List.NoDup (List.map fst combinedstats).

Lemma stats_get_entry (project_url : string) (project_stats : ProjectStats) :
  In (project_url, project_stats) combinedstats ->
  stats_get combinedstats project_url = Ok project_stats.
Proof.
  intros Hin. unfold stats_get.
  rewrite (dict_get_NoDup _ _ _ unique_keys Hin). reflexivity.
Qed.

Lemma stats_get_In (project_url : string) (project_stats : ProjectStats) :
  stats_get combinedstats project_url = Ok project_stats ->
  In (project_url, project_stats) combinedstats.
Proof.
  unfold stats_get. destruct (dict_get combinedstats project_url) eqn:Hget; [|discriminate].
  intros [= <-]. apply dict_get_In. exact Hget.
Qed.

Lemma eligible_not_ignored (project_url : string) (project_stats : ProjectStats) :
  is_project_eligible project_url project_stats ignored_projects = true ->
  in_strs project_url ignored_projects = false.
Proof.
  unfold is_project_eligible. destruct (in_strs project_url ignored_projects); [discriminate|].
  reflexivity.
Qed.

Lemma eligible_tasks (project_url : string) (project_stats : ProjectStats) (tasks : Q) :
  is_project_eligible project_url project_stats ignored_projects = true ->
  compiled_get (COMPILED_STATS project_stats) "TOTALTASKS" = Ok tasks ->
  Qle_bool 10 tasks = true.
Proof.
  unfold is_project_eligible. destruct (in_strs project_url ignored_projects); [discriminate|].
  intros H Hget. rewrite Hget in H.
  destruct (10 <=? int_of_num tasks) eqn:Hten; [|discriminate].
  apply Qle_bool_iff, int_of_num_ge_10, Z.leb_le. exact Hten.
Qed.

Lemma first_non_ignored_Some (project_list : list string) (first : string) :
  get_first_non_ignored_project project_list ignored_projects = Some first ->
  In first project_list /\ in_strs first ignored_projects = false.
Proof.
  induction project_list as [|p l IH]; cbn [get_first_non_ignored_project]; [discriminate|].
  destruct (in_strs p ignored_projects) eqn:Hp; cbn [negb].
  - intros H. destruct (IH H). split; [right|]; assumption.
  - intros [= <-]. split; [left; reflexivity | exact Hp].
Qed.

Lemma first_non_ignored_None (project_list : list string) (p : string) :
  get_first_non_ignored_project project_list ignored_projects = None ->
  In p project_list -> in_strs p ignored_projects = true.
Proof.
  induction project_list as [|q l IH]; cbn [get_first_non_ignored_project In]; [tauto|].
  destruct (in_strs q ignored_projects) eqn:Hq; cbn [negb]; [|discriminate].
  intros H [<- | Hin]; [exact Hq | exact (IH H Hin)].
Qed.

(** The first loop ends on a project whose magnitude per hour bounds that
    of the project it started from and of every eligible project it went
    through. *)
Lemma find_highest_bounds (items : list (string * ProjectStats)) :
  incl items combinedstats ->
  forall (start highest : string) (highest_stats : ProjectStats) (top : Q),
    find_highest combinedstats items ignored_projects start = Ok highest ->
    stats_get combinedstats highest = Ok highest_stats ->
    avg_mag_per_hour highest_stats = Ok top ->
    (forall start_stats m,
        stats_get combinedstats start = Ok start_stats ->
        avg_mag_per_hour start_stats = Ok m -> (m <= top)%Q)
    /\ (forall project_url project_stats m,
           In (project_url, project_stats) items ->
           is_project_eligible project_url project_stats ignored_projects = true ->
           avg_mag_per_hour project_stats = Ok m -> (m <= top)%Q).
Proof.
  induction items as [|[url stats] rest IH];
    intros Hincl start highest highest_stats top Hfind Hstats Htop.
  - cbn in Hfind. injection Hfind as <-. split.
    + intros start_stats m Hs Hm. rewrite Hstats in Hs. injection Hs as <-.
      rewrite Htop in Hm. injection Hm as <-. apply Qle_refl.
    + intros ? ? ? [].
  - assert (Hrest : incl rest combinedstats) by (intros x Hx; apply Hincl; right; exact Hx).
    assert (Hentry : stats_get combinedstats url = Ok stats)
      by (apply stats_get_entry, Hincl; left; reflexivity).
    cbn [find_highest] in Hfind.
    destruct (in_strs url ignored_projects) eqn:Hignored.
    + destruct (IH Hrest _ _ _ _ Hfind Hstats Htop) as [Hstart Hbound].
      split; [exact Hstart|].
      intros p s m [[= <- <-] | Hin] Heligible Hm; [|exact (Hbound _ _ _ Hin Heligible Hm)].
      apply eligible_not_ignored in Heligible. congruence.
    + fold (avg_mag_per_hour stats) in Hfind.
      apply bind_Ok in Hfind as (current & Hcurrent & Hfind).
      apply bind_Ok in Hfind as (start_stats & Hstart_stats & Hfind).
      fold (avg_mag_per_hour start_stats) in Hfind.
      apply bind_Ok in Hfind as (high & Hhigh & Hfind).
      destruct (Qgt_bool current high && is_project_eligible url stats ignored_projects)
        eqn:Hbetter.
      * apply andb_true_iff in Hbetter as [Hgt Heligible]. apply Qgt_bool_true in Hgt.
        destruct (IH Hrest _ _ _ _ Hfind Hstats Htop) as [Hstart Hbound].
        pose proof (Hstart _ _ Hentry Hcurrent) as Hcur.
        split.
        -- intros s m Hs Hm. rewrite Hstart_stats in Hs. injection Hs as <-.
           rewrite Hhigh in Hm. injection Hm as <-.
           apply Qlt_le_weak. eapply Qlt_le_trans; eassumption.
        -- intros p s m [[= <- <-] | Hin] Hel Hm; [|exact (Hbound _ _ _ Hin Hel Hm)].
           rewrite Hcurrent in Hm. injection Hm as <-. exact Hcur.
      * destruct (IH Hrest _ _ _ _ Hfind Hstats Htop) as [Hstart Hbound].
        split; [exact Hstart|].
        intros p s m [[= <- <-] | Hin] Hel Hm; [|exact (Hbound _ _ _ Hin Hel Hm)].
        rewrite Hcurrent in Hm. injection Hm as <-.
        rewrite Hel, andb_true_r in Hbetter. apply Qgt_bool_false in Hbetter.
        eapply Qle_trans; [exact Hbetter|]. exact (Hstart _ _ Hstart_stats Hhigh).
Qed.

(** The second loop appends exactly the other eligible projects whose
    magnitude per hour is not zero and reaches the minimum. *)
Lemma within_percentdiff_sound (highest : string) (minimum : Q)
    (items : list (string * ProjectStats)) :
  forall more : list string,
    within_percentdiff items ignored_projects highest minimum = Ok more ->
    forall project_url,
      In project_url more ->
      exists project_stats m,
        In (project_url, project_stats) items
        /\ avg_mag_per_hour project_stats = Ok m
        /\ (minimum <= m)%Q
        /\ is_project_eligible project_url project_stats ignored_projects = true.
Proof.
  induction items as [|[url stats] rest IH]; intros more Hrun p Hin.
  - injection Hrun as <-. destruct Hin.
  - cbn [within_percentdiff] in Hrun. fold (avg_mag_per_hour stats) in Hrun.
    apply bind_Ok in Hrun as (current & Hcurrent & Hrun).
    assert (Hlater : forall more',
               within_percentdiff rest ignored_projects highest minimum = Ok more' ->
               In p more' ->
               exists project_stats m,
                 In (p, project_stats) ((url, stats) :: rest)
                 /\ avg_mag_per_hour project_stats = Ok m
                 /\ (minimum <= m)%Q
                 /\ is_project_eligible p project_stats ignored_projects = true).
    { intros more' Hrest Hin'. destruct (IH _ Hrest _ Hin') as (s & m & Hs & Hm).
      exists s, m. split; [right; exact Hs | exact Hm]. }
    destruct (String.eqb url highest); [exact (Hlater _ Hrun Hin)|].
    destruct (in_strs url ignored_projects); [exact (Hlater _ Hrun Hin)|].
    destruct (Qle_bool minimum current
              && is_project_eligible url stats ignored_projects
              && negb (Qeq_bool current 0)) eqn:Hjoin; [|exact (Hlater _ Hrun Hin)].
    apply bind_Ok in Hrun as (more' & Hrest & [= <-]).
    destruct Hin as [<- | Hin]; [|exact (Hlater _ Hrest Hin)].
    apply andb_true_iff in Hjoin as [Hjoin _].
    apply andb_true_iff in Hjoin as [Hmin Heligible]. apply Qle_bool_iff in Hmin.
    exists stats, current. split; [left; reflexivity|]. repeat split; assumption.
Qed.

(** The first loop ends on the project it started from or on an eligible
    project it went through. *)
Lemma find_highest_origin (items : list (string * ProjectStats)) (start highest : string) :
  find_highest combinedstats items ignored_projects start = Ok highest ->
  highest = start
  \/ exists project_stats,
       In (highest, project_stats) items
       /\ is_project_eligible highest project_stats ignored_projects = true.
Proof.
  revert start. induction items as [|[url stats] rest IH]; intros start Hfind.
  - injection Hfind as <-. now left.
  - cbn [find_highest] in Hfind.
    assert (Hlater : forall s,
              find_highest combinedstats rest ignored_projects s = Ok highest ->
              highest = s
              \/ exists project_stats,
                   In (highest, project_stats) ((url, stats) :: rest)
                   /\ is_project_eligible highest project_stats ignored_projects = true).
    { intros s Hs. destruct (IH s Hs) as [->|(st & Hin & Hel)]; [now left|].
      right. exists st. split; [now right | exact Hel]. }
    destruct (in_strs url ignored_projects); [exact (Hlater _ Hfind)|].
    apply bind_Ok in Hfind as (current & _ & Hfind).
    apply bind_Ok in Hfind as (highest_stats & _ & Hfind).
    apply bind_Ok in Hfind as (highest_mag & _ & Hfind).
    destruct (Qgt_bool current highest_mag); cbn [andb] in Hfind; [|exact (Hlater _ Hfind)].
    destruct (is_project_eligible url stats ignored_projects) eqn:Heligible;
      [|exact (Hlater _ Hfind)].
    destruct (Hlater _ Hfind) as [->|Hother]; [|right; exact Hother].
    right. exists stats. split; [now left | exact Heligible].
Qed.

(** The second loop appends, in the order of the table, exactly the
    projects other than the highest one that are eligible and whose
    magnitude per hour is not zero and reaches the minimum. *)
Lemma within_percentdiff_filter (highest : string) (minimum : Q)
    (items : list (string * ProjectStats)) :
  forall more : list string,
    within_percentdiff items ignored_projects highest minimum = Ok more ->
    more = List.map fst
             (List.filter
                (fun entry =>
                   negb (String.eqb (fst entry) highest)
                   && is_project_eligible (fst entry) (snd entry) ignored_projects
                   && match avg_mag_per_hour (snd entry) with
                      | Ok m => Qle_bool minimum m && negb (Qeq_bool m 0)
                      | Raise _ => false
                      end) items).
Proof.
  induction items as [|[url stats] rest IH]; intros more Hrun.
  - injection Hrun as <-. reflexivity.
  - cbn [within_percentdiff] in Hrun. fold (avg_mag_per_hour stats) in Hrun.
    apply bind_Ok in Hrun as (current & Hcurrent & Hrun).
    cbn [List.filter fst snd]. rewrite Hcurrent.
    destruct (String.eqb url highest); cbn [negb andb]; [exact (IH _ Hrun)|].
    destruct (in_strs url ignored_projects) eqn:Hignored.
    + unfold is_project_eligible at 1. rewrite Hignored. cbn [andb]. exact (IH _ Hrun).
    + destruct (is_project_eligible url stats ignored_projects);
        destruct (Qle_bool minimum current);
        destruct (Qeq_bool current 0); cbn [negb andb] in *;
        try exact (IH _ Hrun);
        apply bind_Ok in Hrun as (more' & Hrest & [= <-]);
        cbn [List.map fst]; f_equal; exact (IH _ Hrest).
Qed.

(** Where the first loop ends.  It stays on the project it started from
    unless it meets an eligible project with a strictly higher magnitude
    per hour; it then ends on the first of the eligible projects that have
    the highest magnitude per hour. *)
Lemma find_highest_position (items : list (string * ProjectStats)) :
  incl items combinedstats ->
  forall (start highest : string) (highest_stats : ProjectStats) (top : Q),
    find_highest combinedstats items ignored_projects start = Ok highest ->
    stats_get combinedstats highest = Ok highest_stats ->
    avg_mag_per_hour highest_stats = Ok top ->
    highest = start
    \/ exists before after,
         items = (before ++ (highest, highest_stats) :: after)%list
         /\ is_project_eligible highest highest_stats ignored_projects = true
         /\ (forall start_stats m,
                stats_get combinedstats start = Ok start_stats ->
                avg_mag_per_hour start_stats = Ok m -> (m < top)%Q)
         /\ (forall q st m,
                In (q, st) before ->
                is_project_eligible q st ignored_projects = true ->
                avg_mag_per_hour st = Ok m -> (m < top)%Q).
Proof.
  induction items as [|[url stats] rest IH];
    intros Hincl start highest highest_stats top Hfind Hstats Htop.
  - cbn in Hfind. injection Hfind as <-. left. reflexivity.
  - assert (Hrest : incl rest combinedstats) by (intros x Hx; apply Hincl; right; exact Hx).
    assert (Hentry : stats_get combinedstats url = Ok stats)
      by (apply stats_get_entry, Hincl; left; reflexivity).
    cbn [find_highest] in Hfind.
    destruct (in_strs url ignored_projects) eqn:Hignored.
    + destruct (IH Hrest _ _ _ _ Hfind Hstats Htop)
        as [-> | (before & after & -> & Heligible & Hstart & Hbefore)];
        [left; reflexivity | right].
      exists ((url, stats) :: before), after.
      split; [reflexivity|]. split; [exact Heligible|]. split; [exact Hstart|].
      intros q st m [[= <- <-] | Hin] Hel Hm; [|exact (Hbefore _ _ _ Hin Hel Hm)].
      apply eligible_not_ignored in Hel. congruence.
    + fold (avg_mag_per_hour stats) in Hfind.
      apply bind_Ok in Hfind as (current & Hcurrent & Hfind).
      apply bind_Ok in Hfind as (start_stats & Hstart_stats & Hfind).
      fold (avg_mag_per_hour start_stats) in Hfind.
      apply bind_Ok in Hfind as (high & Hhigh & Hfind).
      destruct (Qgt_bool current high && is_project_eligible url stats ignored_projects)
        eqn:Hbetter.
      * apply andb_true_iff in Hbetter as [Hgt Heligible]. apply Qgt_bool_true in Hgt.
        right.
        destruct (IH Hrest _ _ _ _ Hfind Hstats Htop)
          as [-> | (before & after & -> & Hel & Hstart & Hbefore)].
        -- rewrite Hentry in Hstats. injection Hstats as <-.
           rewrite Hcurrent in Htop. injection Htop as <-.
           exists [], rest. split; [reflexivity|]. split; [exact Heligible|].
           split; [|intros q st m []].
           intros s m Hs Hm. rewrite Hstart_stats in Hs. injection Hs as <-.
           rewrite Hhigh in Hm. injection Hm as <-. exact Hgt.
        -- pose proof (Hstart _ _ Hentry Hcurrent) as Hcur.
           exists ((url, stats) :: before), after.
           split; [reflexivity|]. split; [exact Hel|]. split.
           ++ intros s m Hs Hm. rewrite Hstart_stats in Hs. injection Hs as <-.
              rewrite Hhigh in Hm. injection Hm as <-.
              eapply Qlt_trans; eassumption.
           ++ intros q st m [[= <- <-] | Hin] Helq Hm; [|exact (Hbefore _ _ _ Hin Helq Hm)].
              rewrite Hcurrent in Hm. injection Hm as <-. exact Hcur.
      * destruct (IH Hrest _ _ _ _ Hfind Hstats Htop)
          as [-> | (before & after & -> & Hel & Hstart & Hbefore)];
          [left; reflexivity | right].
        exists ((url, stats) :: before), after.
        split; [reflexivity|]. split; [exact Hel|]. split; [exact Hstart|].
        intros q st m [[= <- <-] | Hin] Helq Hm; [|exact (Hbefore _ _ _ Hin Helq Hm)].
        rewrite Hcurrent in Hm. injection Hm as <-.
        rewrite Helq, andb_true_r in Hbetter. apply Qgt_bool_false in Hbetter.
        eapply Qle_lt_trans; [exact Hbetter|]. exact (Hstart _ _ Hstart_stats Hhigh).
Qed.

End Scheduler.

Section MostEfficient.
Import StatsHelper.

Variable combinedstats : list (string * ProjectStats).
Variable ignored_projects : list string.
Hypothesis unique_keys : List.NoDup (List.map fst combinedstats).

(** What a successful call of [get_most_mag_efficient_projects] went
    through.  Either no project is left after the ignored ones, or the
    first of them has the empty key, and the list is empty; or the first
    loop ends on a leader and the second loop runs with the threshold
    computed from the leader's magnitude per hour, the list being emptied
    when the leader stands alone with fewer than ten tasks. *)
Lemma get_most_mag_efficient_projects_outcome (percentdiff : Z) (returned : list string) :
  get_most_mag_efficient_projects combinedstats ignored_projects percentdiff = Ok returned ->
  (returned = []
   /\ (get_first_non_ignored_project (List.map fst combinedstats) ignored_projects = None
       \/ get_first_non_ignored_project (List.map fst combinedstats) ignored_projects
          = Some ""))
  \/ exists (first leader : string) (leader_stats : ProjectStats) (top tasks : Q)
            (more : list string),
      get_first_non_ignored_project (List.map fst combinedstats) ignored_projects = Some first
      /\ In (leader, leader_stats) combinedstats
      /\ in_strs leader ignored_projects = false
      /\ avg_mag_per_hour leader_stats = Ok top
      /\ compiled_get (COMPILED_STATS leader_stats) "TOTALTASKS" = Ok tasks
      /\ (forall st m,
             In (first, st) combinedstats -> avg_mag_per_hour st = Ok m -> (m <= top)%Q)
      /\ (forall q st m,
             In (q, st) combinedstats ->
             is_project_eligible q st ignored_projects = true ->
             avg_mag_per_hour st = Ok m -> (m <= top)%Q)
      /\ (leader = first
          \/ exists before after,
               combinedstats = (before ++ (leader, leader_stats) :: after)%list
               /\ is_project_eligible leader leader_stats ignored_projects = true
               /\ (forall st m,
                      In (first, st) combinedstats ->
                      avg_mag_per_hour st = Ok m -> (m < top)%Q)
               /\ (forall q st m,
                      In (q, st) before ->
                      is_project_eligible q st ignored_projects = true ->
                      avg_mag_per_hour st = Ok m -> (m < top)%Q))
      /\ within_percentdiff combinedstats ignored_projects leader
           (top - top * (inject_Z percentdiff / 100))%Q = Ok more
      /\ returned = match more with
                    | [] => if Qle_bool 10 tasks then [leader] else []
                    | _ :: _ => leader :: more
                    end.
Proof.
  unfold get_most_mag_efficient_projects. cbv zeta.
  destruct (get_first_non_ignored_project (List.map fst combinedstats) ignored_projects)
    as [first|] eqn:Hfirst.
  2: { intros [= <-]. left. split; [reflexivity | left; reflexivity]. }
  destruct (String.eqb_spec first "") as [-> | _].
  { intros [= <-]. left. split; [reflexivity | right; reflexivity]. }
  intros Hrun. right.
  apply first_non_ignored_Some in Hfirst as Hkept. destruct Hkept as [_ Hkept].
  apply bind_Ok in Hrun as (leader & Hfind & Hrun).
  apply bind_Ok in Hrun as (leader_stats & Hstats & Hrun).
  apply bind_Ok in Hrun as (tasks & Htasks & Hrun).
  fold (avg_mag_per_hour leader_stats) in Hrun.
  apply bind_Ok in Hrun as (top & Htop & Hrun).
  apply bind_Ok in Hrun as (more & Hmore & Hrun).
  pose proof (stats_get_In _ _ _ Hstats) as Hleader.
  destruct (find_highest_bounds combinedstats ignored_projects unique_keys combinedstats
              (incl_refl _) first leader leader_stats top Hfind Hstats Htop)
    as [Hstart Hbound].
  pose proof (find_highest_position combinedstats ignored_projects unique_keys combinedstats
                (incl_refl _) first leader leader_stats top Hfind Hstats Htop) as Hposition.
  exists first, leader, leader_stats, top, tasks, more.
  split; [reflexivity|]. split; [exact Hleader|].
  split; [destruct Hposition as [-> | (_ & _ & _ & Heligible & _)];
          [exact Hkept | exact (eligible_not_ignored _ _ _ Heligible)]|].
  split; [exact Htop|]. split; [exact Htasks|].
  split; [intros st m Hin Hm; exact (Hstart st m (stats_get_entry _ unique_keys _ _ Hin) Hm)|].
  split; [exact Hbound|].
  split.
  { destruct Hposition as [-> | (before & after & Hsplit & Heligible & Hbelow & Hbefore)];
      [left; reflexivity | right].
    exists before, after. split; [exact Hsplit|]. split; [exact Heligible|].
    split; [|exact Hbefore].
    intros st m Hin Hm. exact (Hbelow st m (stats_get_entry _ unique_keys _ _ Hin) Hm). }
  split; [exact Hmore|].
  change ([leader] ++ more)%list with (leader :: more) in Hrun.
  destruct more as [|q more]; cbn [List.length Nat.eqb] in Hrun.
  - rewrite Htasks in Hrun. cbn [bind] in Hrun.
    destruct (Qle_bool 10 tasks); congruence.
  - congruence.
Qed.

(** C6 (as the code has it).  At the percent tolerances 100 and 0, a call
    of [get_most_mag_efficient_projects] that returns gives the empty list
    when no project is left after the ignored ones (or the first of them
    has the empty key).  Otherwise there is a leader.  It is the first
    project not ignored, unless an eligible project has a strictly higher
    magnitude per hour: the leader is then the first, in the order of the
    table, of the eligible projects with the highest magnitude per hour.
    The list is the leader followed, in the order of the table, by every
    other eligible project whose magnitude per hour is positive, at
    tolerance 100, or is the leader's and not zero, at tolerance 0; when no
    project follows and the leader has fewer than ten tasks, the list is
    empty.  At these two tolerances the threshold
    [highest - highest * (percentdiff / 100)] of a finite [highest] is 0
    and [highest] in binary64 as in exact arithmetic. *)
Theorem most_mag_efficient_projects_at_100_and_0 (percentdiff : Z) (returned : list string) :
  percentdiff = 100 \/ percentdiff = 0 ->
  get_most_mag_efficient_projects combinedstats ignored_projects percentdiff = Ok returned ->
  (returned = []
   /\ (get_first_non_ignored_project (List.map fst combinedstats) ignored_projects = None
       \/ get_first_non_ignored_project (List.map fst combinedstats) ignored_projects
          = Some ""))
  \/ exists (first leader : string) (leader_stats : ProjectStats) (top tasks : Q),
      get_first_non_ignored_project (List.map fst combinedstats) ignored_projects = Some first
      /\ In (leader, leader_stats) combinedstats
      /\ in_strs leader ignored_projects = false
      /\ avg_mag_per_hour leader_stats = Ok top
      /\ compiled_get (COMPILED_STATS leader_stats) "TOTALTASKS" = Ok tasks
      /\ (forall st m,
             In (first, st) combinedstats -> avg_mag_per_hour st = Ok m -> (m <= top)%Q)
      /\ (forall q st m,
             In (q, st) combinedstats ->
             is_project_eligible q st ignored_projects = true ->
             avg_mag_per_hour st = Ok m -> (m <= top)%Q)
      /\ (leader = first
          \/ exists before after,
               combinedstats = (before ++ (leader, leader_stats) :: after)%list
               /\ is_project_eligible leader leader_stats ignored_projects = true
               /\ (forall st m,
                      In (first, st) combinedstats ->
                      avg_mag_per_hour st = Ok m -> (m < top)%Q)
               /\ (forall q st m,
                      In (q, st) before ->
                      is_project_eligible q st ignored_projects = true ->
                      avg_mag_per_hour st = Ok m -> (m < top)%Q))
      /\ returned
         = match List.map fst
                   (List.filter
                      (fun entry =>
                         negb (String.eqb (fst entry) leader)
                         && is_project_eligible (fst entry) (snd entry) ignored_projects
                         && match avg_mag_per_hour (snd entry) with
                            | Ok m =>
                                (if percentdiff =? 100
                                 then negb (Qle_bool m 0)
                                 else Qeq_bool m top && negb (Qeq_bool m 0))
                            | Raise _ => false
                            end) combinedstats) with
           | [] => if Qle_bool 10 tasks then [leader] else []
           | follower :: followers => leader :: follower :: followers
           end.
Proof.
  intros Htolerance Hrun.
  apply get_most_mag_efficient_projects_outcome in Hrun as
    [Hempty | (first & leader & leader_stats & top & tasks & more
               & Hfirst & Hleader & Hkept & Htop & Htasks & Hstart & Hbound & Hposition
               & Hmore & Hlist)]; [left; exact Hempty | right].
  exists first, leader, leader_stats, top, tasks.
  repeat (split; [assumption|]).
  apply within_percentdiff_filter in Hmore.
  assert (Hsame :
    List.filter
      (fun entry =>
         negb (String.eqb (fst entry) leader)
         && is_project_eligible (fst entry) (snd entry) ignored_projects
         && match avg_mag_per_hour (snd entry) with
            | Ok m => Qle_bool (top - top * (inject_Z percentdiff / 100)) m
                      && negb (Qeq_bool m 0)
            | Raise _ => false
            end) combinedstats
    = List.filter
        (fun entry =>
           negb (String.eqb (fst entry) leader)
           && is_project_eligible (fst entry) (snd entry) ignored_projects
           && match avg_mag_per_hour (snd entry) with
              | Ok m =>
                  (if percentdiff =? 100
                   then negb (Qle_bool m 0)
                   else Qeq_bool m top && negb (Qeq_bool m 0))
              | Raise _ => false
              end) combinedstats).
  { apply List.filter_ext_in. intros [q st] Hin. cbn [fst snd].
    destruct (negb (String.eqb q leader)); cbn [andb]; [|reflexivity].
    destruct (is_project_eligible q st ignored_projects) eqn:Heligible; cbn [andb];
      [|reflexivity].
    destruct (avg_mag_per_hour st) as [m|e] eqn:Hm; [|reflexivity].
    pose proof (Hbound q st m Hin Heligible Hm) as Hle.
    destruct Htolerance as [-> | ->]; cbn [Z.eqb Pos.eqb].
    - assert (Hzero : (top - top * (inject_Z 100 / 100) == 0)%Q)
        by (change (inject_Z 100 / 100)%Q with (1 * 100 / 100)%Q; field).
      rewrite Hzero.
      destruct (Qeq_bool m 0) eqn:Hz; cbn [negb].
      + apply Qeq_bool_iff in Hz. rewrite andb_false_r. symmetry.
        apply negb_false_iff, Qle_bool_iff. rewrite Hz. apply Qle_refl.
      + rewrite andb_true_r.
        destruct (Qle_bool 0 m) eqn:Hpos; destruct (Qle_bool m 0) eqn:Hneg;
          cbn [negb]; try reflexivity; exfalso.
        * apply Qle_bool_iff in Hpos, Hneg.
          apply Qeq_bool_neq in Hz. apply Hz. apply Qle_antisym; assumption.
        * destruct (Qlt_le_dec m 0) as [Hlt | Hge].
          -- apply Qlt_le_weak, Qle_bool_iff in Hlt. congruence.
          -- apply Qle_bool_iff in Hge. congruence.
    - assert (Hmin : (top - top * (inject_Z 0 / 100) == top)%Q)
        by (change (inject_Z 0 / 100)%Q with (0 / 100)%Q; field).
      rewrite Hmin. f_equal.
      destruct (Qle_bool top m) eqn:Hge; destruct (Qeq_bool m top) eqn:Heq;
        try reflexivity; exfalso.
      + apply Qle_bool_iff in Hge. apply Qeq_bool_neq in Heq. apply Heq.
        apply Qle_antisym; assumption.
      + apply Qeq_bool_iff in Heq.
        assert (Hle' : (top <= m)%Q) by (rewrite Heq; apply Qle_refl).
        apply Qle_bool_iff in Hle'. congruence. }
  rewrite <- Hsame, <- Hmore. destruct more; exact Hlist.
Qed.

End MostEfficient.

Section MostEfficientRuns.
Import StatsHelper.

(** The theorem on the data of the repository's test, at tolerance 100:
    the leader is the first project and the one eligible project with a
    positive magnitude per hour follows it. *)
Lemma most_mag_efficient_projects_witness :
  let stats := fun (mag tasks : Q) =>
    mkProjectStats [] [] (<["AVGMAGPERHOUR" := mag]> (<["TOTALTASKS" := tasks]> ∅)) in
  let combinedstats :=
    [ ("WORLDCOMMUNITYGRID.ORG", stats 1%Q 20%Q);
      ("ESCATTER11.FULLERTON.EDU/NFS", stats 0%Q 10%Q);
      ("RECHENKRAFT.NET/YOYO", stats (91 # 100)%Q 20%Q);
      ("BOINC.MULTI-POOL.INFO/LATINSQUARES", stats 1%Q 20%Q) ] in
  let ignored_projects := ["BOINC.MULTI-POOL.INFO/LATINSQUARES"] in
  get_most_mag_efficient_projects combinedstats ignored_projects 100
  = Ok ["WORLDCOMMUNITYGRID.ORG"; "RECHENKRAFT.NET/YOYO"]
  /\ exists (leader : string) (leader_stats : ProjectStats) (top tasks : Q),
       In (leader, leader_stats) combinedstats
       /\ avg_mag_per_hour leader_stats = Ok top
       /\ compiled_get (COMPILED_STATS leader_stats) "TOTALTASKS" = Ok tasks
       /\ ["WORLDCOMMUNITYGRID.ORG"; "RECHENKRAFT.NET/YOYO"]
          = match List.map fst
                    (List.filter
                       (fun entry =>
                          negb (String.eqb (fst entry) leader)
                          && is_project_eligible (fst entry) (snd entry) ignored_projects
                          && match avg_mag_per_hour (snd entry) with
                             | Ok m => negb (Qle_bool m 0)
                             | Raise _ => false
                             end) combinedstats) with
            | [] => if Qle_bool 10 tasks then [leader] else []
            | follower :: followers => leader :: follower :: followers
            end.
Proof.
  intros stats combinedstats ignored_projects.
  assert (Hrun : get_most_mag_efficient_projects combinedstats ignored_projects 100
                 = Ok ["WORLDCOMMUNITYGRID.ORG"; "RECHENKRAFT.NET/YOYO"])
    by (vm_compute; reflexivity).
  assert (Hkeys : List.NoDup (List.map fst combinedstats))
    by (repeat constructor; cbn; intuition discriminate).
  split; [exact Hrun|].
  destruct (most_mag_efficient_projects_at_100_and_0 combinedstats ignored_projects Hkeys
              100 _ (or_introl eq_refl) Hrun)
    as [[Hempty _] | (first & leader & leader_stats & top & tasks
                      & _ & Hleader & _ & Htop & Htasks & _ & _ & _ & Hlist)];
    [discriminate Hempty|].
  exists leader, leader_stats, top, tasks.
  split; [exact Hleader|]. split; [exact Htop|]. split; [exact Htasks | exact Hlist].
Defined.

(** C6 as stated fails at both tolerances.  At tolerance 100, on the data
    of the repository's test, [ESCATTER11.FULLERTON.EDU/NFS] is eligible
    (ten tasks, not ignored) and is not returned: its magnitude per hour is
    zero.  At tolerance 0, with a first project of three tasks and the
    highest magnitude per hour, and an eligible project behind it, nothing
    is returned: neither the project with the highest magnitude per hour
    nor the eligible one. *)
Lemma most_mag_efficient_projects_leave_eligible_out :
  let stats := fun (mag tasks : Q) =>
    mkProjectStats [] [] (<["AVGMAGPERHOUR" := mag]> (<["TOTALTASKS" := tasks]> ∅)) in
  let combinedstats :=
    [ ("WORLDCOMMUNITYGRID.ORG", stats 1%Q 20%Q);
      ("ESCATTER11.FULLERTON.EDU/NFS", stats 0%Q 10%Q);
      ("RECHENKRAFT.NET/YOYO", stats (91 # 100)%Q 20%Q);
      ("BOINC.MULTI-POOL.INFO/LATINSQUARES", stats 1%Q 20%Q) ] in
  let ignored_projects := ["BOINC.MULTI-POOL.INFO/LATINSQUARES"] in
  let two_projects := [ ("A", stats 5%Q 3%Q); ("B", stats 1%Q 20%Q) ] in
  (is_project_eligible "ESCATTER11.FULLERTON.EDU/NFS" (stats 0%Q 10%Q) ignored_projects = true
   /\ get_most_mag_efficient_projects combinedstats ignored_projects 100
      = Ok ["WORLDCOMMUNITYGRID.ORG"; "RECHENKRAFT.NET/YOYO"]
   /\ in_strs "ESCATTER11.FULLERTON.EDU/NFS"
        ["WORLDCOMMUNITYGRID.ORG"; "RECHENKRAFT.NET/YOYO"] = false)
  /\ (is_project_eligible "B" (stats 1%Q 20%Q) [] = true
      /\ is_project_eligible "A" (stats 5%Q 3%Q) [] = false
      /\ get_most_mag_efficient_projects two_projects [] 0 = Ok []).
Proof. vm_compute. repeat split. Qed.

End MostEfficientRuns.

(** ** Columns of the status table *)

Section Columns.
Import utils.

Lemma length_append (a b : string) :
  String.length (a ++ b) = (String.length a + String.length b)%nat.
Proof. induction a as [|c a IH]; simpl; [reflexivity | now rewrite IH]. Qed.

Lemma length_substring_0 (n : nat) (s : string) :
  String.length (String.substring 0 n s) = Nat.min n (String.length s).
Proof.
  revert n. induction s as [|c s IH]; intros [|n]; cbn; try reflexivity.
  now rewrite IH.
Qed.

Lemma substring_0_all (n : nat) (s : string) :
  (String.length s <= n)%nat -> String.substring 0 n s = s.
Proof.
  revert n. induction s as [|c s IH]; intros [|n] Hn; cbn in *; try reflexivity; try lia.
  rewrite IH by lia. reflexivity.
Qed.

Lemma length_repeat_nat_space (n : nat) : String.length (repeat_nat " " n) = n.
Proof.
  induction n as [|n IH]; [reflexivity|].
  change (repeat_nat " " (S n)) with (" " ++ repeat_nat " " n).
  rewrite length_append, IH. reflexivity.
Qed.

Lemma str_len_append (a b : string) : str_len (a ++ b) = str_len a + str_len b.
Proof. unfold str_len. rewrite length_append. lia. Qed.

Lemma str_len_repeat_space (n : Z) : 0 <= n -> str_len (repeat_str " " n) = n.
Proof. intros Hn. unfold str_len, repeat_str. rewrite length_repeat_nat_space. lia. Qed.

Lemma str_len_slice_to (s : string) (stop : Z) :
  0 <= stop -> str_len (slice_to s stop) = Z.min stop (str_len s).
Proof.
  intros Hstop. unfold slice_to.
  destruct (stop <? 0) eqn:Hneg; [lia|].
  unfold str_len. rewrite length_substring_0. lia.
Qed.

Lemma slice_to_all (s : string) (stop : Z) : str_len s <= stop -> 0 <= stop -> slice_to s stop = s.
Proof.
  intros Hlen Hstop. unfold slice_to.
  destruct (stop <? 0) eqn:Hneg; [lia|].
  apply substring_0_all. unfold str_len in *. lia.
Qed.

(** [left_align] gives a string of exactly [total_len] characters when
    [0 <= min_pad <= total_len]: the text, cut to [total_len - min_pad]
    characters when it is longer, followed by spaces, [min_pad] of them at
    least. *)
Theorem left_align_fills_the_column (yourstring : string) (total_len min_pad : Z) :
  0 <= min_pad -> min_pad <= total_len ->
  let kept := slice_to yourstring (total_len - min_pad) in
  left_align yourstring total_len min_pad = kept ++ repeat_str " " (total_len - str_len kept)
  /\ str_len (left_align yourstring total_len min_pad) = total_len
  /\ min_pad <= total_len - str_len kept.
Proof.
  intros Hpad Hlen kept.
  assert (Hkept : str_len kept = Z.min (total_len - min_pad) (str_len yourstring)).
  { apply str_len_slice_to. lia. }
  assert (Heq : left_align yourstring total_len min_pad
                = kept ++ repeat_str " " (total_len - str_len kept)).
  { unfold left_align.
    destruct (str_len yourstring >=? total_len - min_pad) eqn:Hlong.
    - fold kept. f_equal. f_equal. lia.
    - assert (Hsame : kept = yourstring) by (apply slice_to_all; lia).
      rewrite Hsame. f_equal. f_equal. lia. }
  split; [exact Heq|]. split; [|lia].
  rewrite Heq, str_len_append, str_len_repeat_space; lia.
Qed.

(** [center_align] gives a string of exactly [total_len] characters when
    [0 <= 2 * min_pad <= total_len]: the text, cut to
    [total_len - 2 * min_pad] characters when it is longer, between two
    runs of spaces.  The left run has [min_pad] spaces at least and the
    right run has as many as the left one, or one more.  The bound on
    [total_len] keeps [space_left / 2] exact as a float. *)
Theorem center_align_fills_the_column (yourstring : string) (total_len min_pad : Z) :
  0 <= min_pad -> min_pad * 2 <= total_len -> total_len <= 2 ^ 53 ->
  let kept := slice_to yourstring (total_len - min_pad * 2) in
  let left := (total_len - str_len kept) / 2 in
  let right := total_len - str_len kept - left in
  center_align yourstring total_len min_pad
    = repeat_str " " left ++ kept ++ repeat_str " " right
  /\ str_len (center_align yourstring total_len min_pad) = total_len
  /\ min_pad <= left
  /\ (right = left \/ right = left + 1).
Proof.
  intros Hpad Hlen _ kept left right.
  assert (Hkept : str_len kept = Z.min (total_len - min_pad * 2) (str_len yourstring)).
  { apply str_len_slice_to. lia. }
  assert (Hceil : ceil_half (total_len - str_len kept) = right).
  { unfold ceil_half, right, left. Z.div_mod_to_equations. lia. }
  assert (Heq : center_align yourstring total_len min_pad
                = repeat_str " " left ++ kept ++ repeat_str " " right).
  { unfold center_align.
    destruct (str_len yourstring >=? total_len - min_pad * 2) eqn:Hlong.
    - fold kept. rewrite Hceil. reflexivity.
    - assert (Hsame : kept = yourstring) by (apply slice_to_all; lia).
      rewrite <- Hsame. rewrite Hceil. reflexivity. }
  split; [exact Heq|].
  assert (Hleft : min_pad <= left) by (unfold left; apply Z.div_le_lower_bound; lia).
  assert (Hright : right = left \/ right = left + 1) by (unfold right, left; Z.div_mod_to_equations; lia).
  split; [|split; assumption].
  rewrite Heq, !str_len_append, !str_len_repeat_space; lia.
Qed.

End Columns.

Section ColumnRuns.
Import utils.

Lemma left_align_witness :
  (0 <= 2 /\ 2 <= 5) /\ left_align "test" 5 2 = "tes  " /\ str_len (left_align "test" 5 2) = 5.
Proof.
  split; [lia|].
  split; [reflexivity|].
  apply (left_align_fills_the_column "test" 5 2); lia.
Defined.

Lemma center_align_witness :
  (0 <= 3 /\ 3 * 2 <= 9 /\ 9 <= 2 ^ 53)
  /\ center_align "test" 9 3 = "   tes   " /\ str_len (center_align "test" 9 3) = 9.
Proof.
  split; [lia|].
  split; [reflexivity|].
  apply (center_align_fills_the_column "test" 9 3); lia.
Defined.

End ColumnRuns.

(** ** Dictionary updates *)

Section DictionaryUpdates.
Import utils.

Context {V : Type}.

Lemma dict_get_dict_set (d : list (string * V)) (k k' : string) (v : V) :
  dict_get (dict_set d k v) k' = if String.eqb k' k then Some v else dict_get d k'.
Proof.
  induction d as [|[k0 v0] d IH]; cbn [dict_set dict_get].
  - destruct (String.eqb k' k); reflexivity.
  - destruct (String.eqb_spec k k0) as [->|Hk]; cbn [dict_get].
    + destruct (String.eqb k' k0); reflexivity.
    + destruct (String.eqb_spec k' k0) as [->|Hk'].
      * destruct (String.eqb_spec k0 k) as [->|_]; [contradiction | reflexivity].
      * exact IH.
Qed.

Lemma keys_dict_set (d : list (string * V)) (k : string) (v : V) :
  List.map fst (dict_set d k v)
  = if in_strs k (List.map fst d) then List.map fst d else (List.map fst d ++ [k])%list.
Proof.
  induction d as [|[k0 v0] d IH]; cbn [dict_set List.map fst in_strs app]; [reflexivity|].
  destruct (String.eqb_spec k k0) as [->|Hk]; cbn [List.map fst orb]; [reflexivity|].
  rewrite IH. destruct (in_strs k (List.map fst d)); reflexivity.
Qed.

Lemma in_strs_app (x : string) (l1 l2 : list string) :
  in_strs x (l1 ++ l2) = in_strs x l1 || in_strs x l2.
Proof.
  induction l1 as [|y l1 IH]; cbn [in_strs app orb]; [reflexivity|].
  rewrite IH. apply orb_assoc.
Qed.

(** [combine_dicts] is [dict1.update(dict2)]: a key of [dict2] gets the
    value of [dict2], every other key keeps the value of [dict1]; the keys
    of [dict1] keep their places and the new keys follow in the order of
    [dict2]. *)
Theorem combine_dicts_is_update (dict1 dict2 : list (string * V)) (k : string) :
  List.NoDup (List.map fst dict2) ->
  dict_get (combine_dicts dict1 dict2) k
    = match dict_get dict2 k with
      | Some v => Some v
      | None => dict_get dict1 k
      end
  /\ List.map fst (combine_dicts dict1 dict2)
     = (List.map fst dict1
        ++ List.filter (fun k => negb (in_strs k (List.map fst dict1))) (List.map fst dict2))%list.
Proof.
  unfold combine_dicts. revert dict1.
  induction dict2 as [|[k2 v2] dict2 IH]; intros dict1 Hnodup; cbn [fold_left fst snd].
  - cbn. split; [reflexivity | now rewrite app_nil_r].
  - cbn [List.map fst] in Hnodup. inversion Hnodup as [|? ? Hfresh Hrest]; subst.
    destruct (IH (dict_set dict1 k2 v2) Hrest) as [Hget Hkeys]. split.
    + rewrite Hget. cbn [dict_get].
      destruct (String.eqb_spec k k2) as [->|Hk].
      * destruct (dict_get dict2 k2) eqn:Hin.
        -- exfalso. apply Hfresh. clear - Hin.
           induction dict2 as [|[k0 v0] dict2 IH]; [discriminate|].
           cbn [dict_get] in Hin. cbn [List.map fst In].
           destruct (String.eqb_spec k2 k0) as [->|_]; [now left | right; auto].
        -- rewrite dict_get_dict_set, String.eqb_refl. reflexivity.
      * destruct (dict_get dict2 k); [reflexivity|].
        rewrite dict_get_dict_set. destruct (String.eqb_spec k k2); [contradiction | reflexivity].
    + rewrite Hkeys, keys_dict_set. cbn [List.map fst List.filter].
      destruct (in_strs k2 (List.map fst dict1)) eqn:Hold; cbn [negb].
      * reflexivity.
      * rewrite <- app_assoc. cbn [app]. f_equal. f_equal.
        apply filter_ext_in. intros x Hx. rewrite in_strs_app. cbn [in_strs].
        destruct (String.eqb_spec x k2) as [->|_]; [contradiction|].
        now rewrite !orb_false_r.
Qed.

End DictionaryUpdates.

Section DictionaryUpdateRuns.
Import utils.

(** The theorem on the dictionaries of the repository's test. *)
Lemma combine_dicts_witness :
  List.NoDup (List.map fst [("A", "2")])
  /\ dict_get (combine_dicts [("A", "1")] [("A", "2")]) "A" = Some "2".
Proof.
  assert (Hnodup : List.NoDup (List.map fst [("A", "2")])).
  { repeat constructor. intros []. }
  split; [exact Hnodup|].
  exact (proj1 (combine_dicts_is_update [("A", "1")] [("A", "2")] "A" Hnodup)).
Defined.

End DictionaryUpdateRuns.

(** ** Date keys *)

Section Dates.
Import utils.

Lemma append_cons (c : ascii) (a b : string) : String c a ++ b = String c (a ++ b).
Proof. reflexivity. Qed.

Lemma contains_char_cons (sep c : ascii) (a : string) :
  contains (String sep EmptyString) (String c a) = false ->
  Ascii.eqb c sep = false /\ contains (String sep EmptyString) a = false.
Proof.
  cbn [contains]. intros Hfree. apply orb_false_iff in Hfree as [Hhead Htail].
  split; [|exact Htail]. cbn [String.prefix] in Hhead.
  destruct (Ascii.eqb_spec c sep) as [->|Hc]; [|reflexivity].
  destruct (ascii_dec sep sep) as [_|Hne]; [|contradiction].
  destruct a; discriminate.
Qed.

(** A field without the separator is not split. *)
Lemma split_on_field (sep : ascii) (a : string) :
  contains (String sep EmptyString) a = false -> split_on sep a = [a].
Proof.
  induction a as [|c a IH]; intros Hfree; [reflexivity|].
  apply contains_char_cons in Hfree as [Hc Htail].
  cbn [split_on]. rewrite Hc, (IH Htail). reflexivity.
Qed.

Lemma split_on_fields (sep : ascii) (a b : string) :
  contains (String sep EmptyString) a = false ->
  split_on sep (a ++ String sep b) = a :: split_on sep b.
Proof.
  induction a as [|c a IH]; intros Hfree.
  - change ("" ++ String sep b) with (String sep b).
    cbn [split_on]. now rewrite Ascii.eqb_refl.
  - apply contains_char_cons in Hfree as [Hc Htail].
    rewrite append_cons. cbn [split_on]. rewrite Hc, (IH Htail). reflexivity.
Qed.

(** A number of at most four digits, written over [width] digits, is read
    back by [int] and holds no dash. *)
Lemma zero_padded_reads_back (width : nat) (n : Z) :
  (width = 2%nat /\ 0 <= n < 100) \/ (width = 4%nat /\ 0 <= n < 10000) ->
  py_int (zero_padded width n) = Ok n
  /\ contains "-" (zero_padded width n) = false.
Proof.
  set (good := fun (width : nat) (n : Z) =>
    match py_int (zero_padded width n) with
    | Ok v => v =? n
    | Raise _ => false
    end && negb (contains "-" (zero_padded width n))).
  assert (Hgood : forall w k, good w k = true ->
            py_int (zero_padded w k) = Ok k /\ contains "-" (zero_padded w k) = false).
  { intros w k. unfold good. rewrite andb_true_iff, negb_true_iff.
    destruct (py_int (zero_padded w k)) as [v|e]; intros [Hv Hc]; [|discriminate].
    apply Z.eqb_eq in Hv. subst. auto. }
  assert (H2 : forallb (fun i => good 2%nat (Z.of_nat i)) (seq 0 (Z.to_nat 100)) = true)
    by (vm_compute; reflexivity).
  assert (H4 : forallb (fun i => good 4%nat (Z.of_nat i)) (seq 0 (Z.to_nat 10000)) = true)
    by (vm_compute; reflexivity).
  intros [[-> Hn]|[-> Hn]]; apply Hgood.
  - rewrite forallb_forall in H2. specialize (H2 (Z.to_nat n)).
    rewrite Z2Nat.id in H2 by lia. apply H2, in_seq. lia.
  - rewrite forallb_forall in H4. specialize (H4 (Z.to_nat n)).
    rewrite Z2Nat.id in H4 by lia. apply H4, in_seq. lia.
Qed.

Lemma days_in_month_le_31 (y m : Z) : days_in_month y m <= 31.
Proof.
  unfold days_in_month. destruct ((m =? 2) && is_leap y); [lia|].
  destruct (Z.to_nat m) as [|[|[|[|[|[|[|[|[|[|[|[|[|[|k]]]]]]]]]]]]]]; cbn; lia.
Qed.

(** [date_to_date] reads back the date keys that [strftime("%m-%d-%Y")]
    writes: for a valid date of a four-digit year it returns that date at
    midnight. *)
Theorem date_to_date_of_strftime (d : datetime) :
  1000 <= year d <= 9999 ->
  1 <= month d <= 12 ->
  1 <= day d <= days_in_month (year d) (month d) ->
  date_to_date (strftime_mdY d) = Ok (mkdatetime (year d) (month d) (day d) 0 0 0 0).
Proof.
  intros Hy Hm Hd.
  pose proof (days_in_month_le_31 (year d) (month d)) as H31.
  destruct (zero_padded_reads_back 2 (month d)) as [Hmi Hmc]; [left; split; [reflexivity | lia]|].
  destruct (zero_padded_reads_back 2 (day d)) as [Hdi Hdc]; [left; split; [reflexivity | lia]|].
  destruct (zero_padded_reads_back 4 (year d)) as [Hyi Hyc]; [right; split; [reflexivity | lia]|].
  unfold date_to_date, strftime_mdY.
  change ("-" ++ zero_padded 2 (day d) ++ "-" ++ zero_padded 4 (year d))
    with (String "-"%char (zero_padded 2 (day d) ++ String "-"%char (zero_padded 4 (year d)))).
  rewrite (split_on_fields _ _ _ Hmc), (split_on_fields _ _ _ Hdc), (split_on_field _ _ Hyc).
  cbn [list_index nth_error bind]. rewrite Hyi. cbn [bind]. rewrite Hmi. cbn [bind].
  rewrite Hdi. cbn [bind].
  unfold datetime_of_date.
  replace (fits_c_int (year d)) with true
    by (symmetry; apply andb_true_iff; split; apply Z.leb_le; lia).
  replace (fits_c_int (month d)) with true
    by (symmetry; apply andb_true_iff; split; apply Z.leb_le; lia).
  replace (fits_c_int (day d)) with true
    by (symmetry; apply andb_true_iff; split; apply Z.leb_le; lia).
  cbn [andb negb].
  replace (1 <=? year d) with true by (symmetry; apply Z.leb_le; lia).
  replace (year d <=? 9999) with true by (symmetry; apply Z.leb_le; lia).
  replace (1 <=? month d) with true by (symmetry; apply Z.leb_le; lia).
  replace (month d <=? 12) with true by (symmetry; apply Z.leb_le; lia).
  replace (1 <=? day d) with true by (symmetry; apply Z.leb_le; lia).
  replace (day d <=? days_in_month (year d) (month d)) with true by (symmetry; apply Z.leb_le; lia).
  reflexivity.
Qed.

(** Whatever [date_to_date] raises is an [IndexError] (fewer than three
    fields), a [ValueError] (a field that is no integer, or no date) or an
    [OverflowError] (a field beyond a C [int]). *)
Lemma date_to_date_raises (date : string) (e : exn) :
  date_to_date date = Raise e -> e = IndexError \/ e = ValueError \/ e = OverflowError.
Proof.
  unfold date_to_date. intros H.
  repeat match type of H with
  | bind ?r _ = Raise _ =>
      apply bind_Raise in H as [H|(? & ? & H)]
  end;
  try (apply list_index_raises in H; auto);
  try (apply py_int_raises in H; auto);
  try (apply datetime_of_date_raises in H; tauto).
Qed.

End Dates.

Section DateRuns.
Import utils.

(** The date of the repository's test. *)
Lemma date_to_date_witness :
  date_to_date "06-26-2023" = Ok (mkdatetime 2023 6 26 0 0 0 0).
Proof.
  apply (date_to_date_of_strftime (mkdatetime 2023 6 26 0 0 0 0));
    split; apply Z.leb_le; reflexivity.
Defined.

End DateRuns.

(** ** Names and URLs *)

Section Names.
Import utils.

(** [project_name_to_url] ignores the letter case of the name it is given,
    and answers with the canonical form of the URL that
    [grc_project_name_to_url] finds in the same table. *)
Theorem project_name_to_url_canonical_lookup (searchname : string)
    (project_resolver_dict : list (string * string)) :
  project_name_to_url (upper searchname) project_resolver_dict
    = project_name_to_url searchname project_resolver_dict
  /\ match grc_project_name_to_url searchname
             (PDict (List.map (fun entry => (fst entry, PStr (snd entry))) project_resolver_dict)) with
     | Ok (PStr project_url) =>
         project_name_to_url searchname project_resolver_dict
           = Some (resolve_url_database project_url)
     | Ok PNone => project_name_to_url searchname project_resolver_dict = None
     | _ => False
     end.
Proof.
  unfold project_name_to_url, grc_project_name_to_url. rewrite upper_idempotent.
  split; [reflexivity|]. cbn [items bind].
  induction project_resolver_dict as [|[name url] rest IH];
    cbn [List.map fst snd grc_project_name_to_url_loop project_name_to_url_loop];
    [reflexivity|].
  destruct (String.eqb (upper name) (upper searchname)); [reflexivity | exact IH].
Qed.

Lemma prefix_lower (c k : string) :
  String.prefix c k = true -> lower k = k -> lower c = c.
Proof.
  revert k. induction c as [|x c IH]; intros [|y k] Hpre Hlow; try reflexivity; try discriminate.
  cbn [String.prefix] in Hpre. destruct (ascii_dec x y) as [->|]; [|discriminate].
  cbn [lower] in *. injection Hlow as Hy Hk. rewrite Hy, (IH k Hpre Hk). reflexivity.
Qed.

Lemma contains_lower (c k : string) :
  contains c k = true -> lower k = k -> lower c = c.
Proof.
  induction k as [|y k IH]; cbn [contains]; intros Hin Hlow.
  - rewrite orb_false_r in Hin. eapply prefix_lower; eauto.
  - apply orb_true_iff in Hin as [Hpre|Hin]; [eapply prefix_lower; eauto|].
    cbn [lower] in Hlow. injection Hlow as _ Hk. auto.
Qed.

(** [project_url_to_name_boinc] compares the canonical URL, which is in
    upper case, with the keys of [project_names] as they are.  When no key
    holds an upper-case letter and the canonical URL holds a letter, no key
    matches and the URL comes back unchanged. *)
Theorem project_url_to_name_boinc_lower_case_keys (url : string)
    (project_names : list (string * string)) :
  Forall (fun entry => lower (fst entry) = fst entry) project_names ->
  String.eqb (lower (resolve_url_database url)) (resolve_url_database url) = false ->
  project_url_to_name_boinc url project_names = url.
Proof.
  intros Hkeys Hletter. unfold project_url_to_name_boinc.
  apply String.eqb_neq in Hletter.
  induction Hkeys as [|[project_url name] rest Hkey _ IH];
    cbn [project_url_to_name_boinc_loop]; [reflexivity|].
  cbn [fst] in Hkey.
  destruct (contains (resolve_url_database url) project_url) eqn:Hin.
  - exfalso. apply Hletter. eapply contains_lower; eauto.
  - destruct (String.eqb_spec (resolve_url_database url) project_url) as [Heq|_]; [|exact IH].
    exfalso. apply Hletter. rewrite Heq. exact Hkey.
Qed.

(** A run of calls keeps every entry of the memo table. *)
Lemma project_url_to_name_calls_keep (memo : gmap string string)
    (calls : list (string * list (string * string))) (url found : string) :
  memo !! url = Some found ->
  snd (project_url_to_name_calls memo calls) !! url = Some found.
Proof.
  revert memo. induction calls as [|[url' names] rest IH]; intros memo Hmemo; [exact Hmemo|].
  cbn [project_url_to_name_calls].
  destruct (project_url_to_name memo url' names) as [found' memo'] eqn:Hcall.
  specialize (IH memo').
  destruct (project_url_to_name_calls memo' rest) as [answers memo''].
  cbn [snd] in *. apply IH.
  unfold project_url_to_name, _project_url_to_name in Hcall.
  destruct (memo !! url') as [hit|] eqn:Hhit; injection Hcall as <- <-; [exact Hmemo|].
  rewrite lookup_insert_ne; [exact Hmemo|]. intros ->. congruence.
Qed.

(** [project_url_to_name] is memoised on the URL alone: once a URL has been
    asked for, every later call for it gets the answer of the first call,
    whatever table of names it passes and whatever calls came between. *)
Theorem project_url_to_name_first_answer_sticks (memo : gmap string string) (url : string)
    (project_names later_names : list (string * string))
    (calls : list (string * list (string * string))) :
  let first := project_url_to_name memo url project_names in
  let between := project_url_to_name_calls (snd first) calls in
  project_url_to_name (snd between) url later_names = (fst first, snd between).
Proof.
  intros first between.
  assert (Hfirst : snd first !! url = Some (fst first)).
  { unfold first, project_url_to_name, _project_url_to_name.
    destruct (memo !! url) as [hit|] eqn:Hhit; cbn [fst snd]; [exact Hhit|].
    apply lookup_insert_eq. }
  pose proof (project_url_to_name_calls_keep _ calls _ _ Hfirst) as Hkept.
  fold between in Hkept.
  unfold project_url_to_name, _project_url_to_name. rewrite Hkept. reflexivity.
Qed.

End Names.

Section NameRuns.
Import utils.

(** A project as the BOINC client lists it: the lookup by its own URL
    misses the entry. *)
Lemma project_url_to_name_boinc_witness :
  project_url_to_name_boinc "https://www.worldcommunitygrid.org/boinc/"
    [("https://www.worldcommunitygrid.org/boinc/", "World Community Grid")]
  = "https://www.worldcommunitygrid.org/boinc/".
Proof.
  apply project_url_to_name_boinc_lower_case_keys.
  - repeat constructor.
  - reflexivity.
Defined.

End NameRuns.

(** ** Statistics files *)

Section FileNames.
Import utils StatsHelper.

Lemma append_empty_l (b : string) : "" ++ b = b.
Proof. reflexivity. Qed.

Lemma append_empty_r (a : string) : a ++ "" = a.
Proof. induction a as [|c a IH]; [reflexivity|]. now rewrite append_cons, IH. Qed.

Lemma append_associative (a b c : string) : (a ++ b) ++ c = a ++ (b ++ c).
Proof. induction a as [|x a IH]; [reflexivity|]. now rewrite !append_cons, IH. Qed.

Lemma prefix_append_same (a s : string) : String.prefix a (a ++ s) = true.
Proof.
  induction a as [|c a IH]; [destruct s; reflexivity|].
  rewrite append_cons. cbn [String.prefix].
  destruct (ascii_dec c c) as [_|Hne]; [exact IH | contradiction].
Qed.

(** The characters of an occurrence being replaced are dropped. *)
Lemma replace_from_skips (old new a s : string) :
  replace_from (String.length a) old new (a ++ s) = replace_from 0 old new s.
Proof.
  induction a as [|c a IH]; [destruct s; reflexivity|].
  rewrite append_cons. cbn [String.length replace_from]. exact IH.
Qed.

(** An occurrence at the very start is replaced, and the scan goes on
    after it. *)
Lemma replace_at_start (c : ascii) (old new s : string) :
  replace (String c old) new (String c old ++ s) = new ++ replace (String c old) new s.
Proof.
  unfold replace. rewrite append_cons. cbn [replace_from].
  rewrite <- append_cons, prefix_append_same.
  cbn [String.length].
  replace (S (String.length old) - 1)%nat with (String.length old) by lia.
  rewrite replace_from_skips. reflexivity.
Qed.

(** A prefix test looks at no more characters than the prefix has. *)
Lemma prefix_within (p u v : string) :
  (String.length p <= String.length u)%nat ->
  String.prefix p (u ++ v) = String.prefix p u.
Proof.
  revert u. induction p as [|x p IH]; intros u Hlen.
  - destruct u; [destruct v|]; reflexivity.
  - destruct u as [|y u]; cbn [String.length] in Hlen; [lia|].
    rewrite append_cons. cbn [String.prefix].
    destruct (ascii_dec x y); [|reflexivity]. apply IH. lia.
Qed.

(** An occurrence at the very end, and nowhere before, is removed. *)
Lemma replace_from_at_end (old old' : string) (c x : ascii) (r s : string) :
  old = old' ++ String c "" ->
  old = String x r ->
  contains old (s ++ old') = false ->
  replace_from 0 old "" (s ++ old) = s.
Proof.
  intros Hlast Hfirst.
  assert (Hlen : String.length old = S (String.length old')).
  { rewrite Hlast, length_append. cbn. lia. }
  induction s as [|y s IH]; intros Hfree.
  - rewrite append_empty_l.
    pose proof (replace_at_start x r "" "") as Hstart.
    unfold replace in Hstart. rewrite append_empty_r in Hstart.
    rewrite Hfirst. exact Hstart.
  - rewrite append_cons in Hfree. cbn [contains] in Hfree.
    apply orb_false_iff in Hfree as [Hhead Htail].
    rewrite append_cons. cbn [replace_from].
    assert (Hprefix : String.prefix old (String y (s ++ old)) = false).
    { rewrite <- Hhead. rewrite Hlast at 2.
      rewrite <- append_associative.
      change (String y ((s ++ old') ++ String c "")) with (String y (s ++ old') ++ String c "").
      apply prefix_within. rewrite Hlen. cbn [String.length].
      rewrite length_append. lia. }
    rewrite Hprefix, (IH Htail). reflexivity.
Qed.

Lemma replace_at_end (old' : string) (c : ascii) (s : string) :
  contains (old' ++ String c "") (s ++ old') = false ->
  replace (old' ++ String c "") "" (s ++ old' ++ String c "") = s.
Proof.
  intros Hfree.
  destruct (old' ++ String c "") as [|x r] eqn:Hold.
  - destruct old'; discriminate.
  - unfold replace. rewrite <- Hold.
    apply (replace_from_at_end _ old' c x r); [reflexivity | exact Hold |].
    rewrite Hold. exact Hfree.
Qed.

(** The job log and the statistics file that the BOINC client keeps for
    one project are named [job_log_NAME.txt] and [statistics_NAME.xml] with
    the same [NAME].  Both file names lead to the same project key, the
    canonical form of [NAME] with its underscores turned into slashes, as
    long as [NAME] itself holds none of the four patterns that are
    stripped. *)
Theorem stats_files_of_one_project_share_a_key (name : string) :
  contains "job_log_" (name ++ ".txt") = false ->
  contains ".txt" (name ++ ".tx") = false ->
  contains "statistics_" (name ++ ".xml") = false ->
  contains ".xml" (name ++ ".xm") = false ->
  project_url_from_stats_file ("job_log_" ++ name ++ ".txt")
    = resolve_url_database (replace "_" "/" name)
  /\ project_url_from_credit_history_file ("statistics_" ++ name ++ ".xml")
    = resolve_url_database (replace "_" "/" name).
Proof.
  intros Hjob Htxt Hstat Hxml.
  unfold project_url_from_stats_file, project_url_from_credit_history_file. split.
  - rewrite (replace_at_start "j" "ob_log_" "" (name ++ ".txt")).
    rewrite append_empty_l.
    unfold replace at 3. rewrite (replace_from_absent _ _ _ Hjob).
    pose proof (replace_at_end ".tx" "t" name Htxt) as Hend.
    change (".tx" ++ String "t" "") with ".txt" in Hend.
    rewrite Hend. reflexivity.
  - rewrite (replace_at_start "s" "tatistics_" "" (name ++ ".xml")).
    rewrite append_empty_l.
    unfold replace at 3. rewrite (replace_from_absent _ _ _ Hstat).
    pose proof (replace_at_end ".xm" "l" name Hxml) as Hend.
    change (".xm" ++ String "l" "") with ".xml" in Hend.
    rewrite Hend. reflexivity.
Qed.

End FileNames.

Section FileNameRuns.
Import utils StatsHelper.

(** The theorem on a file name of the repository's tests. *)
Lemma stats_files_of_one_project_witness :
  project_url_from_stats_file "job_log_www.rechenkraft.net_yoyo.txt" = "RECHENKRAFT.NET/YOYO"
  /\ project_url_from_credit_history_file "statistics_www.rechenkraft.net_yoyo.xml"
     = "RECHENKRAFT.NET/YOYO".
Proof.
  exact (stats_files_of_one_project_share_a_key "www.rechenkraft.net_yoyo"
           eq_refl eq_refl eq_refl eq_refl).
Defined.

End FileNameRuns.

(** ** The average magnitude *)

Section AverageMagnitude.
Import StatsHelper.

Lemma compiled_get_raises (d : gmap string Q) (key : string) (e : exn) :
  compiled_get d key = Raise e -> e = KeyError.
Proof. unfold compiled_get. destruct (d !! key); [discriminate | congruence]. Qed.

Lemma get_avg_mag_hr_loop_raises (combined_stats : list (string * ProjectStats))
    (found_mag found_time : list Q) (e : exn) :
  get_avg_mag_hr_loop combined_stats found_mag found_time = Raise e -> e = KeyError.
Proof.
  revert found_mag found_time.
  induction combined_stats as [|[project_url stats] rest IH]; intros found_mag found_time H;
    [discriminate|].
  cbn [get_avg_mag_hr_loop] in H.
  repeat match type of H with
  | bind ?r _ = Raise _ => apply bind_Raise in H as [H|(? & ? & H)]
  end; eauto using compiled_get_raises.
Qed.

Lemma get_avg_mag_hr_loop_returns (combined_stats : list (string * ProjectStats))
    (found_mag found_time : list Q) :
  Forall (fun entry =>
            is_Some (COMPILED_STATS (snd entry) !! "TOTALWALLTIME")
            /\ is_Some (COMPILED_STATS (snd entry) !! "AVGMAGPERHOUR")) combined_stats ->
  exists r, get_avg_mag_hr_loop combined_stats found_mag found_time = Ok r.
Proof.
  intros Hfields. revert found_mag found_time.
  induction Hfields as [|[project_url stats] rest [[w Hw] [m Hm]] _ IH]; intros found_mag found_time.
  - eexists. reflexivity.
  - cbn [get_avg_mag_hr_loop snd] in *. unfold compiled_get. rewrite Hw, Hm. cbn [bind].
    apply IH.
Qed.

(** [get_avg_mag_hr] never raises a division error: the one division is
    guarded by the test of its divisor.  It raises nothing but [KeyError],
    and not even that when every project has its [TOTALWALLTIME] and
    [AVGMAGPERHOUR]; with no project at all it returns 0. *)
Theorem get_avg_mag_hr_never_divides_by_zero (combined_stats : list (string * ProjectStats)) :
  (forall e, get_avg_mag_hr combined_stats = Raise e -> e = KeyError)
  /\ (Forall (fun entry =>
                is_Some (COMPILED_STATS (snd entry) !! "TOTALWALLTIME")
                /\ is_Some (COMPILED_STATS (snd entry) !! "AVGMAGPERHOUR")) combined_stats ->
      exists average, get_avg_mag_hr combined_stats = Ok average)
  /\ get_avg_mag_hr [] = Ok 0%Q.
Proof.
  assert (Hguard : forall found_mag found_sum : Q,
            (if Qeq_bool found_sum 0 || Qeq_bool found_mag 0 then Ok 0%Q
             else average <- truediv found_mag found_sum ;; Ok average)
            = Ok (if Qeq_bool found_sum 0 || Qeq_bool found_mag 0 then 0%Q
                  else (found_mag / found_sum)%Q)).
  { intros found_mag found_sum. unfold truediv.
    destruct (Qeq_bool found_sum 0); reflexivity || (cbn [orb];
      destruct (Qeq_bool found_mag 0); reflexivity). }
  split; [|split].
  - intros e H. unfold get_avg_mag_hr in H.
    apply bind_Raise in H as [H|([found_mag found_time] & _ & H)].
    + eapply get_avg_mag_hr_loop_raises; eauto.
    + rewrite Hguard in H. discriminate.
  - intros Hfields. unfold get_avg_mag_hr.
    destruct (get_avg_mag_hr_loop_returns combined_stats [] [] Hfields) as [[found_mag found_time] ->].
    cbn [bind]. rewrite Hguard. eexists. reflexivity.
  - reflexivity.
Qed.

End AverageMagnitude.

Section AverageMagnitudeRuns.
Import StatsHelper.

(** The theorem on the statistics of the repository's test, where the
    average is 2. *)
Lemma get_avg_mag_hr_witness :
  exists average,
    get_avg_mag_hr
      [ ("myproject.com",
         mkProjectStats [] [] (<["TOTALWALLTIME" := 1%Q]> (<["AVGMAGPERHOUR" := 2%Q]> ∅)));
        ("myproject2.com",
         mkProjectStats [] [] (<["TOTALWALLTIME" := 1%Q]> (<["AVGMAGPERHOUR" := 2%Q]> ∅))) ]
    = Ok average.
Proof.
  apply get_avg_mag_hr_never_divides_by_zero.
  repeat constructor; cbn [snd COMPILED_STATS]; eexists; reflexivity.
Defined.

End AverageMagnitudeRuns.

(** ** Project priorities *)

Section Priorities.
Import utils StatsHelper.

Lemma insert_by_priority_permutation (entry : string * Q) (sorted : list (string * Q)) :
  Permutation (insert_by_priority entry sorted) (entry :: sorted).
Proof.
  induction sorted as [|other rest IH]; cbn [insert_by_priority]; [reflexivity|].
  destruct (Qle_bool (snd entry) (snd other)); [reflexivity|].
  rewrite IH. apply perm_swap.
Qed.

Lemma sorted_by_priority_permutation (priority_dict : list (string * Q)) :
  Permutation (sorted_by_priority priority_dict) priority_dict.
Proof.
  induction priority_dict as [|entry rest IH]; [reflexivity|].
  cbn [sorted_by_priority fold_right]. rewrite insert_by_priority_permutation.
  now apply perm_skip.
Qed.

Lemma insert_by_priority_sorted (entry : string * Q) (sorted : list (string * Q)) :
  StronglySorted (fun a b => (snd a <= snd b)%Q) sorted ->
  StronglySorted (fun a b => (snd a <= snd b)%Q) (insert_by_priority entry sorted).
Proof.
  induction 1 as [|other rest Hrest IH Hother]; cbn [insert_by_priority].
  - constructor; constructor.
  - destruct (Qle_bool (snd entry) (snd other)) eqn:Hle.
    + apply Qle_bool_iff in Hle. constructor; [constructor; assumption|].
      constructor; [exact Hle|].
      rewrite List.Forall_forall in *. intros x Hx. eapply Qle_trans; [exact Hle | auto].
    + assert (Hlt : (snd other <= snd entry)%Q).
      { destruct (Qlt_le_dec (snd other) (snd entry)) as [Hlt|Hge]; [now apply Qlt_le_weak|].
        apply Qle_bool_iff in Hge. congruence. }
      constructor; [exact IH|].
      rewrite List.Forall_forall in *. intros x Hx.
      apply (Permutation_in _ (insert_by_priority_permutation entry rest)) in Hx.
      destruct Hx as [<-|Hx]; auto.
Qed.

Lemma sorted_by_priority_sorted (priority_dict : list (string * Q)) :
  StronglySorted (fun a b => (snd a <= snd b)%Q) (sorted_by_priority priority_dict).
Proof.
  induction priority_dict as [|entry rest IH]; [constructor|].
  cbn [sorted_by_priority fold_right]. now apply insert_by_priority_sorted.
Qed.

Lemma keys_dict_set_In {V : Type} (d : list (string * V)) (k : string) (v : V) (x : string) :
  In x (List.map fst (dict_set d k v)) <-> x = k \/ In x (List.map fst d).
Proof.
  induction d as [|[k0 v0] d IH]; cbn [dict_set List.map fst In]; [intuition congruence|].
  destruct (String.eqb_spec k k0) as [->|Hk]; cbn [List.map fst In]; [intuition congruence|].
  rewrite IH. intuition congruence.
Qed.

Lemma keys_dict_set_NoDup {V : Type} (d : list (string * V)) (k : string) (v : V) :
  List.NoDup (List.map fst d) -> List.NoDup (List.map fst (dict_set d k v)).
Proof.
  induction d as [|[k0 v0] d IH]; cbn [dict_set List.map fst]; intros Hd.
  - repeat constructor. intros [].
  - inversion Hd as [|? ? Hfresh Hrest]; subst.
    destruct (String.eqb_spec k k0) as [->|Hk]; cbn [List.map fst]; [constructor; assumption|].
    constructor; [|auto]. rewrite keys_dict_set_In. intros [->|H]; [congruence | contradiction].
Qed.

Lemma priority_loop_keys (combined_stats : list (string * ProjectStats))
    (attached_projects : list string) (total_xday_time total_time : Q)
    (project_weights : list (string * Z)) (priority_dict result_dict : list (string * Q)) :
  priority_loop combined_stats attached_projects total_xday_time total_time
    project_weights priority_dict = Ok result_dict ->
  (List.NoDup (List.map fst priority_dict) -> List.NoDup (List.map fst result_dict))
  /\ (forall project,
        In project (List.map fst result_dict)
        <-> In project (List.map fst priority_dict)
            \/ (In project (List.map fst project_weights)
                /\ in_list project attached_projects = true)).
Proof.
  revert priority_dict.
  induction project_weights as [|[project weight] rest IH]; intros priority_dict Hloop.
  - cbn [priority_loop] in Hloop. injection Hloop as <-. split; [auto|].
    intros p. cbn [List.map In]. tauto.
  - cbn [priority_loop] in Hloop. cbn [List.map fst In].
    destruct (in_list project attached_projects) eqn:Hattached; cbn [negb] in Hloop.
    + apply bind_Ok in Hloop as (existing_time & _ & Hloop).
      destruct (IH _ Hloop) as [Hnodup Hkeys]. split.
      * intros Hd. apply Hnodup. now apply keys_dict_set_NoDup.
      * intros p. rewrite Hkeys, keys_dict_set_In. split.
        -- intros [[->|H]|[H1 H2]]; auto.
        -- intros [H|[[<-|H1] H2]]; auto.
    + destruct (IH _ Hloop) as [Hnodup Hkeys]. split; [exact Hnodup|].
      intros p. rewrite Hkeys. split.
      * intros [H|[H1 H2]]; auto.
      * intros [H|[[<-|H1] H2]]; auto. congruence.
Qed.

Lemma total_wall_times_returns (combined_stats : list (string * ProjectStats))
    (total_xday_time total_time : Q) :
  Forall (fun entry =>
            is_Some (COMPILED_STATS (snd entry) !! "XDAYWALLTIME")
            /\ is_Some (COMPILED_STATS (snd entry) !! "TOTALWALLTIME")) combined_stats ->
  exists totals, total_wall_times combined_stats total_xday_time total_time = Ok totals.
Proof.
  intros Hfields. revert total_xday_time total_time.
  induction Hfields as [|[found_key stats] rest [[x Hx] [w Hw]] _ IH]; intros total_xday_time total_time.
  - eexists. reflexivity.
  - cbn [total_wall_times snd] in *. unfold compiled_get. rewrite Hx, Hw. cbn [bind]. apply IH.
Qed.

Lemma priority_loop_returns (combined_stats : list (string * ProjectStats))
    (attached_projects : list string) (total_xday_time total_time : Q)
    (project_weights : list (string * Z)) (priority_dict : list (string * Q)) :
  Forall (fun entry =>
            is_Some (COMPILED_STATS (snd entry) !! "XDAYWALLTIME")
            /\ is_Some (COMPILED_STATS (snd entry) !! "TOTALWALLTIME")) combined_stats ->
  exists result_dict,
    priority_loop combined_stats attached_projects total_xday_time total_time
      project_weights priority_dict = Ok result_dict.
Proof.
  intros Hfields. revert priority_dict.
  induction project_weights as [|[project weight] rest IH]; intros priority_dict.
  - eexists. reflexivity.
  - cbn [priority_loop].
    destruct (in_list project attached_projects); cbn [negb]; [|apply IH].
    destruct (dict_get combined_stats project) as [extract|] eqn:Hextract.
    + apply dict_get_In in Hextract.
      rewrite List.Forall_forall in Hfields. destruct (Hfields _ Hextract) as [[x Hx] [w Hw]].
      cbn [snd] in *. unfold compiled_get. rewrite Hx, Hw.
      destruct (weight =? 1); cbn [bind]; apply IH.
    + cbn [bind]. apply IH.
Qed.

(** [get_highest_priority_project] returns when every project of the
    statistics has its two wall times.  The projects it ranks are exactly
    the weighted projects that [in_list] finds among the attached ones,
    each once; they come in the order of their priority values, lowest
    first, and the ranking is a rearrangement of the priority table
    returned with it. *)
Theorem get_highest_priority_project_ranking (combined_stats : list (string * ProjectStats))
    (project_weights : list (string * Z)) (attached_projects : option (list string)) :
  (Forall (fun entry =>
             is_Some (COMPILED_STATS (snd entry) !! "XDAYWALLTIME")
             /\ is_Some (COMPILED_STATS (snd entry) !! "TOTALWALLTIME")) combined_stats ->
   exists ranking,
     get_highest_priority_project combined_stats project_weights attached_projects = Ok ranking)
  /\ (forall order priority_dict,
        get_highest_priority_project combined_stats project_weights attached_projects
          = Ok (order, priority_dict) ->
        (exists ranked,
            order = List.map fst ranked
            /\ Permutation ranked priority_dict
            /\ StronglySorted (fun a b => (snd a <= snd b)%Q) ranked)
        /\ List.NoDup order
        /\ (forall project,
              In project order
              <-> In project (List.map fst project_weights)
                  /\ in_list project
                       (match attached_projects with
                        | Some attached => attached
                        | None => []
                        end) = true)).
Proof.
  set (attached := match attached_projects with
                   | None => []
                   | Some [] => []
                   | Some attached => attached
                   end).
  assert (Hattached : attached = match attached_projects with
                                 | Some attached => attached
                                 | None => []
                                 end).
  { unfold attached. destruct attached_projects as [[|]|]; reflexivity. }
  split.
  - intros Hfields. unfold get_highest_priority_project. fold attached.
    destruct (total_wall_times_returns combined_stats 0%Q 0%Q Hfields) as [[x t] ->].
    cbn [bind].
    destruct (priority_loop_returns combined_stats attached x t project_weights [] Hfields)
      as [result_dict ->].
    cbn [bind]. destruct (0 <? List.length result_dict)%nat; eexists; reflexivity.
  - intros order priority_dict Hcall. unfold get_highest_priority_project in Hcall.
    fold attached in Hcall.
    apply bind_Ok in Hcall as ([x t] & _ & Hcall).
    apply bind_Ok in Hcall as (result_dict & Hloop & Hcall).
    apply priority_loop_keys in Hloop as [Hnodup Hkeys].
    specialize (Hnodup (List.NoDup_nil _)). rewrite <- Hattached.
    assert (Hall : order = List.map fst (sorted_by_priority result_dict)
                   /\ priority_dict = result_dict).
    { destruct result_dict as [|entry rest]; cbn in Hcall; injection Hcall as <- <-;
        split; reflexivity. }
    destruct Hall as [-> ->].
    pose proof (sorted_by_priority_permutation result_dict) as Hperm.
    split; [|split].
    + exists (sorted_by_priority result_dict).
      split; [reflexivity|]. split; [exact Hperm | apply sorted_by_priority_sorted].
    + eapply Permutation_NoDup; [|exact Hnodup].
      symmetry. apply Permutation_map. exact Hperm.
    + intros p. specialize (Hkeys p). cbn [List.map In] in Hkeys.
      split; intros H.
      * apply (Permutation_in _ (Permutation_map fst Hperm)) in H.
        apply Hkeys in H as [[]|H]. exact H.
      * apply (Permutation_in _ (Permutation_map fst (Permutation_sym Hperm))).
        apply Hkeys. right. exact H.
Qed.

End Priorities.

Section PriorityRuns.
Import utils StatsHelper.

(** A host with two projects in its statistics and four weighted
    projects, three of them attached: the unknown project comes first, the
    unattached one is left out. *)
Lemma get_highest_priority_project_witness :
  let stats := fun xday wall : Q =>
    mkProjectStats [] [] (<["XDAYWALLTIME" := xday]> (<["TOTALWALLTIME" := wall]> ∅)) in
  let call :=
    get_highest_priority_project
      [("A.COM", stats 36000%Q 72000%Q); ("B.COM", stats 3600%Q 3600%Q)]
      [("A.COM", 500); ("B.COM", 1); ("C.COM", 499); ("D.COM", 250)]
      (Some ["https://www.a.com/"; "http://b.com"; "d.com"]) in
  call = Ok (["D.COM"; "B.COM"; "A.COM"],
             [("A.COM", 4.50%Q); ("B.COM", 0.98%Q); ("D.COM", (-2.75)%Q)])
  /\ List.NoDup ["D.COM"; "B.COM"; "A.COM"].
Proof.
  intros stats call.
  assert (Hcall : call = Ok (["D.COM"; "B.COM"; "A.COM"],
                             [("A.COM", 4.50%Q); ("B.COM", 0.98%Q); ("D.COM", (-2.75)%Q)]))
    by (vm_compute; reflexivity).
  split; [exact Hcall|]. unfold call in Hcall.
  exact (proj1 (proj2 (proj2 (get_highest_priority_project_ranking _ _ _) _ _ Hcall))).
Defined.

End PriorityRuns.

(** ** URLs of the BOINC client *)

Section BoincUrls.
Import utils StatsHelper.

Lemma first_attached_In (uppered : string) (projects : list string) (found : string) :
  first_attached uppered projects = Some found ->
  In found projects /\ contains uppered (upper found) = true.
Proof.
  induction projects as [|p rest IH]; cbn [first_attached]; [discriminate|].
  destruct (contains uppered (upper p)) eqn:Hp.
  - intros [= <-]. split; [now left | exact Hp].
  - intros H. destruct (IH H). split; [now right | assumption].
Qed.

(** On a fresh memo table the answer of [resolve_url_boinc_rpc] is the
    URL itself or a member of the collection that was consulted: the
    attached projects of the mode in force first, the projects the client
    knows of after them. *)
Theorem resolve_url_boinc_rpc_answer (url : string)
    (known_attached_projects known_attached_projects_dev known_boinc_projects : list string)
    (dev_mode : bool) :
  let answer :=
    fst (resolve_url_boinc_rpc ∅ url known_attached_projects known_attached_projects_dev
           known_boinc_projects dev_mode) in
  answer = url
  \/ In answer (if dev_mode then known_attached_projects_dev else known_attached_projects)
  \/ (_resolve_url_boinc_rpc_body (upper url) known_attached_projects
        known_attached_projects_dev dev_mode = None
      /\ In answer known_boinc_projects).
Proof.
  cbv zeta. unfold resolve_url_boinc_rpc.
  destruct (contains "FOLDINGATHOME" (upper url)); [now left|].
  unfold _resolve_url_boinc_rpc. rewrite lookup_empty.
  destruct (_resolve_url_boinc_rpc_body (upper url) known_attached_projects
              known_attached_projects_dev dev_mode) as [found|] eqn:Hbody.
  - cbn [fst]. right. left. unfold _resolve_url_boinc_rpc_body in Hbody.
    destruct dev_mode; apply first_attached_In in Hbody; tauto.
  - match goal with
    | |- context [first_attached ?u known_boinc_projects] =>
        destruct (first_attached u known_boinc_projects) as [found|] eqn:Hknown
    end; cbn [fst]; [|now left].
    right. right. split; [reflexivity|]. apply first_attached_In in Hknown. tauto.
Qed.

(** A call keeps every entry of the memo table. *)
Lemma resolve_url_boinc_rpc_keeps (memo : gmap (string * bool) (option string))
    (call : ResolveCall) (key : string * bool) (found : option string) :
  memo !! key = Some found ->
  snd (resolve_url_boinc_rpc memo (call_url call) (call_attached call)
         (call_attached_dev call) (call_known call) (call_dev_mode call)) !! key = Some found.
Proof.
  intros Hkey. unfold resolve_url_boinc_rpc.
  destruct (contains "FOLDINGATHOME" (upper (call_url call))); [exact Hkey|].
  unfold _resolve_url_boinc_rpc.
  destruct (memo !! (upper (call_url call), call_dev_mode call)) as [hit|] eqn:Hhit.
  - destruct hit; [exact Hkey|].
    match goal with |- context [first_attached ?u ?l] => destruct (first_attached u l) end;
      exact Hkey.
  - assert (Hne : (upper (call_url call), call_dev_mode call) <> key) by congruence.
    match goal with
    | |- context [_resolve_url_boinc_rpc_body ?a ?b ?c ?d] =>
        destruct (_resolve_url_boinc_rpc_body a b c d)
    end; cbn [snd].
    + rewrite lookup_insert_ne by exact Hne. exact Hkey.
    + match goal with |- context [first_attached ?u ?l] => destruct (first_attached u l) end;
        cbn [snd]; rewrite lookup_insert_ne by exact Hne; exact Hkey.
Qed.

Lemma resolve_url_boinc_rpc_calls_keep (calls : list ResolveCall)
    (memo : gmap (string * bool) (option string)) (key : string * bool) (found : option string) :
  memo !! key = Some found ->
  resolve_url_boinc_rpc_calls memo calls !! key = Some found.
Proof.
  revert memo. induction calls as [|call rest IH]; intros memo Hkey; [exact Hkey|].
  unfold resolve_url_boinc_rpc_calls. cbn [fold_left].
  apply IH. now apply resolve_url_boinc_rpc_keeps.
Qed.

(** After a call for a URL, the look-up among the attached projects is
    settled for that URL and mode: whatever calls come between, a later
    call for the URL in any letter case gives the same answer and leaves
    the same table whichever attached projects it is passed.  A project
    attached or detached in the meantime goes unnoticed. *)
Theorem resolve_url_boinc_rpc_attachments_are_memoised
    (memo : gmap (string * bool) (option string)) (url later_url : string)
    (attached attached_dev known : list string) (dev_mode : bool) (calls : list ResolveCall)
    (attached1 attached_dev1 attached2 attached_dev2 later_known : list string) :
  upper later_url = upper url ->
  contains "FOLDINGATHOME" (upper url) = false ->
  let first := resolve_url_boinc_rpc memo url attached attached_dev known dev_mode in
  let between := resolve_url_boinc_rpc_calls (snd first) calls in
  resolve_url_boinc_rpc between later_url attached1 attached_dev1 later_known dev_mode
  = resolve_url_boinc_rpc between later_url attached2 attached_dev2 later_known dev_mode
  /\ (memo !! (upper url, dev_mode) = None ->
      forall found,
        _resolve_url_boinc_rpc_body (upper url) attached attached_dev dev_mode = Some found ->
        fst (resolve_url_boinc_rpc between later_url attached1 attached_dev1 later_known dev_mode)
        = found).
Proof.
  intros Hcase Hfolding first between.
  assert (Hentry : exists hit, snd first !! (upper url, dev_mode) = Some hit
            /\ (memo !! (upper url, dev_mode) = None ->
                hit = _resolve_url_boinc_rpc_body (upper url) attached attached_dev dev_mode)).
  { unfold first, resolve_url_boinc_rpc. rewrite Hfolding. unfold _resolve_url_boinc_rpc.
    destruct (memo !! (upper url, dev_mode)) as [hit|] eqn:Hhit.
    - exists hit. split; [|discriminate].
      destruct hit; [exact Hhit|].
      match goal with |- context [first_attached ?u ?l] => destruct (first_attached u l) end;
        exact Hhit.
    - eexists. split; [|reflexivity].
      match goal with
      | |- context [_resolve_url_boinc_rpc_body ?a ?b ?c ?d] =>
          destruct (_resolve_url_boinc_rpc_body a b c d)
      end; cbn [snd].
      + apply lookup_insert_eq.
      + match goal with |- context [first_attached ?u ?l] => destruct (first_attached u l) end;
          cbn [snd]; apply lookup_insert_eq. }
  destruct Hentry as (hit & Hhit & Hfresh).
  pose proof (resolve_url_boinc_rpc_calls_keep calls _ _ _ Hhit) as Hkept.
  fold between in Hkept.
  assert (Hlater : forall a d,
            resolve_url_boinc_rpc between later_url a d later_known dev_mode
            = match hit with
              | Some found => (found, between)
              | None =>
                  resolve_url_boinc_rpc between later_url [] [] later_known dev_mode
              end).
  { intros a d. unfold resolve_url_boinc_rpc. rewrite Hcase, Hfolding.
    unfold _resolve_url_boinc_rpc. rewrite Hkept. destruct hit; reflexivity. }
  split.
  - rewrite (Hlater attached1 attached_dev1), (Hlater attached2 attached_dev2). reflexivity.
  - intros Hnew found Hfound. rewrite Hlater, (Hfresh Hnew), Hfound. reflexivity.
Qed.

End BoincUrls.

Section BoincUrlRuns.
Import utils StatsHelper.

(** A project found attached at the first call is still the answer once
    it is no longer in the collection passed. *)
Lemma resolve_url_boinc_rpc_witness :
  let first := resolve_url_boinc_rpc ∅ "project1.com" ["https://project1.com"] [] [] false in
  let between := resolve_url_boinc_rpc_calls (snd first) [] in
  fst first = "https://project1.com"
  /\ fst (resolve_url_boinc_rpc between "Project1.com" [] [] [] false) = "https://project1.com".
Proof.
  intros first between. split; [reflexivity|].
  apply (resolve_url_boinc_rpc_attachments_are_memoised ∅ "project1.com" "Project1.com"
           ["https://project1.com"] [] [] false [] [] [] [] [] []); reflexivity.
Defined.

End BoincUrlRuns.

(** ** Steps of the controller *)

Section ControllerSteps.
Import tune_temp.
Local Open Scope float_scope.

(** With no full history behind it ([delta_time] or [error_1] is [None],
    as after the first sample and after every reset), [update_pid] divides
    by the time step itself: a step of zero raises [ZeroDivisionError]. *)
Lemma update_pid_zero_step (self : PIDController) (error dtime : float) (clamped : bool) :
  (dtime =? 0) = true ->
  delta_time self = None \/ error_1 self = None ->
  update_pid self error dtime clamped = Raise ZeroDivisionError.
Proof.
  intros Hzero Hhistory. unfold update_pid.
  assert (Hk : exists k_i,
            (if negb (t_integral self =? 0)
             then py_div (k_proportional self) (t_integral self) else Ok 0.0) = Ok k_i).
  { unfold py_div. destruct (t_integral self =? 0); cbn [negb]; eexists; reflexivity. }
  destruct Hk as [k_i ->]. cbn [bind].
  destruct (error_0 self) as [e0|];
    (destruct Hhistory as [-> | ->];
     [|destruct (delta_time self)]; cbn [bind]; unfold py_div at 1; rewrite Hzero; reflexivity).
Qed.

(** A sample whose timestamp is the one of the sample before makes
    [timestamp_update] raise [ZeroDivisionError] whenever the controller has
    no full history: at the second sample of a run in particular. *)
Theorem timestamp_update_repeated_timestamp (self : PIDController)
    (opt_value timestamp last : float) :
  last_timestamp self = Some last ->
  (timestamp - last =? 0) = true ->
  delta_time self = None \/ error_1 self = None ->
  timestamp_update self opt_value timestamp = Raise ZeroDivisionError.
Proof.
  intros Hlast Hzero Hhistory. unfold timestamp_update, delta_update. rewrite Hlast.
  rewrite update_pid_zero_step; [reflexivity | exact Hzero | exact Hhistory].
Qed.

End ControllerSteps.

Section ControllerStepRuns.
Import tune_temp.

(** A fresh controller given two samples with one timestamp. *)
Lemma timestamp_update_repeated_timestamp_witness :
  (self <- __init__ soft_log 0 70 ;;
   self <- timestamp_update self 65 1000 ;;
   timestamp_update self 66 1000) = Raise ZeroDivisionError.
Proof.
  destruct (__init__ soft_log 0 70) as [self|] eqn:Hinit; [|discriminate].
  cbn [bind].
  assert (Hfirst : timestamp_update self 65 1000 = Ok (set_last_timestamp (Some 1000%float) self)).
  { injection Hinit as <-. reflexivity. }
  rewrite Hfirst. cbn [bind].
  apply (timestamp_update_repeated_timestamp _ 66 1000 1000).
  - reflexivity.
  - reflexivity.
  - left. injection Hinit as <-. reflexivity.
Defined.

End ControllerStepRuns.

Section FloatOrder.
Local Open Scope float_scope.

Lemma ltb_leb (x y : float) : (x <? y) = true -> (x <=? y) = true.
Proof.
  rewrite ltb_spec, leb_spec. unfold SFltb, SFleb.
  destruct (SFcompare (Prim2SF x) (Prim2SF y)) as [[]|]; auto.
Qed.

Lemma SFcompare_refl (x : spec_float) : x <> S754_nan -> SFcompare x x = Some Eq.
Proof.
  destruct x as [s|s| |s m e]; intros Hx; cbn; try reflexivity; try congruence.
  - destruct s; reflexivity.
  - rewrite Z.compare_refl.
    assert (Hm : Pos.compare_cont Eq m m = Eq) by apply Pos.compare_cont_refl.
    destruct s; rewrite Hm; reflexivity.
Qed.

Lemma leb_not_nan (x y : float) :
  (x <=? y) = true -> Prim2SF x <> S754_nan /\ Prim2SF y <> S754_nan.
Proof.
  rewrite leb_spec. unfold SFleb.
  destruct (Prim2SF x), (Prim2SF y); cbn; intros H; split; congruence.
Qed.

Lemma leb_refl (x : float) : Prim2SF x <> S754_nan -> (x <=? x) = true.
Proof. intros Hx. rewrite leb_spec. unfold SFleb. now rewrite SFcompare_refl. Qed.

(** [max(-h, min(h, c))] lies between [-h] and [h]. *)
Lemma clamp_between (h c : float) :
  (- h <=? h) = true ->
  let r := tune_temp.py_max (- h) (tune_temp.py_min h c) in
  (- h <=? r) = true /\ (r <=? h) = true.
Proof.
  intros Hh r. destruct (leb_not_nan _ _ Hh) as [Hneg Hpos].
  subst r. unfold tune_temp.py_max, tune_temp.py_min.
  destruct (c <? h) eqn:Hc.
  - destruct (- h <? c) eqn:Hlow.
    + split; apply ltb_leb; assumption.
    + split; [apply leb_refl; assumption | exact Hh].
  - destruct (- h <? h) eqn:Hlow.
    + split; [exact Hh | apply leb_refl; assumption].
    + split; [apply leb_refl; assumption | exact Hh].
Qed.

Lemma Prim2SF_nan : Prim2SF nan = S754_nan.
Proof. reflexivity. Qed.

Lemma is_nan_eq (x : float) : Prim2SF x = S754_nan -> x = nan.
Proof. intros Hx. apply Prim2SF_inj. now rewrite Hx, Prim2SF_nan. Qed.

Lemma sub_nan_r (x : float) : x - nan = nan.
Proof.
  apply is_nan_eq. rewrite sub_spec, Prim2SF_nan. unfold SF64sub, SFsub.
  destruct (Prim2SF x); reflexivity.
Qed.

Lemma mul_nan_r (x : float) : x * nan = nan.
Proof.
  apply is_nan_eq. rewrite mul_spec, Prim2SF_nan. unfold SF64mul, SFmul.
  destruct (Prim2SF x); reflexivity.
Qed.

Lemma add_nan_r (x : float) : x + nan = nan.
Proof.
  apply is_nan_eq. rewrite add_spec, Prim2SF_nan. unfold SF64add, SFadd.
  destruct (Prim2SF x); reflexivity.
Qed.

Lemma add_nan_l (x : float) : nan + x = nan.
Proof.
  apply is_nan_eq. rewrite add_spec, Prim2SF_nan. unfold SF64add, SFadd.
  destruct (Prim2SF x); reflexivity.
Qed.

Lemma ltb_nan_l (x : float) : (nan <? x) = false.
Proof. rewrite ltb_spec, Prim2SF_nan. reflexivity. Qed.

End FloatOrder.

Section ControllerBounds.
Import tune_temp.
Local Open Scope float_scope.

Variable math_exp : float -> result float.

(** [update_pid] changes the error history and nothing else. *)
Lemma update_pid_frame (self self' : PIDController) (error dtime delta : float) (clamped : bool) :
  update_pid self error dtime clamped = Ok (delta, self') ->
  self' = set_history (Some error) (error_0 self)
            (if 0 <? dtime then Some dtime else None) self.
Proof.
  unfold update_pid. intros H.
  repeat match type of H with
         | bind ?r _ = Ok _ => apply bind_Ok in H as (? & _ & H)
         | (let '(_, _) := ?p in _) = Ok _ => destruct p
         end.
  congruence.
Qed.

(** [delta_update] leaves [ctrl] between [-clamp_hard] and [clamp_hard],
    whatever the sample and the time step, and does not touch the clamps. *)
Theorem delta_update_keeps_ctrl_clamped (self self' : PIDController) (opt_value dtime : float) :
  (- clamp_hard self <=? clamp_hard self) = true ->
  delta_update self opt_value dtime = Ok self' ->
  (- clamp_hard self' <=? ctrl self') = true
  /\ (ctrl self' <=? clamp_hard self') = true
  /\ clamp_hard self' = clamp_hard self
  /\ clamp_soft self' = clamp_soft self.
Proof.
  intros Hhard Hupdate. unfold delta_update in Hupdate.
  apply bind_Ok in Hupdate as ([delta stepped] & Hpid & Hupdate).
  apply update_pid_frame in Hpid. subst stepped.
  injection Hupdate as <-. cbn [clamp_hard clamp_soft ctrl set_ctrl set_history].
  destruct (clamp_between (clamp_hard self) (ctrl self + delta) Hhard) as [Hlow Hhigh].
  repeat split; assumption.
Qed.

(** An error that is not a number makes the increment of [update_pid]
    not a number. *)
Lemma update_pid_nan_error (self self' : PIDController) (dtime delta : float) (clamped : bool) :
  update_pid self nan dtime clamped = Ok (delta, self') -> delta = nan.
Proof.
  unfold update_pid. intros H.
  destruct (error_0 self), (error_1 self), (delta_time self);
    repeat match type of H with
           | bind ?r _ = Ok _ =>
               let E := fresh "E" in apply bind_Ok in H as (? & E & H)
           | (let '(_, _) := ?p in _) = Ok _ => destruct p
           end;
    injection H as Hdelta _; subst delta;
    repeat match goal with
           | E : bind ?r _ = Ok _ |- _ =>
               let E' := fresh "E" in apply bind_Ok in E as (? & E' & E)
           end;
    repeat match goal with
           | E : Ok ?a = Ok ?b |- _ => injection E as E
           end;
    subst;
    repeat (rewrite mul_nan_r || rewrite add_nan_r || rewrite add_nan_l);
    reflexivity.
Qed.

(** A sample that is not a number drives the controller to its upper
    clamp: when [delta_update] returns, [ctrl] is [clamp_hard] and the
    clamped output is [clamped_high], the highest there is. *)
Theorem delta_update_nan_sample (self self' : PIDController) (dtime : float) :
  (- clamp_hard self <? clamp_hard self) = true ->
  (clamp_hard self <? - clamp_soft self) = false ->
  (clamp_soft self <? clamp_hard self) = true ->
  delta_update self nan dtime = Ok self' ->
  ctrl self' = clamp_hard self
  /\ clamped_ctrl math_exp self' = Ok (clamped_high self).
Proof.
  intros Hhard Hlow Hhigh Hupdate. unfold delta_update in Hupdate.
  rewrite sub_nan_r in Hupdate.
  apply bind_Ok in Hupdate as ([delta stepped] & Hpid & Hupdate).
  pose proof (update_pid_nan_error _ _ _ _ _ Hpid) as Hdelta.
  apply update_pid_frame in Hpid. subst stepped delta.
  injection Hupdate as <-. unfold clamped_ctrl.
  cbn [clamp_hard clamp_soft clamped_high ctrl set_ctrl set_history].
  rewrite add_nan_r. unfold py_max, py_min. rewrite ltb_nan_l, Hhard, Hlow, Hhigh.
  split; reflexivity.
Qed.

End ControllerBounds.

Section ControllerBoundRuns.
Import tune_temp.
Local Open Scope float_scope.

(** A fresh controller after one step of ten seconds at 65 degrees. *)
Lemma delta_update_keeps_ctrl_clamped_witness :
  exists self self',
    __init__ soft_log 0 70 = Ok self
    /\ delta_update self 65 10 = Ok self'
    /\ (- clamp_hard self' <=? ctrl self') = true
    /\ (ctrl self' <=? clamp_hard self') = true.
Proof.
  destruct (__init__ soft_log 0 70) as [self|] eqn:Hinit; [|discriminate].
  destruct (delta_update self 65 10) as [self'|] eqn:Hupdate.
  - exists self, self'. split; [reflexivity|]. split; [exact Hupdate|].
    destruct (delta_update_keeps_ctrl_clamped self self' 65 10) as (Hlow & Hhigh & _);
      [injection Hinit as <-; reflexivity | exact Hupdate | split; assumption].
  - exfalso. injection Hinit as <-. vm_compute in Hupdate. discriminate.
Defined.

(** The same controller given a sample that is not a number. *)
Lemma delta_update_nan_sample_witness :
  exists self self',
    __init__ soft_log 0 70 = Ok self
    /\ delta_update self nan 10 = Ok self'
    /\ ctrl self' = clamp_hard self
    /\ clamped_ctrl soft_exp self' = Ok 1.
Proof.
  destruct (__init__ soft_log 0 70) as [self|] eqn:Hinit; [|discriminate].
  destruct (delta_update self nan 10) as [self'|] eqn:Hupdate.
  - exists self, self'. split; [reflexivity|]. split; [exact Hupdate|].
    replace 1 with (clamped_high self) by (injection Hinit as <-; reflexivity).
    apply (delta_update_nan_sample soft_exp self self' 10);
      try exact Hupdate; injection Hinit as <-; reflexivity.
  - exfalso. injection Hinit as <-. vm_compute in Hupdate. discriminate.
Defined.

End ControllerBoundRuns.

(** ** Magnitudes, applied twice *)

Section MagnitudesTwice.
Import StatsHelper.

Variable mag_ratios : gmap string Q.
Variables approved_projects preferred_projects : list string.

(** One step writes [AVGMAGPERHOUR] and [MAGPERCREDIT] and nothing else. *)
Lemma add_mag_step_frame (project_url : string) (project_stats : ProjectStats) :
  let updated :=
    fst (add_mag_step mag_ratios approved_projects preferred_projects
           project_url project_stats) in
  CREDIT_HISTORY updated = CREDIT_HISTORY project_stats
  /\ WU_HISTORY updated = WU_HISTORY project_stats
  /\ (forall key, key <> "AVGMAGPERHOUR" -> key <> "MAGPERCREDIT" ->
        COMPILED_STATS updated !! key = COMPILED_STATS project_stats !! key)
  /\ is_Some (COMPILED_STATS updated !! "AVGMAGPERHOUR")
  /\ COMPILED_STATS updated !! "MAGPERCREDIT"
     = Some (if Qeq_bool (default 0%Q (mag_ratios !! project_url)) 0 then 0%Q
             else default 0%Q (mag_ratios !! project_url)).
Proof.
  cbv zeta. unfold add_mag_step.
  destruct (Qeq_bool (default 0%Q (mag_ratios !! project_url)) 0);
    cbn [fst CREDIT_HISTORY WU_HISTORY COMPILED_STATS set_compiled];
    (split; [reflexivity|]; split; [reflexivity|]; split; [|split]).
  all: try (intros key Ha Hm; rewrite !lookup_insert_ne by congruence; reflexivity).
  all: try (rewrite lookup_insert_ne by discriminate; rewrite lookup_insert_eq; eexists; reflexivity).
  all: apply lookup_insert_eq.
Qed.

(** A second step on the result of a first changes nothing. *)
Lemma add_mag_step_twice (project_url : string) (project_stats : ProjectStats) :
  let once :=
    add_mag_step mag_ratios approved_projects preferred_projects project_url project_stats in
  add_mag_step mag_ratios approved_projects preferred_projects project_url (fst once) = once.
Proof.
  cbv zeta. unfold add_mag_step.
  destruct (Qeq_bool (default 0%Q (mag_ratios !! project_url)) 0);
    cbn [fst COMPILED_STATS CREDIT_HISTORY WU_HISTORY set_compiled]; unfold set_compiled;
    cbn [COMPILED_STATS CREDIT_HISTORY WU_HISTORY]; f_equal; f_equal.
  - apply map_eq. intros key.
    destruct (decide (key = "MAGPERCREDIT")) as [->|Hm];
      [rewrite !lookup_insert_eq; reflexivity|].
    rewrite !(lookup_insert_ne _ "MAGPERCREDIT") by congruence.
    destruct (decide (key = "AVGMAGPERHOUR")) as [->|Ha];
      [rewrite !lookup_insert_eq; reflexivity|].
    rewrite !(lookup_insert_ne _ "AVGMAGPERHOUR") by congruence.
    rewrite !(lookup_insert_ne _ "MAGPERCREDIT") by congruence.
    rewrite !(lookup_insert_ne _ "AVGMAGPERHOUR") by congruence.
    reflexivity.
  - rewrite (lookup_insert_ne _ "MAGPERCREDIT" "AVGCREDITPERHOUR") by discriminate.
    rewrite (lookup_insert_ne _ "AVGMAGPERHOUR" "AVGCREDITPERHOUR") by discriminate.
    apply map_eq. intros key.
    destruct (decide (key = "MAGPERCREDIT")) as [->|Hm];
      [rewrite !lookup_insert_eq; reflexivity|].
    rewrite !(lookup_insert_ne _ "MAGPERCREDIT") by congruence.
    destruct (decide (key = "AVGMAGPERHOUR")) as [->|Ha];
      [rewrite !lookup_insert_eq; reflexivity|].
    rewrite !(lookup_insert_ne _ "AVGMAGPERHOUR") by congruence.
    rewrite !(lookup_insert_ne _ "MAGPERCREDIT") by congruence.
    rewrite !(lookup_insert_ne _ "AVGMAGPERHOUR") by congruence.
    reflexivity.
Qed.

Lemma add_mag_loop_twice (combined_stats : list (string * ProjectStats)) :
  let once := add_mag_loop mag_ratios approved_projects preferred_projects combined_stats in
  add_mag_loop mag_ratios approved_projects preferred_projects (fst once) = once
  /\ List.map fst (fst once) = List.map fst combined_stats.
Proof.
  cbv zeta. induction combined_stats as [|[url stats] rest [IH IHkeys]]; [split; reflexivity|].
  cbn [add_mag_loop].
  pose proof (add_mag_step_twice url stats) as Hstep. cbv zeta in Hstep.
  destruct (add_mag_step mag_ratios approved_projects preferred_projects url stats)
    as [stats' unapproved].
  destruct (add_mag_loop mag_ratios approved_projects preferred_projects rest)
    as [rest' unapproved_list].
  cbn [fst List.map] in *. cbn [add_mag_loop]. rewrite Hstep, IH, IHkeys. split; reflexivity.
Qed.

End MagnitudesTwice.

Section MagnitudesTwiceCalls.
Import StatsHelper.

(** [add_mag_to_combined_stats] can be run again on its own result without
    changing it: the statistics and the unapproved list come out the same.
    It keeps the projects and their order, and no project that is approved
    or preferred is ever on the unapproved list. *)
Theorem add_mag_to_combined_stats_idempotent
    (combined_stats : list (string * ProjectStats)) (mag_ratios : option (gmap string Q))
    (approved_projects preferred_projects : list string) :
  let once :=
    add_mag_to_combined_stats combined_stats mag_ratios approved_projects preferred_projects in
  add_mag_to_combined_stats (fst once) mag_ratios approved_projects preferred_projects = once
  /\ List.map fst (fst once) = List.map fst combined_stats
  /\ (forall project_url,
        In project_url (snd once) ->
        In project_url (List.map fst combined_stats)
        /\ in_strs project_url approved_projects = false
        /\ in_strs project_url preferred_projects = false)
  /\ (forall project_url project_stats,
        In (project_url, project_stats) combined_stats ->
        exists updated,
          In (project_url, updated) (fst once)
          /\ CREDIT_HISTORY updated = CREDIT_HISTORY project_stats
          /\ WU_HISTORY updated = WU_HISTORY project_stats
          /\ (forall key, key <> "AVGMAGPERHOUR" -> key <> "MAGPERCREDIT" ->
                COMPILED_STATS updated !! key = COMPILED_STATS project_stats !! key)).
Proof.
  cbv zeta. unfold add_mag_to_combined_stats.
  set (ratios := match mag_ratios with
                 | Some m => if bool_decide (m = ∅) then ∅ else m
                 | None => ∅
                 end).
  destruct (add_mag_loop_twice ratios approved_projects preferred_projects combined_stats)
    as [Htwice Hkeys].
  split; [exact Htwice|]. split; [exact Hkeys|]. split.
  - intros project_url Hin. apply add_mag_loop_unapproved in Hin as [Hkey Hjoins].
    split; [exact Hkey|]. unfold joins_unapproved in Hjoins.
    apply andb_true_iff in Hjoins as [Hjoins Hpreferred].
    apply andb_true_iff in Hjoins as [_ Happroved].
    apply negb_true_iff in Hpreferred, Happroved. split; assumption.
  - intros project_url project_stats Hin.
    eexists. split; [apply add_mag_loop_entry; exact Hin|].
    destruct (add_mag_step_frame ratios approved_projects preferred_projects
                project_url project_stats) as (Hcredit & Hwu & Hother & _).
    split; [exact Hcredit|]. split; [exact Hwu | exact Hother].
Qed.

End MagnitudesTwiceCalls.

(** ** The most efficient projects, at any tolerance *)

Section EfficientMembers.
Import StatsHelper.

Variable combinedstats : list (string * ProjectStats).
Variable ignored_projects : list string.
Hypothesis unique_keys : List.NoDup (List.map fst combinedstats).

(** The second loop goes through the keys in order and keeps some of
    them, never the highest project. *)
Lemma within_percentdiff_keys (highest : string) (minimum : Q)
    (items : list (string * ProjectStats)) (more : list string) :
  within_percentdiff items ignored_projects highest minimum = Ok more ->
  (forall p, In p more -> In p (List.map fst items) /\ p <> highest)
  /\ (List.NoDup (List.map fst items) -> List.NoDup more).
Proof.
  revert more. induction items as [|[url stats] rest IH]; intros more Hrun.
  - injection Hrun as <-. split; [intros p [] | intros _; constructor].
  - cbn [within_percentdiff] in Hrun.
    apply bind_Ok in Hrun as (current & _ & Hrun).
    assert (Hlater : forall more',
              within_percentdiff rest ignored_projects highest minimum = Ok more' ->
              (forall p, In p more' -> In p (List.map fst ((url, stats) :: rest)) /\ p <> highest)
              /\ (List.NoDup (List.map fst ((url, stats) :: rest)) -> List.NoDup more')).
    { intros more' Hmore. destruct (IH _ Hmore) as [Hin Hnodup]. split.
      - intros p Hp. destruct (Hin p Hp). split; [now right | assumption].
      - intros Hkeys. apply Hnodup. now inversion Hkeys. }
    destruct (String.eqb_spec url highest) as [->|Hother]; [exact (Hlater _ Hrun)|].
    destruct (in_strs url ignored_projects); [exact (Hlater _ Hrun)|].
    destruct (Qle_bool minimum current
              && is_project_eligible url stats ignored_projects
              && negb (Qeq_bool current 0)); [|exact (Hlater _ Hrun)].
    apply bind_Ok in Hrun as (more' & Hmore & Hrun). injection Hrun as <-.
    destruct (IH _ Hmore) as [Hin Hnodup]. split.
    + intros p [<-|Hp]; [split; [now left | exact Hother]|].
      destruct (Hin p Hp). split; [now right | assumption].
    + cbn [List.map fst]. intros Hkeys. inversion Hkeys as [|? ? Hfresh Hrest]; subst.
      constructor; [|auto]. intros Hp. apply Hfresh. now apply Hin.
Qed.

(** What the second loop keeps is eligible, at or above the threshold, and
    not zero. *)
Lemma within_percentdiff_nonzero (highest : string) (minimum : Q)
    (items : list (string * ProjectStats)) (more : list string) :
  within_percentdiff items ignored_projects highest minimum = Ok more ->
  forall p, In p more ->
    exists stats m,
      In (p, stats) items
      /\ avg_mag_per_hour stats = Ok m
      /\ (minimum <= m)%Q
      /\ is_project_eligible p stats ignored_projects = true
      /\ ~ (m == 0)%Q.
Proof.
  revert more. induction items as [|[url stats] rest IH]; intros more Hrun p Hp.
  - injection Hrun as <-. destruct Hp.
  - cbn [within_percentdiff] in Hrun. fold (avg_mag_per_hour stats) in Hrun.
    apply bind_Ok in Hrun as (current & Hcurrent & Hrun).
    assert (Hlater : forall more',
              within_percentdiff rest ignored_projects highest minimum = Ok more' ->
              In p more' ->
              exists st m,
                In (p, st) ((url, stats) :: rest)
                /\ avg_mag_per_hour st = Ok m
                /\ (minimum <= m)%Q
                /\ is_project_eligible p st ignored_projects = true
                /\ ~ (m == 0)%Q).
    { intros more' Hmore Hin. destruct (IH _ Hmore p Hin) as (st & m & H1 & H2).
      exists st, m. split; [now right | exact H2]. }
    destruct (String.eqb url highest); [exact (Hlater _ Hrun Hp)|].
    destruct (in_strs url ignored_projects); [exact (Hlater _ Hrun Hp)|].
    destruct (Qle_bool minimum current) eqn:Hmin; cbn [andb] in Hrun;
      [|exact (Hlater _ Hrun Hp)].
    destruct (is_project_eligible url stats ignored_projects) eqn:Hel; cbn [andb] in Hrun;
      [|exact (Hlater _ Hrun Hp)].
    destruct (Qeq_bool current 0) eqn:Hzero; cbn [negb] in Hrun;
      [exact (Hlater _ Hrun Hp)|].
    apply bind_Ok in Hrun as (more' & Hmore & Hrun). injection Hrun as <-.
    destruct Hp as [<-|Hp]; [|exact (Hlater _ Hmore Hp)].
    exists stats, current. split; [now left|]. split; [exact Hcurrent|].
    split; [now apply Qle_bool_iff|]. split; [exact Hel|].
    intros Heq. apply Qeq_bool_iff in Heq. congruence.
Qed.

Lemma within_percentdiff_reads_every_project (highest : string) (minimum : Q)
    (items : list (string * ProjectStats)) (more : list string) :
  within_percentdiff items ignored_projects highest minimum = Ok more ->
  Forall (fun entry => is_Some (COMPILED_STATS (snd entry) !! "AVGMAGPERHOUR")) items.
Proof.
  revert more. induction items as [|[url stats] rest IH]; intros more Hrun; [constructor|].
  cbn [within_percentdiff] in Hrun.
  apply bind_Ok in Hrun as (current & Hcurrent & Hrun).
  constructor.
  - cbn [snd]. unfold compiled_get in Hcurrent.
    destruct (COMPILED_STATS stats !! "AVGMAGPERHOUR"); [eexists; reflexivity | discriminate].
  - destruct (String.eqb url highest); [eauto|].
    destruct (in_strs url ignored_projects); [eauto|].
    destruct (Qle_bool minimum current
              && is_project_eligible url stats ignored_projects
              && negb (Qeq_bool current 0)); [|eauto].
    apply bind_Ok in Hrun as (more' & Hmore & _). eauto.
Qed.

Lemma find_highest_raises (items : list (string * ProjectStats)) (start : string) (e : exn) :
  find_highest combinedstats items ignored_projects start = Raise e -> e = KeyError.
Proof.
  revert start. induction items as [|[url stats] rest IH]; intros start Hfind; [discriminate|].
  cbn [find_highest] in Hfind.
  destruct (in_strs url ignored_projects); [eauto|].
  apply bind_Raise in Hfind as [Hfind|(current & _ & Hfind)];
    [eapply compiled_get_raises; eauto|].
  apply bind_Raise in Hfind as [Hfind|(highest_stats & _ & Hfind)];
    [unfold stats_get in Hfind; destruct (dict_get combinedstats start); congruence|].
  apply bind_Raise in Hfind as [Hfind|(highest_mag & _ & Hfind)];
    [eapply compiled_get_raises; eauto|].
  destruct (Qgt_bool current highest_mag && is_project_eligible url stats ignored_projects);
    eauto.
Qed.

Lemma within_percentdiff_raises (highest : string) (minimum : Q)
    (items : list (string * ProjectStats)) (e : exn) :
  within_percentdiff items ignored_projects highest minimum = Raise e -> e = KeyError.
Proof.
  induction items as [|[url stats] rest IH]; intros Hrun; [discriminate|].
  cbn [within_percentdiff] in Hrun.
  apply bind_Raise in Hrun as [Hrun|(current & _ & Hrun)];
    [eapply compiled_get_raises; eauto|].
  destruct (String.eqb url highest); [eauto|].
  destruct (in_strs url ignored_projects); [eauto|].
  destruct (Qle_bool minimum current
            && is_project_eligible url stats ignored_projects
            && negb (Qeq_bool current 0)); [|eauto].
  apply bind_Raise in Hrun as [Hrun|(more' & _ & Hrun)]; [eauto | discriminate].
Qed.

(** Whatever the tolerance, [get_most_mag_efficient_projects] returns
    distinct projects of the statistics, none of them ignored.  No eligible
    project has a higher magnitude per hour than the first one returned;
    each of the others is eligible, and its magnitude per hour is not zero
    and not above that of the first.  Nothing is said of the threshold,
    which the source computes in binary64. *)
Theorem most_mag_efficient_projects_members (percentdiff : Z) (returned : list string) :
  get_most_mag_efficient_projects combinedstats ignored_projects percentdiff = Ok returned ->
  List.NoDup returned
  /\ (forall p, In p returned ->
        In p (List.map fst combinedstats) /\ in_strs p ignored_projects = false)
  /\ (forall highest others,
        returned = highest :: others ->
        exists highest_stats top,
          In (highest, highest_stats) combinedstats
          /\ avg_mag_per_hour highest_stats = Ok top
          /\ (forall q stats m,
                In (q, stats) combinedstats ->
                is_project_eligible q stats ignored_projects = true ->
                avg_mag_per_hour stats = Ok m -> (m <= top)%Q)
          /\ (forall p, In p others ->
                exists stats m,
                  In (p, stats) combinedstats
                  /\ is_project_eligible p stats ignored_projects = true
                  /\ avg_mag_per_hour stats = Ok m
                  /\ ~ (m == 0)%Q
                  /\ (m <= top)%Q)).
Proof.
  unfold get_most_mag_efficient_projects. cbv zeta.
  destruct (get_first_non_ignored_project (List.map fst combinedstats) ignored_projects)
    as [first|] eqn:Hfirst.
  2: { intros [= <-]. split; [constructor|]. split; [intros p []|]. discriminate. }
  apply first_non_ignored_Some in Hfirst as [Hfirst_key Hfirst_kept].
  destruct (String.eqb first "").
  { intros [= <-]. split; [constructor|]. split; [intros p []|]. discriminate. }
  intros Hrun.
  apply bind_Ok in Hrun as (highest & Hfind & Hrun).
  apply bind_Ok in Hrun as (highest_stats & Hstats & Hrun).
  apply bind_Ok in Hrun as (tasks & Htasks & Hrun).
  fold (avg_mag_per_hour highest_stats) in Hrun.
  apply bind_Ok in Hrun as (top & Htop & Hrun).
  apply bind_Ok in Hrun as (more & Hmore & Hrun).
  pose proof (stats_get_In _ _ _ Hstats) as Hhighest_in.
  assert (Hhighest_kept : in_strs highest ignored_projects = false).
  { destruct (find_highest_origin _ _ _ _ _ Hfind) as [->|(st & _ & Hel)]; [exact Hfirst_kept|].
    eapply eligible_not_ignored; eauto. }
  destruct (within_percentdiff_keys _ _ _ _ Hmore) as [Hmore_keys Hmore_nodup].
  specialize (Hmore_nodup unique_keys).
  destruct (find_highest_bounds combinedstats ignored_projects unique_keys combinedstats
              (incl_refl _) first highest highest_stats top Hfind Hstats Htop)
    as [_ Hbound].
  assert (Hfull : List.NoDup (highest :: more)
            /\ (forall p, In p (highest :: more) ->
                  In p (List.map fst combinedstats) /\ in_strs p ignored_projects = false)
            /\ (forall p, In p more ->
                  exists stats m,
                    In (p, stats) combinedstats
                    /\ is_project_eligible p stats ignored_projects = true
                    /\ avg_mag_per_hour stats = Ok m
                    /\ ~ (m == 0)%Q
                    /\ (m <= top)%Q)).
  { split; [|split].
    - constructor; [|exact Hmore_nodup]. intros Hin. now destruct (Hmore_keys _ Hin).
    - intros p [<-|Hp].
      + split; [|exact Hhighest_kept]. apply (in_map fst) in Hhighest_in. exact Hhighest_in.
      + destruct (Hmore_keys _ Hp) as [Hkey _]. split; [exact Hkey|].
        destruct (within_percentdiff_sound _ _ _ _ _ Hmore p Hp) as (st & m & _ & _ & _ & Hel).
        eapply eligible_not_ignored; eauto.
    - intros p Hp.
      destruct (within_percentdiff_nonzero _ _ _ _ Hmore p Hp)
        as (st & m & Hin & Hm & Hmin & Hel & Hnz).
      exists st, m. split; [exact Hin|]. split; [exact Hel|]. split; [exact Hm|].
      split; [exact Hnz|]. eapply Hbound; eauto. }
  destruct Hfull as (Hnodup & Hkept & Hothers).
  assert (Hcases : returned = highest :: more \/ returned = []).
  { destruct more as [|p more]; cbn in Hrun.
    - rewrite Htasks in Hrun. cbn [bind] in Hrun.
      destruct (Qle_bool 10 tasks); injection Hrun as <-; auto.
    - injection Hrun as <-. auto. }
  destruct Hcases as [-> | ->].
  - split; [exact Hnodup|]. split; [exact Hkept|].
    intros h others [= <- <-]. exists highest_stats, top. repeat split; eauto.
  - split; [constructor|]. split; [intros p []|]. discriminate.
Qed.

(** The second loop keeps more when its threshold is lower. *)
Lemma within_percentdiff_monotone (highest : string) (lower higher : Q)
    (items : list (string * ProjectStats)) (more_lower more_higher : list string) :
  (lower <= higher)%Q ->
  within_percentdiff items ignored_projects highest lower = Ok more_lower ->
  within_percentdiff items ignored_projects highest higher = Ok more_higher ->
  incl more_higher more_lower.
Proof.
  intros Hle. revert more_lower more_higher.
  induction items as [|[url stats] rest IH]; intros more_lower more_higher Hlow Hhigh.
  - injection Hhigh as <-. intros p [].
  - cbn [within_percentdiff] in Hlow, Hhigh.
    apply bind_Ok in Hlow as (current & Hcurrent & Hlow).
    rewrite Hcurrent in Hhigh. cbn [bind] in Hhigh.
    destruct (String.eqb url highest); [eauto|].
    destruct (in_strs url ignored_projects); [eauto|].
    destruct (Qle_bool higher current) eqn:Hhigher; cbn [andb] in Hhigh.
    + assert (Hlower : Qle_bool lower current = true).
      { apply Qle_bool_iff. apply Qle_bool_iff in Hhigher. eapply Qle_trans; eauto. }
      rewrite Hlower in Hlow. cbn [andb] in Hlow.
      destruct (is_project_eligible url stats ignored_projects && negb (Qeq_bool current 0));
        [|eauto].
      apply bind_Ok in Hlow as (l & Hl & Hlow). injection Hlow as <-.
      apply bind_Ok in Hhigh as (h & Hh & Hhigh). injection Hhigh as <-.
      intros p [<-|Hp]; [now left | right; eapply IH; eauto].
    + destruct (Qle_bool lower current && is_project_eligible url stats ignored_projects
                && negb (Qeq_bool current 0)); [|eauto].
      apply bind_Ok in Hlow as (l & Hl & Hlow). injection Hlow as <-.
      intros p Hp. right. eapply IH; eauto.
Qed.

(** A wider tolerance never drops a project: as long as the highest
    magnitude per hour is not negative, what
    [get_most_mag_efficient_projects] returns at one tolerance is returned
    at every larger one. *)
Theorem most_mag_efficient_projects_grow_with_tolerance
    (narrow wide : Z) (returned_narrow returned_wide : list string) :
  narrow <= wide ->
  Forall (fun entry => forall m, avg_mag_per_hour (snd entry) = Ok m -> (0 <= m)%Q)
    combinedstats ->
  get_most_mag_efficient_projects combinedstats ignored_projects narrow = Ok returned_narrow ->
  get_most_mag_efficient_projects combinedstats ignored_projects wide = Ok returned_wide ->
  incl returned_narrow returned_wide.
Proof.
  intros Hle Hpositive. unfold get_most_mag_efficient_projects. cbv zeta.
  destruct (get_first_non_ignored_project (List.map fst combinedstats) ignored_projects)
    as [first|]; [|intros [= <-] _; intros p []].
  destruct (String.eqb first ""); [intros [= <-] _; intros p []|].
  intros Hnarrow Hwide.
  apply bind_Ok in Hnarrow as (highest & Hfind & Hnarrow).
  rewrite Hfind in Hwide. cbn [bind] in Hwide.
  apply bind_Ok in Hnarrow as (highest_stats & Hstats & Hnarrow).
  rewrite Hstats in Hwide. cbn [bind] in Hwide.
  apply bind_Ok in Hnarrow as (tasks & Htasks & Hnarrow).
  rewrite Htasks in Hwide. cbn [bind] in Hwide.
  fold (avg_mag_per_hour highest_stats) in Hnarrow, Hwide.
  apply bind_Ok in Hnarrow as (top & Htop & Hnarrow).
  rewrite Htop in Hwide. cbn [bind] in Hwide.
  apply bind_Ok in Hnarrow as (more_narrow & Hmore_narrow & Hnarrow).
  apply bind_Ok in Hwide as (more_wide & Hmore_wide & Hwide).
  assert (Htop_positive : (0 <= top)%Q).
  { rewrite List.Forall_forall in Hpositive.
    apply (Hpositive (highest, highest_stats)); [eapply stats_get_In; eauto | exact Htop]. }
  assert (Hthreshold :
            (top - top * (inject_Z wide / 100) <= top - top * (inject_Z narrow / 100))%Q).
  { apply Qplus_le_r. apply Qopp_le_compat.
    rewrite !(Qmult_comm top). apply Qmult_le_compat_r; [|exact Htop_positive].
    apply Qmult_le_compat_r; [|discriminate].
    rewrite <- Zle_Qle. exact Hle. }
  pose proof (within_percentdiff_monotone _ _ _ _ _ _ Hthreshold Hmore_wide Hmore_narrow)
    as Hincl.
  destruct more_narrow as [|p more_narrow]; cbn in Hnarrow.
  - rewrite Htasks in Hnarrow. cbn [bind] in Hnarrow.
    destruct (Qle_bool 10 tasks) eqn:Hten; injection Hnarrow as <-; [|intros p []].
    destruct more_wide as [|q more_wide]; cbn [List.length app Nat.eqb bind] in Hwide.
    + injection Hwide as <-. apply incl_refl.
    + injection Hwide as <-. intros p [<-|[]]. now left.
  - injection Hnarrow as <-.
    destruct more_wide as [|q more_wide]; [exfalso; apply (Hincl p); now left|].
    cbn in Hwide. injection Hwide as <-.
    intros x [<-|Hx]; [now left | right; apply Hincl; exact Hx].
Qed.

(** Every project is read in the second loop, the ignored ones too: when
    some project has no [AVGMAGPERHOUR] and one project at least is not
    ignored, the call raises [KeyError], whatever the tolerance. *)
Theorem most_mag_efficient_projects_missing_magnitude
    (project_url : string) (project_stats : ProjectStats) (percentdiff : Z) :
  In (project_url, project_stats) combinedstats ->
  COMPILED_STATS project_stats !! "AVGMAGPERHOUR" = None ->
  existsb (fun key => negb (in_strs key ignored_projects)) (List.map fst combinedstats) = true ->
  in_strs "" (List.map fst combinedstats) = false ->
  get_most_mag_efficient_projects combinedstats ignored_projects percentdiff = Raise KeyError.
Proof.
  intros Hin Hmissing Hkept Hempty.
  unfold get_most_mag_efficient_projects. cbv zeta.
  destruct (get_first_non_ignored_project (List.map fst combinedstats) ignored_projects)
    as [first|] eqn:Hfirst.
  2: { exfalso. apply existsb_exists in Hkept as (key & Hkey & Hunignored).
       rewrite (first_non_ignored_None _ _ key Hfirst Hkey) in Hunignored. discriminate. }
  apply first_non_ignored_Some in Hfirst as [Hfirst_key _].
  destruct (String.eqb_spec first "") as [->|_].
  { apply in_strs_In in Hfirst_key. congruence. }
  destruct (find_highest combinedstats combinedstats ignored_projects first)
    as [highest|e] eqn:Hfind; cbn [bind];
    [|now rewrite (find_highest_raises _ _ _ Hfind)].
  destruct (stats_get combinedstats highest) as [highest_stats|e] eqn:Hstats; cbn [bind];
    [|unfold stats_get in Hstats; destruct (dict_get combinedstats highest); congruence].
  destruct (compiled_get (COMPILED_STATS highest_stats) "TOTALTASKS") as [tasks|e] eqn:Htasks;
    cbn [bind]; [|now rewrite (compiled_get_raises _ _ _ Htasks)].
  destruct (compiled_get (COMPILED_STATS highest_stats) "AVGMAGPERHOUR") as [top|e] eqn:Htop;
    cbn [bind]; [|now rewrite (compiled_get_raises _ _ _ Htop)].
  destruct (within_percentdiff combinedstats ignored_projects highest
              (top - top * (inject_Z percentdiff / 100))) as [more|e] eqn:Hmore; cbn [bind];
    [|now rewrite (within_percentdiff_raises _ _ _ _ Hmore)].
  exfalso. apply within_percentdiff_reads_every_project in Hmore.
  rewrite List.Forall_forall in Hmore. destruct (Hmore _ Hin) as [m Hm].
  cbn [snd] in Hm. congruence.
Qed.

End EfficientMembers.

Section EfficientMemberRuns.
Import StatsHelper.

(** An ignored project without [AVGMAGPERHOUR] beside a project in good
    order. *)
Lemma most_mag_efficient_projects_missing_magnitude_witness :
  get_most_mag_efficient_projects
    [ ("A.COM", mkProjectStats [] [] (<["AVGMAGPERHOUR" := 1%Q]> (<["TOTALTASKS" := 20%Q]> ∅)));
      ("B.COM", mkProjectStats [] [] (<["TOTALTASKS" := 20%Q]> ∅)) ]
    ["B.COM"] 10
  = Raise KeyError.
Proof.
  apply (most_mag_efficient_projects_missing_magnitude _ _ "B.COM"
           (mkProjectStats [] [] (<["TOTALTASKS" := 20%Q]> ∅))).
  - right. left. reflexivity.
  - reflexivity.
  - reflexivity.
  - reflexivity.
Defined.

(** The data of the repository's test at tolerances 10 and 100: the
    leader alone, then the leader and the project within reach. *)
Lemma most_mag_efficient_projects_members_witness :
  let stats := fun (mag tasks : Q) =>
    mkProjectStats [] [] (<["AVGMAGPERHOUR" := mag]> (<["TOTALTASKS" := tasks]> ∅)) in
  let combinedstats :=
    [ ("WORLDCOMMUNITYGRID.ORG", stats 1%Q 20%Q);
      ("ESCATTER11.FULLERTON.EDU/NFS", stats 0%Q 10%Q);
      ("RECHENKRAFT.NET/YOYO", stats (91 # 100)%Q 20%Q);
      ("BOINC.MULTI-POOL.INFO/LATINSQUARES", stats 1%Q 20%Q) ] in
  let ignored_projects := ["BOINC.MULTI-POOL.INFO/LATINSQUARES"] in
  get_most_mag_efficient_projects combinedstats ignored_projects 10
  = Ok ["WORLDCOMMUNITYGRID.ORG"; "RECHENKRAFT.NET/YOYO"]
  /\ List.NoDup ["WORLDCOMMUNITYGRID.ORG"; "RECHENKRAFT.NET/YOYO"].
Proof.
  intros stats combinedstats ignored_projects.
  assert (Hrun : get_most_mag_efficient_projects combinedstats ignored_projects 10
                 = Ok ["WORLDCOMMUNITYGRID.ORG"; "RECHENKRAFT.NET/YOYO"])
    by (vm_compute; reflexivity).
  split; [exact Hrun|].
  refine (proj1 (most_mag_efficient_projects_members combinedstats ignored_projects _ 10 _ Hrun)).
  repeat constructor; cbn; intuition discriminate.
Defined.

Lemma most_mag_efficient_projects_grow_witness :
  let stats := fun (mag tasks : Q) =>
    mkProjectStats [] [] (<["AVGMAGPERHOUR" := mag]> (<["TOTALTASKS" := tasks]> ∅)) in
  let combinedstats :=
    [ ("WORLDCOMMUNITYGRID.ORG", stats 1%Q 20%Q);
      ("ESCATTER11.FULLERTON.EDU/NFS", stats 0%Q 10%Q);
      ("RECHENKRAFT.NET/YOYO", stats (91 # 100)%Q 20%Q);
      ("BOINC.MULTI-POOL.INFO/LATINSQUARES", stats 1%Q 20%Q) ] in
  let ignored_projects := ["BOINC.MULTI-POOL.INFO/LATINSQUARES"] in
  get_most_mag_efficient_projects combinedstats ignored_projects 5
  = Ok ["WORLDCOMMUNITYGRID.ORG"]
  /\ get_most_mag_efficient_projects combinedstats ignored_projects 10
     = Ok ["WORLDCOMMUNITYGRID.ORG"; "RECHENKRAFT.NET/YOYO"]
  /\ incl ["WORLDCOMMUNITYGRID.ORG"] ["WORLDCOMMUNITYGRID.ORG"; "RECHENKRAFT.NET/YOYO"].
Proof.
  intros stats combinedstats ignored_projects.
  assert (Hnarrow : get_most_mag_efficient_projects combinedstats ignored_projects 5
                    = Ok ["WORLDCOMMUNITYGRID.ORG"]) by (vm_compute; reflexivity).
  assert (Hwide : get_most_mag_efficient_projects combinedstats ignored_projects 10
                  = Ok ["WORLDCOMMUNITYGRID.ORG"; "RECHENKRAFT.NET/YOYO"])
    by (vm_compute; reflexivity).
  split; [exact Hnarrow|]. split; [exact Hwide|].
  refine (most_mag_efficient_projects_grow_with_tolerance combinedstats ignored_projects
            5 10 _ _ _ _ Hnarrow Hwide).
  - lia.
  - repeat constructor; cbn [snd]; intros m [= <-]; discriminate.
Defined.

End EfficientMemberRuns.

(** ** Averages over dated histories *)

Section DatedHistories.
Import StatsHelper.

Variable now : datetime.

(** One round of the loop over [WU_HISTORY], on a date key as
    [strftime("%m-%d-%Y")] writes it. *)
Lemma sum_wus_dated_day (rolling_weight_window : Z) (d : datetime) (wu_history : WuDay)
    (rest : list (string * WuDay)) (t : Totals) :
  1000 <= year d <= 9999 ->
  1 <= month d <= 12 ->
  1 <= day d <= days_in_month (year d) (month d) ->
  sum_wus now rolling_weight_window ((strftime_mdY d, wu_history) :: rest) t
  = sum_wus now rolling_weight_window rest
      (mkTotals (total_wus t + TOTALWUS wu_history)
         (total_wall t + total_wall_time wu_history)%Q
         (if days (datetime_sub now (mkdatetime (year d) (month d) (day d) 0 0 0 0))
             <=? rolling_weight_window
          then (x_day_wall t + total_wall_time wu_history)%Q
          else x_day_wall t)
         (total_cpu t + total_cpu_time wu_history)%Q).
Proof.
  intros Hy Hm Hd.
  pose proof (days_in_month_le_31 (year d) (month d)) as H31.
  destruct (zero_padded_reads_back 2 (month d)) as [Hmi Hmc]; [left; split; [reflexivity | lia]|].
  destruct (zero_padded_reads_back 2 (day d)) as [Hdi Hdc]; [left; split; [reflexivity | lia]|].
  destruct (zero_padded_reads_back 4 (year d)) as [Hyi Hyc]; [right; split; [reflexivity | lia]|].
  cbn [sum_wus]. unfold strftime_mdY.
  change ("-" ++ zero_padded 2 (day d) ++ "-" ++ zero_padded 4 (year d))
    with (String "-"%char (zero_padded 2 (day d) ++ String "-"%char (zero_padded 4 (year d)))).
  rewrite (split_on_fields _ _ _ Hmc), (split_on_fields _ _ _ Hdc), (split_on_field _ _ Hyc).
  cbn [list_index nth_error bind]. rewrite Hyi. cbn [bind]. rewrite Hmi. cbn [bind].
  rewrite Hdi. cbn [bind].
  unfold datetime_of_date.
  replace (fits_c_int (year d)) with true
    by (symmetry; apply andb_true_iff; split; apply Z.leb_le; lia).
  replace (fits_c_int (month d)) with true
    by (symmetry; apply andb_true_iff; split; apply Z.leb_le; lia).
  replace (fits_c_int (day d)) with true
    by (symmetry; apply andb_true_iff; split; apply Z.leb_le; lia).
  cbn [andb negb].
  replace (1 <=? year d) with true by (symmetry; apply Z.leb_le; lia).
  replace (year d <=? 9999) with true by (symmetry; apply Z.leb_le; lia).
  replace (1 <=? month d) with true by (symmetry; apply Z.leb_le; lia).
  replace (month d <=? 12) with true by (symmetry; apply Z.leb_le; lia).
  replace (1 <=? day d) with true by (symmetry; apply Z.leb_le; lia).
  replace (day d <=? days_in_month (year d) (month d)) with true by (symmetry; apply Z.leb_le; lia).
  reflexivity.
Qed.

(** The loop over a history whose keys are such dates returns; the wall
    time within the window stays between zero and the total wall time, and
    the total is positive as soon as one day's is. *)
Lemma sum_wus_dated (rolling_weight_window : Z) (history : list (string * WuDay)) (t : Totals) :
  Forall (fun entry =>
            exists d, fst entry = strftime_mdY d
                      /\ 1000 <= year d <= 9999
                      /\ 1 <= month d <= 12
                      /\ 1 <= day d <= days_in_month (year d) (month d)) history ->
  Forall (fun entry => (0 <= total_wall_time (snd entry))%Q) history ->
  (0 <= x_day_wall t <= total_wall t)%Q ->
  exists t',
    sum_wus now rolling_weight_window history t = Ok t'
    /\ (0 <= x_day_wall t' <= total_wall t')%Q
    /\ (total_wall t <= total_wall t')%Q
    /\ (Exists (fun entry => (0 < total_wall_time (snd entry))%Q) history ->
        (0 < total_wall t')%Q).
Proof.
  intros Hdated. revert t.
  induction Hdated as [|[date wu] rest (d & Hdate & Hy & Hm & Hd) _ IH];
    intros t Hpositive [Hlow Hhigh].
  - exists t. split; [reflexivity|]. split; [split; assumption|].
    split; [apply Qle_refl|]. intros Hex. inversion Hex.
  - cbn [fst] in Hdate. subst date.
    inversion Hpositive as [|? ? Hwall Hrest]; subst. cbn [snd] in Hwall.
    rewrite sum_wus_dated_day by assumption.
    match goal with
    | |- context [sum_wus now rolling_weight_window rest ?t1] =>
        destruct (IH t1 Hrest) as (t' & Hrun & Hbounds & Hgrow & Hsome)
    end.
    { cbn [x_day_wall total_wall].
      destruct (days _ <=? rolling_weight_window).
      - split.
        + apply (Qle_trans _ (x_day_wall t + 0)); [rewrite Qplus_0_r; exact Hlow|].
          apply Qplus_le_r. exact Hwall.
        + apply Qplus_le_l. exact Hhigh.
      - split; [exact Hlow|].
        apply (Qle_trans _ (total_wall t + 0)); [rewrite Qplus_0_r; exact Hhigh|].
        apply Qplus_le_r. exact Hwall. }
    cbn [total_wall] in Hgrow.
    assert (Hstep : (total_wall t <= total_wall t + total_wall_time wu)%Q).
    { apply (Qle_trans _ (total_wall t + 0)); [rewrite Qplus_0_r; apply Qle_refl|].
      apply Qplus_le_r. exact Hwall. }
    exists t'. split; [exact Hrun|]. split; [exact Hbounds|].
    split; [eapply Qle_trans; eauto|].
    intros Hex. inversion Hex as [? ? Hday|? ? Hlater]; subst; [|auto].
    cbn [snd] in Hday.
    apply (Qlt_le_trans _ (total_wall t + total_wall_time wu)); [|exact Hgrow].
    apply (Qle_lt_trans _ (total_wall t + 0)).
    + rewrite Qplus_0_r. apply (Qle_trans _ (x_day_wall t)); assumption.
    + apply Qplus_lt_r. exact Hday.
Qed.

(** On a history as [parse_stats_file] writes it (date keys from
    [strftime("%m-%d-%Y")], no negative wall time, and, when there are
    tasks, a day with one second of wall time at least), the averages of a
    project are computed without an exception: [TOTALTASKS] is the number
    of tasks, and [XDAYWALLTIME] lies between zero and [TOTALWALLTIME].
    A total wall time of a second or more stays away from zero when it is
    turned into hours in binary64 as well; a positive one of less can
    underflow to zero there and make the last division raise. *)
Theorem project_averages_on_dated_history (parent_dict : ProjectStats)
    (rolling_weight_window : Z) :
  Forall (fun entry =>
            exists d, fst entry = strftime_mdY d
                      /\ 1000 <= year d <= 9999
                      /\ 1 <= month d <= 12
                      /\ 1 <= day d <= days_in_month (year d) (month d))
    (WU_HISTORY parent_dict) ->
  Forall (fun entry => (0 <= total_wall_time (snd entry))%Q) (WU_HISTORY parent_dict) ->
  total_tasks parent_dict = 0
  \/ Exists (fun entry => (1 <= total_wall_time (snd entry))%Q) (WU_HISTORY parent_dict) ->
  exists compiled xday wall,
    project_averages now parent_dict rolling_weight_window = Ok compiled
    /\ compiled !! "TOTALTASKS" = Some (inject_Z (total_tasks parent_dict))
    /\ compiled !! "XDAYWALLTIME" = Some xday
    /\ compiled !! "TOTALWALLTIME" = Some wall
    /\ (0 <= xday <= wall)%Q.
Proof.
  intros Hdated Hpositive Hwork.
  destruct (sum_wus_dated rolling_weight_window (WU_HISTORY parent_dict)
              (mkTotals 0 0%Q 0%Q 0%Q) Hdated Hpositive)
    as (t & Hrun & [Hlow Hhigh] & _ & Hsome).
  { cbn. split; apply Qle_refl. }
  pose proof (sum_wus_total _ _ _ _ _ Hrun) as Htasks.
  change (total_wus (mkTotals 0 0 0 0)) with 0 in Htasks.
  fold (total_tasks parent_dict) in Htasks. rewrite Z.add_0_l in Htasks.
  unfold project_averages. cbv zeta. rewrite Hrun. cbn [bind]. rewrite Htasks.
  destruct (total_tasks parent_dict =? 0) eqn:Hzero; cbn [bind].
  - eexists _, (x_day_wall t), (total_wall t).
    split; [reflexivity|]. split; [reflexivity|]. split; [reflexivity|].
    split; [reflexivity|]. split; assumption.
  - apply Z.eqb_neq in Hzero. destruct Hwork as [Hnone|Hex]; [contradiction|].
    assert (Hsecond : Exists (fun entry => (0 < total_wall_time (snd entry))%Q)
                        (WU_HISTORY parent_dict)).
    { apply (List.Exists_impl
               (P := fun entry : string * WuDay => (1 <= total_wall_time (snd entry))%Q));
        [|exact Hex].
      intros entry Hone. apply (Qlt_le_trans _ 1); [reflexivity | exact Hone]. }
    specialize (Hsome Hsecond).
    assert (Hdivisor : Qeq_bool (inject_Z (total_tasks parent_dict)) 0 = false).
    { destruct (Qeq_bool (inject_Z (total_tasks parent_dict)) 0) eqn:Heq; [|reflexivity].
      apply Qeq_bool_iff in Heq. unfold Qeq in Heq. cbn in Heq. lia. }
    assert (Hhours : Qeq_bool (total_wall t / 60 / 60) 0 = false).
    { destruct (Qeq_bool (total_wall t / 60 / 60) 0) eqn:Heq; [|reflexivity].
      apply Qeq_bool_iff in Heq. exfalso.
      assert (Hpos : (0 < total_wall t / 60 / 60)%Q).
      { apply Qlt_shift_div_l; [reflexivity|]. apply Qlt_shift_div_l; [reflexivity|].
        rewrite !Qmult_0_l. exact Hsome. }
      rewrite Heq in Hpos. discriminate. }
    unfold truediv. rewrite Hdivisor, Hhours. cbn [bind].
    eexists _, (x_day_wall t / 60 / 60)%Q, (total_wall t / 60 / 60)%Q.
    split; [reflexivity|]. split; [reflexivity|]. split; [reflexivity|].
    split; [reflexivity|].
    assert (Hmono : forall a b : Q, (a <= b)%Q -> (a / 60 / 60 <= b / 60 / 60)%Q).
    { intros a b Hab. unfold Qdiv. repeat apply Qmult_le_compat_r; try discriminate.
      exact Hab. }
    split.
    + apply (Qle_trans _ (0 / 60 / 60)); [discriminate | apply Hmono; exact Hlow].
    + apply Hmono. exact Hhigh.
Qed.

End DatedHistories.

Section DatedHistoryRuns.
Import StatsHelper.

(** Two days of work, one of them outside a window of sixty days. *)
Lemma project_averages_on_dated_history_witness :
  exists compiled xday wall,
    project_averages (mkdatetime 2023 4 11 12 0 0 0)
      (mkProjectStats [("04-07-2023", mkCreditDay 30)]
         [ ("04-09-2023", mkWuDay 2 7200 3600);
           ("01-09-2023", mkWuDay 1 3600 1800) ] ∅) 60 = Ok compiled
    /\ compiled !! "TOTALTASKS" = Some 3%Q
    /\ compiled !! "XDAYWALLTIME" = Some xday
    /\ compiled !! "TOTALWALLTIME" = Some wall
    /\ (0 <= xday <= wall)%Q.
Proof.
  apply (project_averages_on_dated_history (mkdatetime 2023 4 11 12 0 0 0)
           (mkProjectStats [("04-07-2023", mkCreditDay 30)]
              [ ("04-09-2023", mkWuDay 2 7200 3600);
                ("01-09-2023", mkWuDay 1 3600 1800) ] ∅) 60).
  - repeat constructor; cbn [fst].
    + exists (mkdatetime 2023 4 9 0 0 0 0). split; [reflexivity|].
      repeat split; apply Z.leb_le; reflexivity.
    + exists (mkdatetime 2023 1 9 0 0 0 0). split; [reflexivity|].
      repeat split; apply Z.leb_le; reflexivity.
  - repeat constructor; discriminate.
  - right. constructor. discriminate.
Defined.

End DatedHistoryRuns.

(** ** Queries to the BOINC client *)

Section ClientQueries.
Import Rpc BoincClientConnection.

(** A client that never gives a usable answer: [run_rpc_command] gives up
    after three rounds. *)
Lemma run_rpc_command_gives_up (rpc_client : RPCClient) (command : string)
    (arg1 arg1_val arg2 arg2_val : option string) :
  (forall attempt,
      retried (rpc_client (build_request command arg1 arg1_val arg2 arg2_val) attempt) = true) ->
  run_rpc_command rpc_client command arg1 arg1_val arg2 arg2_val = (PNone, rounds 5 0 3).
Proof.
  intros Hretried.
  destruct (run_rpc_command_loop_spec rpc_client command arg1 arg1_val arg2 arg2_val
              (Z.to_nat (max_retries - 0)) 0 [])
    as (k & Hk & Htrace & _ & Hend); [lia | reflexivity |].
  fold (run_rpc_command rpc_client command arg1 arg1_val arg2 arg2_val) in Htrace, Hend.
  destruct (run_rpc_command rpc_client command arg1 arg1_val arg2 arg2_val) as [reply trace].
  cbn [fst snd] in *.
  destruct Hend as [(-> & _ & ->) | (j & _ & Hanswer & Hfull)].
  - rewrite Htrace. reflexivity.
  - specialize (Hretried (Z.to_nat 0 + j)%nat). rewrite Hanswer in Hretried.
    cbn [retried] in Hretried. congruence.
Qed.

(** The tasks kept by the loop of [get_task_list] are the tasks in state
    2, in order, after those it started from. *)
Lemma get_task_list_loop_keeps (tasks return_value kept : list pyval) :
  get_task_list_loop tasks return_value = Ok kept ->
  kept = (return_value
          ++ List.filter (fun task =>
                            match getitem task "state" with
                            | Ok state => eq_num state 2
                            | Raise _ => false
                            end) tasks)%list
  /\ Forall (fun task => is_ok (getitem task "state") = true) tasks.
Proof.
  revert return_value. induction tasks as [|task rest IH]; intros return_value Hloop.
  - injection Hloop as <-. split; [now rewrite app_nil_r | constructor].
  - cbn [get_task_list_loop] in Hloop.
    apply bind_Ok in Hloop as (state & Hstate & Hloop).
    cbn [List.filter]. rewrite Hstate.
    destruct (eq_num state 2); apply IH in Hloop as [-> Hall];
      (split; [|constructor; [rewrite Hstate; reflexivity | exact Hall]]).
    + now rewrite <- app_assoc.
    + reflexivity.
Qed.

(** [get_task_list] returns the tasks of the reply that are in state 2, in
    the order of the reply, and cannot return when one task has no state.
    When the client gives no usable answer in three attempts, or answers
    with a string, it returns the empty list. *)
Theorem get_task_list_keeps_state_2 (rpc_client : RPCClient) :
  let reply := fst (run_rpc_command rpc_client "get_results" None None None None) in
  (forall tasks kept,
      reply = PList tasks ->
      fst (get_task_list rpc_client) = Ok kept ->
      kept = List.filter (fun task =>
                            match getitem task "state" with
                            | Ok state => eq_num state 2
                            | Raise _ => false
                            end) tasks
      /\ Forall (fun task => is_ok (getitem task "state") = true) tasks)
  /\ (forall text, reply = PStr text -> fst (get_task_list rpc_client) = Ok [])
  /\ ((forall attempt,
          retried (rpc_client (build_request "get_results" None None None None) attempt) = true) ->
      get_task_list rpc_client = (Ok [], rounds 5 0 3)).
Proof.
  cbv zeta. unfold get_task_list.
  split; [|split].
  - intros tasks kept Hreply.
    destruct (run_rpc_command rpc_client "get_results" None None None None) as [reply trace].
    cbn [fst] in Hreply. subst reply.
    destruct tasks as [|task rest]; cbn [truthy negb fst iterate bind].
    + intros [= <-]. split; [reflexivity | constructor].
    + intros Hloop. apply get_task_list_loop_keeps in Hloop. exact Hloop.
  - intros text Hreply.
    destruct (run_rpc_command rpc_client "get_results" None None None None) as [reply trace].
    cbn [fst] in Hreply. subst reply.
    destruct (negb (truthy (PStr text))); reflexivity.
  - intros Hretried. rewrite run_rpc_command_gives_up by exact Hretried. reflexivity.
Qed.

(** [is_boinc_crunching] answers [True] exactly when the reply has a
    [task_suspend_reason] that [int] turns into 0; it never raises, and
    when the client gives no usable answer in three attempts it answers
    [False]. *)
Theorem is_boinc_crunching_iff (rpc_client : RPCClient) :
  let reply := fst (run_rpc_command rpc_client "get_cc_status" None None None None) in
  (fst (is_boinc_crunching rpc_client) = true
   <-> exists reason,
         getitem reply "task_suspend_reason" = Ok reason /\ int_of reason = Ok 0)
  /\ ((forall attempt,
          retried (rpc_client (build_request "get_cc_status" None None None None) attempt) = true) ->
      is_boinc_crunching rpc_client = (false, rounds 5 0 3)).
Proof.
  cbv zeta. unfold is_boinc_crunching. split.
  - destruct (run_rpc_command rpc_client "get_cc_status" None None None None) as [reply trace].
    cbn [fst].
    destruct (getitem reply "task_suspend_reason") as [reason|e] eqn:Hreason;
      cbn [bind try_except fst].
    + destruct (int_of reason) as [n|e] eqn:Hint; cbn [bind try_except fst].
      * destruct (n =? 0) eqn:Hn; cbn [negb try_except fst].
        -- apply Z.eqb_eq in Hn. subst n. split; [|reflexivity].
           intros _. exists reason. split; [reflexivity | exact Hint].
        -- split; [discriminate|]. intros (r & [= <-] & Hr).
           rewrite Hint in Hr. injection Hr as ->. discriminate.
      * split; [discriminate|]. intros (r & [= <-] & Hr). congruence.
    + split; [discriminate|]. intros (r & Hr & _). discriminate.
  - intros Hretried. rewrite run_rpc_command_gives_up by exact Hretried. reflexivity.
Qed.

End ClientQueries.

Section ClientQueryRuns.
Import Rpc BoincClientConnection.

(** A client that raises at every attempt. *)
Lemma get_task_list_witness :
  get_task_list (fun _ _ => Raise ConnectionError) = (Ok [], rounds 5 0 3).
Proof.
  apply (proj2 (proj2 (get_task_list_keeps_state_2 (fun _ _ => Raise ConnectionError)))).
  reflexivity.
Defined.

(** A client that is suspended by the user ([task_suspend_reason] 4), and
    one that raises at every attempt. *)
Lemma is_boinc_crunching_witness :
  fst (is_boinc_crunching (fun _ _ => Ok (PDict [("task_suspend_reason", PStr "4")]))) = false
  /\ is_boinc_crunching (fun _ _ => Raise ConnectionError) = (false, rounds 5 0 3).
Proof.
  split; [reflexivity|].
  apply (proj2 (is_boinc_crunching_iff (fun _ _ => Raise ConnectionError))).
  reflexivity.
Defined.

End ClientQueryRuns.

(** ** File transfers *)

Section FileTransfers.
Import Rpc BoincClientConnection.

Variable float_of_str : string -> result Q.
Variable str_of_num : Q -> string.

Lemma xfers_happening_loop_true (xfers : list pyval) :
  xfers_happening_loop float_of_str str_of_num xfers = Ok true ->
  exists xfer status,
    In xfer xfers
    /\ stuck_xfer float_of_str xfer = false
    /\ getitem xfer "status" = Ok status
    /\ str_is_0 str_of_num status = true.
Proof.
  induction xfers as [|xfer rest IH]; cbn [xfers_happening_loop]; [discriminate|].
  destruct (stuck_xfer float_of_str xfer) eqn:Hstuck.
  - intros H. destruct (IH H) as (x & st & Hin & Hx). exists x, st. split; [now right | exact Hx].
  - destruct (getitem xfer "status") as [status|e] eqn:Hstatus; cbn [bind]; [|discriminate].
    destruct (str_is_0 str_of_num status) eqn:Hzero.
    + intros _. exists xfer, status. split; [now left|]. repeat split; assumption.
    + intros H. destruct (IH H) as (x & st & Hin & Hx).
      exists x, st. split; [now right | exact Hx].
Qed.

Lemma xfers_happening_loop_stuck (xfers : list pyval) :
  Forall (fun xfer => stuck_xfer float_of_str xfer = true) xfers ->
  xfers_happening_loop float_of_str str_of_num xfers = Ok false.
Proof.
  induction 1 as [|xfer rest Hstuck _ IH]; cbn [xfers_happening_loop]; [reflexivity|].
  rewrite Hstuck. exact IH.
Qed.

(** [xfers_happening] answers [True] only when the list holds a transfer
    that is not stuck and whose status reads ["0"]; a transfer that is
    stuck (it has a status and a positive number of retries) never counts,
    so a list of stuck transfers gives [False], as does a reply that is a
    string. *)
Theorem xfers_happening_counts_live_transfers (xfer_list : pyval) :
  (xfers_happening float_of_str str_of_num xfer_list = true ->
   exists xfers xfer status,
     iterate xfer_list = Ok xfers
     /\ In xfer xfers
     /\ stuck_xfer float_of_str xfer = false
     /\ getitem xfer "status" = Ok status
     /\ str_is_0 str_of_num status = true)
  /\ (forall xfers,
        xfer_list = PList xfers ->
        Forall (fun xfer => stuck_xfer float_of_str xfer = true) xfers ->
        xfers_happening float_of_str str_of_num xfer_list = false)
  /\ (forall xfer,
        stuck_xfer float_of_str xfer = true ->
        has_key "status" xfer = Ok true
        /\ exists persistent num_retries retries,
             getitem xfer "persistent_file_xfer" = Ok persistent
             /\ get_default persistent "num_retries" (PNum 0) = Ok num_retries
             /\ float_of float_of_str num_retries = Ok retries
             /\ (0 < retries)%Q)
  /\ (forall text, xfer_list = PStr text ->
        xfers_happening float_of_str str_of_num xfer_list = false).
Proof.
  split; [|split; [|split]].
  - unfold xfers_happening.
    assert (Hloop : match (xfers <- iterate xfer_list ;;
                           xfers_happening_loop float_of_str str_of_num xfers) with
                    | Ok happening => happening
                    | Raise _ => false
                    end = true ->
                    exists xfers xfer status,
                      iterate xfer_list = Ok xfers
                      /\ In xfer xfers
                      /\ stuck_xfer float_of_str xfer = false
                      /\ getitem xfer "status" = Ok status
                      /\ str_is_0 str_of_num status = true).
    { destruct (iterate xfer_list) as [xfers|e]; cbn [bind]; [|discriminate].
      destruct (xfers_happening_loop float_of_str str_of_num xfers) as [[|]|e] eqn:Hrun;
        try discriminate.
      intros _. destruct (xfers_happening_loop_true _ Hrun) as (xfer & status & Hx).
      exists xfers, xfer, status. split; [reflexivity | exact Hx]. }
    destruct xfer_list; try exact Hloop. discriminate.
  - intros xfers -> Hstuck. unfold xfers_happening. cbn [iterate bind].
    rewrite xfers_happening_loop_stuck by exact Hstuck. reflexivity.
  - intros xfer. unfold stuck_xfer.
    destruct (has_key "status" xfer) as [[|]|e]; cbn [bind negb]; try discriminate.
    destruct (has_key "persistent_file_xfer" xfer) as [[|]|e]; cbn [bind]; try discriminate.
    destruct (getitem xfer "persistent_file_xfer") as [persistent|e] eqn:Hpersistent;
      cbn [bind]; [|discriminate].
    destruct (get_default persistent "num_retries" (PNum 0)) as [num_retries|e] eqn:Hnum;
      cbn [bind]; [|discriminate].
    destruct (float_of float_of_str num_retries) as [retries|e] eqn:Hretries; cbn [bind];
      [|discriminate].
    destruct (Qgt_bool retries 0) eqn:Hpositive; [|discriminate].
    intros _. split; [reflexivity|].
    exists persistent, num_retries, retries.
    split; [reflexivity|]. split; [exact Hnum|]. split; [exact Hretries|].
    now apply Qgt_bool_true.
  - intros text ->. reflexivity.
Qed.

Lemma slept_app (a b : list event) : slept (a ++ b) = slept a + slept b.
Proof.
  induction a as [|[delay|attempt] a IH]; cbn [app slept]; [reflexivity | rewrite IH; lia | exact IH].
Qed.

Lemma requests_app (a b : list event) : requests (a ++ b) = (requests a + requests b)%nat.
Proof.
  induction a as [|[delay|attempt] a IH]; cbn [app requests]; [reflexivity | exact IH | now rewrite IH].
Qed.

Lemma slept_rounds (delay : Z) (first k : nat) : slept (rounds delay first k) = delay * Z.of_nat k.
Proof.
  revert first. induction k as [|k IH]; intros first; cbn [rounds slept]; [lia|].
  rewrite IH. lia.
Qed.

Lemma requests_rounds (delay : Z) (first k : nat) : requests (rounds delay first k) = k.
Proof.
  revert first. induction k as [|k IH]; intros first; cbn [rounds requests]; [reflexivity|].
  now rewrite IH.
Qed.

(** One call of [run_rpc_command] sleeps fifteen seconds at most and sends
    three requests at most. *)
Lemma run_rpc_command_cost (rpc_client : RPCClient) (command : string)
    (arg1 arg1_val arg2 arg2_val : option string) :
  let events := snd (run_rpc_command rpc_client command arg1 arg1_val arg2 arg2_val) in
  slept events <= 15 /\ (requests events <= 3)%nat.
Proof.
  cbv zeta.
  destruct (run_rpc_command_loop_spec rpc_client command arg1 arg1_val arg2 arg2_val
              (Z.to_nat (max_retries - 0)) 0 [])
    as (k & Hk & Htrace & _); [lia | reflexivity |].
  fold (run_rpc_command rpc_client command arg1 arg1_val arg2 arg2_val) in Htrace.
  rewrite Htrace. cbn [app]. rewrite slept_rounds, requests_rounds.
  change (Z.to_nat (max_retries - 0)) with 3%nat in Hk. unfold retry_wait. lia.
Qed.

Lemma wait_till_no_xfers_loop_cost (rpc_client : nat -> RPCClient) (remaining : nat)
    (current_loops : Z) (trace : list event) :
  let run := wait_till_no_xfers_loop float_of_str str_of_num remaining rpc_client
               current_loops trace in
  slept run <= slept trace + 45 * Z.of_nat remaining
  /\ (requests run <= requests trace + 3 * remaining)%nat.
Proof.
  cbv zeta. revert current_loops trace.
  induction remaining as [|remaining IH]; intros current_loops trace;
    cbn [wait_till_no_xfers_loop]; [lia|].
  destruct (current_loops <? max_loops); [|lia].
  pose proof (run_rpc_command_cost (rpc_client (Z.to_nat (current_loops + 1 - 1)))
                "get_file_transfers" None None None None) as Hcost.
  cbv zeta in Hcost.
  destruct (run_rpc_command (rpc_client (Z.to_nat (current_loops + 1 - 1)))
              "get_file_transfers" None None None None) as [allow_response events].
  cbn [snd] in Hcost. destruct Hcost as [Hslept Hrequests].
  assert (Hagain :
    let run := wait_till_no_xfers_loop float_of_str str_of_num remaining rpc_client
                 (current_loops + 1) ((trace ++ events) ++ [Sleep loop_wait_in_seconds]) in
    slept run <= slept trace + 45 * Z.of_nat (S remaining)
    /\ (requests run <= requests trace + 3 * S remaining)%nat).
  { cbv zeta.
    destruct (IH (current_loops + 1) ((trace ++ events) ++ [Sleep loop_wait_in_seconds])%list)
      as [Hs Hr].
    rewrite !slept_app, !requests_app in *. cbn [slept requests] in *.
    unfold loop_wait_in_seconds in *. lia. }
  assert (Hdone : slept (trace ++ events) <= slept trace + 45 * Z.of_nat (S remaining)
                  /\ (requests (trace ++ events) <= requests trace + 3 * S remaining)%nat).
  { rewrite slept_app, requests_app. lia. }
  destruct (negb (truthy allow_response)); [exact Hagain|].
  destruct (match allow_response with
            | PStr s => String.eqb (remove_whitespace s) ""
            | _ => false
            end); [exact Hdone|].
  destruct (xfers_happening float_of_str str_of_num allow_response);
    [exact Hagain | exact Hdone].
Qed.

(** [wait_till_no_xfers] always comes back: whatever the client answers,
    it has slept 1350 seconds at most (thirty polls of at most three
    attempts five seconds apart, and thirty seconds after each poll) and
    sent ninety requests at most. *)
Theorem wait_till_no_xfers_is_bounded (rpc_client : nat -> RPCClient) :
  let run := wait_till_no_xfers float_of_str str_of_num rpc_client in
  slept run <= 1350 /\ (requests run <= 90)%nat.
Proof.
  cbv zeta. unfold wait_till_no_xfers.
  destruct (wait_till_no_xfers_loop_cost rpc_client (Z.to_nat (max_loops - 0)) 0 [])
    as [Hslept Hrequests].
  change (Z.to_nat (max_loops - 0)) with 30%nat in *. cbn [slept requests] in *. lia.
Qed.

End FileTransfers.

Section FileTransferRuns.
Import Rpc BoincClientConnection.

(** The transfer lists of the repository's test: a stalled transfer, no
    transfer, and a live one.  Statuses are rendered as an [int] is. *)
Lemma xfers_happening_witness :
  let float_of_str := fun _ : string => Raise ValueError in
  let str_of_num := fun q : Q => Z_to_string (Qnum q) in
  let stalled :=
    PList [PDict [("status", PNum 0);
                  ("persistent_file_xfer", PDict [("num_retries", PNum 2)])]] in
  xfers_happening float_of_str str_of_num stalled = false
  /\ xfers_happening float_of_str str_of_num (PList []) = false
  /\ xfers_happening float_of_str str_of_num (PList [PDict [("status", PNum 0)]]) = true.
Proof.
  intros float_of_str str_of_num stalled.
  split; [|split; reflexivity].
  apply (proj1 (proj2 (xfers_happening_counts_live_transfers float_of_str str_of_num stalled))
           [PDict [("status", PNum 0);
                   ("persistent_file_xfer", PDict [("num_retries", PNum 2)])]]).
  - reflexivity.
  - repeat constructor.
Defined.

End FileTransferRuns.

(** ** The wallet's approved projects *)

Section ApprovedProjects.
Import Rpc GridcoinClientConnection.




End ApprovedProjects.

Section ApprovedProjectRuns.
Import Rpc GridcoinClientConnection.


End ApprovedProjectRuns.

(** ** The wallet's configuration files *)

Section ConfFiles.
Import GridcoinClientConnection.

Lemma conf_loop_keeps (lines : list string) :
  forall (return_dict final : list (string * pyval)) (key : string) (value : pyval),
    conf_loop lines return_dict = Ok final ->
    dict_get return_dict key = Some value ->
    key <> "sidestake" ->
    dict_get final key = Some value.
Proof.
  induction lines as [|line rest IH]; intros return_dict final key value;
    cbn [conf_loop].
  - intros [= <-] Hget _. exact Hget.
  - intros Hrun Hget Hkey.
    destruct (startswith "#" line); [exact (IH _ _ _ _ Hrun Hget Hkey)|].
    destruct (String.eqb (strip line) ""); [exact (IH _ _ _ _ Hrun Hget Hkey)|].
    destruct (parse_conf_line line) as [[key' value']|e];
      [|exact (IH _ _ _ _ Hrun Hget Hkey)].
    destruct (String.eqb key' "addnode"); [exact (IH _ _ _ _ Hrun Hget Hkey)|].
    assert (Hother : String.eqb key "sidestake" = false) by now apply String.eqb_neq.
    destruct (String.eqb_spec key' "sidestake") as [->|Hkey'].
    + destruct (dict_get return_dict "sidestake") as [listed|] eqn:Hlisted.
      * rewrite Hlisted in Hrun. destruct listed as [| | | |sidestakes|]; try discriminate.
        apply (IH _ _ _ _ Hrun); [|exact Hkey].
        rewrite dict_get_dict_set, Hother. exact Hget.
      * rewrite dict_get_dict_set, String.eqb_refl in Hrun.
        apply (IH _ _ _ _ Hrun); [|exact Hkey].
        rewrite !dict_get_dict_set, Hother. exact Hget.
    + destruct (dict_get return_dict key') eqn:Hpresent;
        [exact (IH _ _ _ _ Hrun Hget Hkey)|].
      apply (IH _ _ _ _ Hrun); [|exact Hkey].
      rewrite dict_get_dict_set.
      destruct (String.eqb_spec key key') as [->|_]; [congruence | exact Hget].
Qed.

Lemma conf_loop_returns (lines : list string) :
  forall return_dict : list (string * pyval),
    dict_get return_dict "addnode" = None ->
    (dict_get return_dict "sidestake" = None
     \/ exists sidestakes, dict_get return_dict "sidestake" = Some (PList sidestakes)) ->
    exists final,
      conf_loop lines return_dict = Ok final /\ dict_get final "addnode" = None.
Proof.
  induction lines as [|line rest IH]; intros return_dict Hnode Hlist; cbn [conf_loop].
  - exists return_dict. split; [reflexivity | exact Hnode].
  - destruct (startswith "#" line); [exact (IH _ Hnode Hlist)|].
    destruct (String.eqb (strip line) ""); [exact (IH _ Hnode Hlist)|].
    destruct (parse_conf_line line) as [[key value]|e]; [|exact (IH _ Hnode Hlist)].
    destruct (String.eqb_spec key "addnode") as [->|Hkey]; [exact (IH _ Hnode Hlist)|].
    destruct (String.eqb_spec key "sidestake") as [->|Hkey'].
    + destruct Hlist as [Hnone | (sidestakes & Hsome)].
      * rewrite Hnone, dict_get_dict_set, String.eqb_refl. apply IH.
        -- rewrite !dict_get_dict_set. exact Hnode.
        -- right. eexists. rewrite dict_get_dict_set, String.eqb_refl. reflexivity.
      * rewrite Hsome, Hsome. apply IH.
        -- rewrite dict_get_dict_set. exact Hnode.
        -- right. eexists. rewrite dict_get_dict_set, String.eqb_refl. reflexivity.
    + destruct (dict_get return_dict key) eqn:Hpresent; [exact (IH _ Hnode Hlist)|].
      apply IH.
      * rewrite dict_get_dict_set.
        destruct (String.eqb_spec "addnode" key) as [<-|_]; [contradiction | exact Hnode].
      * rewrite dict_get_dict_set.
        destruct (String.eqb_spec "sidestake" key) as [<-|_]; [contradiction | exact Hlist].
Qed.

(** What [get_gridcoin_config_parameters] has stored under a key other
    than [sidestake] it never replaces, so the first line of the conf file
    that gives a key decides its value, and a setting taken from the JSON
    file stands whatever the conf file says.  The function returns for
    every conf file, and [addnode] is never a key of the result. *)
Theorem get_gridcoin_config_parameters_first_value_wins :
  (forall lines return_dict final key value,
     conf_loop lines return_dict = Ok final ->
     dict_get return_dict key = Some value ->
     key <> "sidestake" ->
     dict_get final key = Some value)
  /\ (forall line rest return_dict final key value,
        startswith "#" line = false ->
        strip line <> "" ->
        parse_conf_line line = Ok (key, value) ->
        key <> "addnode" ->
        key <> "sidestake" ->
        dict_get return_dict key = None ->
        conf_loop (line :: rest) return_dict = Ok final ->
        dict_get final key = Some (PStr value))
  /\ (forall config_dict conf,
        exists final,
          get_gridcoin_config_parameters (Some (Ok (PDict config_dict))) conf = Ok final
          /\ (forall value, dict_get config_dict "rpcuser" = Some value ->
                            dict_get final "rpc_user" = Some value)
          /\ (forall value, dict_get config_dict "rpcpass" = Some value ->
                            dict_get final "rpc_pass" = Some value)
          /\ (forall value, dict_get config_dict "rpcport" = Some value ->
                            dict_get final "rpc_port" = Some value)
          /\ dict_get final "addnode" = None)
  /\ (forall conf,
        exists final,
          get_gridcoin_config_parameters None conf = Ok final
          /\ dict_get final "addnode" = None).
Proof.
  split; [exact conf_loop_keeps|]. split; [|split].
  - intros line rest return_dict final key value Hcomment Hblank Hparse Hnode Hstake Hnew.
    cbn [conf_loop]. rewrite Hcomment, Hparse.
    apply String.eqb_neq in Hblank, Hnode, Hstake. rewrite Hblank, Hnode, Hstake, Hnew.
    intros Hrun. apply (conf_loop_keeps _ _ _ _ _ Hrun).
    + rewrite dict_get_dict_set, String.eqb_refl. reflexivity.
    + now apply String.eqb_neq.
  - intros config_dict conf. unfold get_gridcoin_config_parameters, copy_setting.
    cbn [bind has_key getitem].
    assert (Hfile : forall return_dict : list (string * pyval),
              dict_get return_dict "addnode" = None ->
              dict_get return_dict "sidestake" = None ->
              exists final,
                match conf with
                | Some lines => conf_loop lines return_dict
                | None => Ok return_dict
                end = Ok final
                /\ (forall key value, dict_get return_dict key = Some value ->
                                      key <> "sidestake" ->
                                      dict_get final key = Some value)
                /\ dict_get final "addnode" = None).
    { intros return_dict Hnode Hstake. destruct conf as [lines|].
      - destruct (conf_loop_returns lines return_dict Hnode (or_introl Hstake))
          as (final & Hrun & Hfinal).
        exists final. split; [exact Hrun|]. split; [|exact Hfinal].
        intros key value. exact (conf_loop_keeps _ _ _ _ _ Hrun).
      - exists return_dict. split; [reflexivity|]. split; [|exact Hnode].
        intros key value Hget _. exact Hget. }
    destruct (dict_get config_dict "rpcuser") as [user|];
      destruct (dict_get config_dict "rpcpass") as [pass|];
      destruct (dict_get config_dict "rpcport") as [port|];
      cbn [bind dict_set String.eqb Ascii.eqb Bool.eqb];
      match goal with
      | |- exists final, match conf with
                         | Some lines => conf_loop lines ?d
                         | None => Ok ?d
                         end = Ok final /\ _ =>
          destruct (Hfile d eq_refl eq_refl) as (final & Hrun & Hkeeps & Hnode)
      end;
      exists final; (split; [exact Hrun|]); repeat split; try exact Hnode;
      intros value Hvalue; try discriminate Hvalue;
      injection Hvalue as <-; apply Hkeeps; try reflexivity; discriminate.
  - intros conf. unfold get_gridcoin_config_parameters. cbn [bind].
    destruct conf as [lines|].
    + apply conf_loop_returns; [reflexivity | left; reflexivity].
    + exists []. split; reflexivity.
Qed.

End ConfFiles.

Section ConfFileRuns.
Import GridcoinClientConnection.

(** A conf file with a comment, a blank line, two ports, two side stakes
    and a node: the first port is kept, with the spaces and the comment
    around it taken off. *)
Lemma get_gridcoin_config_parameters_witness :
  let lines :=
    ["# wallet" ++ newline; newline; "rpcport= 9876 # local" ++ newline;
     "sidestake=a,1" ++ newline; "rpcport=1234" ++ newline;
     "addnode=node.example" ++ newline; "sidestake=b,2" ++ newline] in
  get_gridcoin_config_parameters None (Some lines)
  = Ok [("rpcport", PStr "9876"); ("sidestake", PList [PStr "a,1"; PStr "b,2"])]
  /\ exists final,
       conf_loop (List.tl (List.tl lines)) [] = Ok final
       /\ dict_get final "rpcport" = Some (PStr "9876").
Proof.
  intros lines. split; [reflexivity|].
  eexists. split; [reflexivity|].
  apply (proj1 (proj2 get_gridcoin_config_parameters_first_value_wins)
           ("rpcport= 9876 # local" ++ newline) (List.tl (List.tl (List.tl lines))) []
           _ "rpcport" "9876");
    try reflexivity; discriminate.
Defined.

End ConfFileRuns.

(** ** Side stakes *)

Section SidestakeChecks.
Import GridcoinClientConnection.

Variable number : Type.
Variable py_float : string -> result number.
Variable ge : number -> number -> bool.

Lemma check_sidestake_loop_true (sidestakes : list pyval) (address : string)
    (minval : number) :
  check_sidestake_loop number py_float ge sidestakes address minval = Ok true ->
  exists entry field value,
    In (PStr entry) sidestakes
    /\ list_index (split_on "," entry) 0 = Ok address
    /\ list_index (split_on "," entry) 1 = Ok field
    /\ py_float field = Ok value
    /\ ge value minval = true.
Proof.
  induction sidestakes as [|sidestake rest IH]; cbn [check_sidestake_loop]; [discriminate|].
  destruct sidestake as [| | |entry| |]; try discriminate.
  destruct (list_index (split_on "," entry) 0) as [found_address|e] eqn:Haddress;
    cbn [bind]; [|discriminate].
  destruct (list_index (split_on "," entry) 1) as [field|e] eqn:Hfield;
    cbn [bind]; [|discriminate].
  destruct (py_float field) as [found_value|e] eqn:Hvalue; cbn [bind]; [|discriminate].
  destruct (String.eqb found_address address && ge found_value minval) eqn:Hmatch.
  - intros _. apply andb_true_iff in Hmatch as [Hsame Hge].
    apply String.eqb_eq in Hsame. subst found_address.
    exists entry, field, found_value. split; [now left|]. repeat split; assumption.
  - intros Hrest. destruct (IH Hrest) as (entry' & field' & value' & Hin & Hrest').
    exists entry', field', value'. split; [now right | exact Hrest'].
Qed.

Lemma check_sidestake_loop_finds (sidestakes : list pyval) (address : string)
    (minval : number) :
  Forall (fun sidestake =>
            exists entry field value,
              sidestake = PStr entry
              /\ list_index (split_on "," entry) 1 = Ok field
              /\ py_float field = Ok value) sidestakes ->
  (exists entry field value,
     In (PStr entry) sidestakes
     /\ list_index (split_on "," entry) 0 = Ok address
     /\ list_index (split_on "," entry) 1 = Ok field
     /\ py_float field = Ok value
     /\ ge value minval = true) ->
  check_sidestake_loop number py_float ge sidestakes address minval = Ok true.
Proof.
  induction 1 as [|sidestake rest (entry & field & value & -> & Hfield & Hvalue) _ IH];
    intros (entry' & field' & value' & Hin & Haddress' & Hfield' & Hvalue' & Hge).
  - destruct Hin.
  - cbn [check_sidestake_loop].
    destruct (list_index (split_on "," entry) 0) as [found_address|e] eqn:Haddress;
      cbn [bind].
    + rewrite Hfield. cbn [bind]. rewrite Hvalue. cbn [bind].
      destruct (String.eqb found_address address && ge value minval) eqn:Hmatch;
        [reflexivity|].
      apply IH. destruct Hin as [[= <-]|Hin].
      * rewrite Haddress in Haddress'. injection Haddress' as ->.
        rewrite Hfield in Hfield'. injection Hfield' as <-.
        rewrite Hvalue in Hvalue'. injection Hvalue' as <-.
        rewrite String.eqb_refl, Hge in Hmatch. discriminate.
      * exists entry', field', value'. repeat split; assumption.
    + unfold list_index in Haddress, Hfield.
      destruct (split_on "," entry); cbn in Haddress, Hfield; discriminate.
Qed.

(** [check_sidestake] answers [True] only when side staking is switched on
    with the string ["1"] and some listed entry names the address before
    its first comma and carries, after it, a number that is at least
    [minval].  When every listed entry has a comma followed by a number,
    such an entry is also enough for [True].  With a flag other than
    ["1"] the answer is [False] whatever is listed. *)
Theorem check_sidestake_finds_the_address (config_params : list (string * pyval))
    (address : string) (minval : number) :
  (check_sidestake number py_float ge (PDict config_params) address minval = Ok true ->
   exists flag sidestake sidestakes entry field value,
     dict_get config_params "enablesidestaking" = Some flag
     /\ eq_str flag "1" = true
     /\ dict_get config_params "sidestake" = Some sidestake
     /\ iterate sidestake = Ok sidestakes
     /\ In (PStr entry) sidestakes
     /\ list_index (split_on "," entry) 0 = Ok address
     /\ list_index (split_on "," entry) 1 = Ok field
     /\ py_float field = Ok value
     /\ ge value minval = true)
  /\ (forall sidestakes,
        dict_get config_params "enablesidestaking" = Some (PStr "1") ->
        dict_get config_params "sidestake" = Some (PList sidestakes) ->
        Forall (fun sidestake =>
                  exists entry field value,
                    sidestake = PStr entry
                    /\ list_index (split_on "," entry) 1 = Ok field
                    /\ py_float field = Ok value) sidestakes ->
        (exists entry field value,
           In (PStr entry) sidestakes
           /\ list_index (split_on "," entry) 0 = Ok address
           /\ list_index (split_on "," entry) 1 = Ok field
           /\ py_float field = Ok value
           /\ ge value minval = true) ->
        check_sidestake number py_float ge (PDict config_params) address minval = Ok true)
  /\ (forall flag,
        dict_get config_params "enablesidestaking" = Some flag ->
        eq_str flag "1" = false ->
        check_sidestake number py_float ge (PDict config_params) address minval = Ok false).
Proof.
  unfold check_sidestake. cbn [has_key getitem bind].
  split; [|split].
  - destruct (dict_get config_params "enablesidestaking") as [flag|]; cbn [negb bind];
      [|discriminate].
    destruct (dict_get config_params "sidestake") as [sidestake|]; cbn [negb bind];
      [|discriminate].
    destruct (eq_str flag "1") eqn:Hflag; cbn [negb]; [|discriminate].
    destruct (iterate sidestake) as [sidestakes|e] eqn:Hiter; cbn [bind]; [|discriminate].
    intros Hrun.
    destruct (check_sidestake_loop_true _ _ _ Hrun) as (entry & field & value & Hfound).
    exists flag, sidestake, sidestakes, entry, field, value.
    split; [reflexivity|]. split; [exact Hflag|]. split; [reflexivity|].
    split; [exact Hiter | exact Hfound].
  - intros sidestakes -> -> Hformed Hfound. cbn [negb bind eq_str String.eqb Ascii.eqb
      Bool.eqb iterate].
    apply check_sidestake_loop_finds; assumption.
  - intros flag -> Hflag. cbn [negb bind].
    destruct (dict_get config_params "sidestake"); cbn [negb bind]; [|reflexivity].
    rewrite Hflag. reflexivity.
Qed.

End SidestakeChecks.

Section SidestakeCheckRuns.
Import GridcoinClientConnection.

(** Two listed addresses, with percentages read as integers: the address
    is listed with 5, which is enough for a minimum of 1 and too little
    for 6. *)
Lemma check_sidestake_witness :
  let py_float := fun field : string => n <- py_int field ;; Ok n in
  let config_params :=
    [("enablesidestaking", PStr "1"); ("sidestake", PList [PStr "a,5"; PStr "b,1"])] in
  check_sidestake Z py_float Z.geb (PDict config_params) "a" 1 = Ok true
  /\ check_sidestake Z py_float Z.geb (PDict config_params) "a" 6 = Ok false.
Proof.
  intros py_float config_params. split; [|reflexivity].
  apply (proj1 (proj2 (check_sidestake_finds_the_address Z py_float Z.geb config_params
                         "a" 1)) [PStr "a,5"; PStr "b,1"]).
  - reflexivity.
  - reflexivity.
  - repeat constructor.
    + exists "a,5", "5", 5. repeat split.
    + exists "b,1", "1", 1. repeat split.
  - exists "a,5", "5", 5. split; [now left|]. repeat split.
Defined.

End SidestakeCheckRuns.
